(** * LiveBG point-field animation engines

    A shallow embedding of the animation modules under [livebg/animations]
    ([templateField], [vortex3], [swirlField], [orbitField], [fireField]).

    JavaScript numbers: a finite number is a real number, and [NaN] and the
    two infinities are kept as separate values because the clamping code
    treats them differently.  The product that decides the particle count,
    [baseDensity * W * H], is rounded to binary64 at each multiplication and
    overflows to an infinity, since its floor is an integer and an overflow
    can end in [NaN]; the other quantities (times, positions, zoom,
    intensities) are continuous and are taken exact, the rounding of
    binary64 and of Float32Array storage moving them by a last bit only.
    The sign of zero is not kept.  [Math.random()] is an explicit
    stream of future draws carried in the engine state; the statistics
    callback is a log of the calls made so far; [requestAnimationFrame] is the
    identifier of the pending request. *)

From Stdlib Require Import Reals Lra Lia ZArith List Bool.
Import ListNotations.

Local Open Scope R_scope.

(** ** JavaScript numbers *)

Module JS.

Inductive number : Type :=
| NaN
| PosInf
| NegInf
| Fin (r : R).

Definition of_Z (z : Z) : number := Fin (IZR z).
Definition of_nat (n : nat) : number := Fin (INR n).

(** Binary64 arithmetic.  [bpow e] is [2^e]; [magnitude x] is the exponent
    of the binade of [x], [floor(log2 |x|)]; a real is rounded to the nearest
    multiple of its unit in the last place, [2^(magnitude - 52)] and at
    least [2^-1074], the even one on a tie; from [2^1024 - 2^970] on (the
    largest double plus half a unit) the result is an infinity. *)
Definition bpow (e : Z) : R := powerRZ 2 e.

Definition overflow_threshold : R := bpow 1024 - bpow 970.

Definition magnitude (x : R) : Z := Int_part (ln (Rabs x) / ln 2).

Definition nearest_even (y : R) : Z :=
  let f := Int_part y in
  if Rlt_dec (y - IZR f) (1 / 2) then f
  else if Rlt_dec (1 / 2) (y - IZR f) then (f + 1)%Z
  else if Z.even f then f else (f + 1)%Z.

Definition round64 (x : R) : number :=
  if Req_dec_T x 0 then Fin 0
  else if Rle_dec overflow_threshold (Rabs x)
       then (if Rlt_dec 0 x then PosInf else NegInf)
       else
         let e := Z.max (magnitude x - 52) (-1074) in
         Fin (IZR (nearest_even (x / bpow e)) * bpow e).

(** [a * b], rounded. *)
Definition mul (a b : number) : number :=
  let inf_times (pos : bool) (r : R) :=
    if Rlt_dec 0 r then (if pos then PosInf else NegInf)
    else if Rlt_dec r 0 then (if pos then NegInf else PosInf)
    else NaN in
  match a, b with
  | NaN, _ | _, NaN => NaN
  | Fin x, Fin y => round64 (x * y)
  | PosInf, Fin y | Fin y, PosInf => inf_times true y
  | NegInf, Fin y | Fin y, NegInf => inf_times false y
  | PosInf, PosInf | NegInf, NegInf => PosInf
  | PosInf, NegInf | NegInf, PosInf => NegInf
  end.

(** [Math.floor(a)] *)
Definition Math_floor (a : number) : number :=
  match a with
  | Fin r => of_Z (Int_part r)
  | other => other
  end.

(** [Math.max(a, b)]: [NaN] as soon as one argument is [NaN]. *)
Definition Math_max (a b : number) : number :=
  match a, b with
  | NaN, _ | _, NaN => NaN
  | PosInf, _ | _, PosInf => PosInf
  | NegInf, other | other, NegInf => other
  | Fin x, Fin y => Fin (Rmax x y)
  end.

(** [Math.min(a, b)] *)
Definition Math_min (a b : number) : number :=
  match a, b with
  | NaN, _ | _, NaN => NaN
  | NegInf, _ | _, NegInf => NegInf
  | PosInf, other | other, PosInf => other
  | Fin x, Fin y => Fin (Rmin x y)
  end.

(** [a === b] on numbers: [NaN] is equal to nothing, itself included. *)
Definition strict_eq (a b : number) : Prop := a <> NaN /\ a = b.

Definition number_eq_dec (a b : number) : {a = b} + {a <> b}.
Proof.
  destruct a as [| | |x], b as [| | |y];
    try (left; reflexivity); try (right; discriminate).
  destruct (Req_dec_T x y) as [E|E].
  - left; now rewrite E.
  - right; intros [= ?]; contradiction.
Defined.

Definition strict_eq_dec (a b : number) : {strict_eq a b} + {~ strict_eq a b}.
Proof.
  unfold strict_eq.
  destruct a as [| | |x].
  - right; intros [H _]; now apply H.
  - destruct (number_eq_dec PosInf b); [left|right]; intuition discriminate.
  - destruct (number_eq_dec NegInf b); [left|right]; intuition discriminate.
  - destruct (number_eq_dec (Fin x) b); [left|right]; intuition discriminate.
Defined.

Definition strict_eqb (a b : number) : bool :=
  if strict_eq_dec a b then true else false.

(** [a <= b], false when an operand is [NaN]. *)
Definition le (a b : number) : Prop :=
  match a, b with
  | NaN, _ | _, NaN => False
  | NegInf, _ | _, PosInf => True
  | Fin x, Fin y => x <= y
  | _, _ => False
  end.

(** Length of [new Float32Array(n)] (the ToIndex conversion): [NaN] gives
    the empty array, a negative or infinite length throws a RangeError
    ([None]), a fractional length is truncated. *)
Definition Float32Array_length (n : number) : option nat :=
  match n with
  | NaN => Some 0%nat
  | Fin r => if Rle_dec 0 r then Some (Z.to_nat (Int_part r)) else None
  | PosInf | NegInf => None
  end.

(** Number of iterations of [for (let i = 0; i < n; i++)] when [n] is
    [NaN] or an integer (the only bounds the engines produce). *)
Definition loop_count (n : number) : nat :=
  match n with
  | Fin r => Z.to_nat (Int_part r)
  | _ => 0%nat
  end.

(** [x || 1] on a finite number: the fallback is taken when [x] is zero. *)
Definition or_one (x : R) : R := if Req_dec_T x 0 then 1 else x.

End JS.

Import JS.

(** ** State shared by every animation module

    Each module is a closure over the same variables; [data] holds the ones
    that are proper to a field (point arrays and logical time, or the fire
    grid).  The last four components are the environment the closure talks
    to: the future draws of [Math.random()], the next identifier
    [requestAnimationFrame] hands out, whether an [onStats] callback was
    given, and the calls made to it (oldest first). *)

Inductive stat : Type :=
| StatPoints (points : number)            (* onStats({ points }) *)
| StatSpeed (speed : R)                   (* onStats({ speed }) *)
| StatZoom (zoom : R)                     (* onStats({ zoom }) *)
| StatFrame (fps speed zoom : R).         (* onStats({ fps, speed, zoom }) *)

Record engine (D : Type) : Type := Engine {
  W : Z;
  H : Z;
  DPR : R;
  speed : R;
  zoom : R;
  zoomAuto : bool;
  zoomPhase : R;
  running : bool;
  rafId : option nat;
  last : R;
  fpsEMA : R;
  data : D;
  random : nat -> R;
  raf_next : nat;
  onStats : bool;
  stats : list stat
}.

Arguments Engine {D}.
Arguments W {D}. Arguments H {D}. Arguments DPR {D}.
Arguments speed {D}. Arguments zoom {D}. Arguments zoomAuto {D}.
Arguments zoomPhase {D}. Arguments running {D}. Arguments rafId {D}.
Arguments last {D}. Arguments fpsEMA {D}. Arguments data {D}.
Arguments random {D}. Arguments raf_next {D}. Arguments onStats {D}.
Arguments stats {D}.

Section Assign.
Context {D : Type}.
Implicit Type e : engine D.

Definition set_viewport (w h : Z) (dpr : R) e :=
  Engine w h dpr (speed e) (zoom e) (zoomAuto e) (zoomPhase e) (running e)
    (rafId e) (last e) (fpsEMA e) (data e) (random e) (raf_next e)
    (onStats e) (stats e).

Definition set_speed (v : R) e :=
  Engine (W e) (H e) (DPR e) v (zoom e) (zoomAuto e) (zoomPhase e)
    (running e) (rafId e) (last e) (fpsEMA e) (data e) (random e)
    (raf_next e) (onStats e) (stats e).

Definition set_zoom (v : R) e :=
  Engine (W e) (H e) (DPR e) (speed e) v (zoomAuto e) (zoomPhase e)
    (running e) (rafId e) (last e) (fpsEMA e) (data e) (random e)
    (raf_next e) (onStats e) (stats e).

Definition set_zoomAuto (v : bool) e :=
  Engine (W e) (H e) (DPR e) (speed e) (zoom e) v (zoomPhase e)
    (running e) (rafId e) (last e) (fpsEMA e) (data e) (random e)
    (raf_next e) (onStats e) (stats e).

Definition set_zoomPhase (v : R) e :=
  Engine (W e) (H e) (DPR e) (speed e) (zoom e) (zoomAuto e) v
    (running e) (rafId e) (last e) (fpsEMA e) (data e) (random e)
    (raf_next e) (onStats e) (stats e).

Definition set_running (v : bool) e :=
  Engine (W e) (H e) (DPR e) (speed e) (zoom e) (zoomAuto e) (zoomPhase e)
    v (rafId e) (last e) (fpsEMA e) (data e) (random e)
    (raf_next e) (onStats e) (stats e).

Definition set_rafId (v : option nat) e :=
  Engine (W e) (H e) (DPR e) (speed e) (zoom e) (zoomAuto e) (zoomPhase e)
    (running e) v (last e) (fpsEMA e) (data e) (random e)
    (raf_next e) (onStats e) (stats e).

Definition set_last (v : R) e :=
  Engine (W e) (H e) (DPR e) (speed e) (zoom e) (zoomAuto e) (zoomPhase e)
    (running e) (rafId e) v (fpsEMA e) (data e) (random e)
    (raf_next e) (onStats e) (stats e).

Definition set_fpsEMA (v : R) e :=
  Engine (W e) (H e) (DPR e) (speed e) (zoom e) (zoomAuto e) (zoomPhase e)
    (running e) (rafId e) (last e) v (data e) (random e)
    (raf_next e) (onStats e) (stats e).

Definition set_data (v : D) e :=
  Engine (W e) (H e) (DPR e) (speed e) (zoom e) (zoomAuto e) (zoomPhase e)
    (running e) (rafId e) (last e) (fpsEMA e) v (random e)
    (raf_next e) (onStats e) (stats e).

(** [k] calls of [Math.random()] have been made. *)
Definition consume (k : nat) e :=
  Engine (W e) (H e) (DPR e) (speed e) (zoom e) (zoomAuto e) (zoomPhase e)
    (running e) (rafId e) (last e) (fpsEMA e) (data e)
    (fun i => random e (k + i)%nat)
    (raf_next e) (onStats e) (stats e).

(** [if (onStats) onStats(s)], also written [onStats && onStats(s)] and
    [onStats?.(s)]. *)
Definition emit (s : stat) e :=
  Engine (W e) (H e) (DPR e) (speed e) (zoom e) (zoomAuto e) (zoomPhase e)
    (running e) (rafId e) (last e) (fpsEMA e) (data e) (random e)
    (raf_next e) (onStats e)
    (if onStats e then stats e ++ [s] else stats e).

(** [rafId = requestAnimationFrame(loop)] *)
Definition request_frame e :=
  Engine (W e) (H e) (DPR e) (speed e) (zoom e) (zoomAuto e) (zoomPhase e)
    (running e) (Some (raf_next e)) (last e) (fpsEMA e) (data e) (random e)
    (S (raf_next e)) (onStats e) (stats e).

(** [fitCanvas] up to the rebuild: the device pixel ratio is clamped to
    [1, 3] and the viewport is measured in whole CSS pixels. *)
Definition measure (innerWidth innerHeight devicePixelRatio : R) e :=
  set_viewport (Int_part innerWidth) (Int_part innerHeight)
    (Rmax 1 (Rmin 3 (or_one devicePixelRatio))) e.

(** [play()] *)
Definition play (performance_now : R) e :=
  if running e then e
  else request_frame (set_last performance_now (set_running true e)).

(** [pause()] *)
Definition pause e :=
  let e := set_running false e in
  match rafId e with
  | Some _ => set_rafId None e      (* cancelAnimationFrame(rafId) *)
  | None => e
  end.

(** [dt = Math.max(0.0001, (now - last) / 1000)], first line of every
    [loop(now)] that runs. *)
Definition frame_dt (now : R) e : R := Rmax 0.0001 ((now - last e) / 1000).

(** [if (zoomAuto) { zoomPhase += dt; ... }] *)
Definition breathe (dt : R) e :=
  if zoomAuto e then set_zoomPhase (zoomPhase e + dt) e else e.

(** The zoom of the frame, read after [breathe]: [zoom], pulsed by
    [amp * Math.sin(2 * Math.PI * hz * zoomPhase)] under auto-zoom. *)
Definition effective_zoom (amp hz : R) e : R :=
  if zoomAuto e
  then zoom e * (1 + amp * sin (2 * PI * hz * zoomPhase e))
  else zoom e.

End Assign.

(** Argument of [setParams]: a field is [None] when the property is absent
    (or [null]), as tested by [params.x != null]. *)
Record params (Density : Type) : Type := Params {
  p_speed : option R;
  p_density : option Density;
  p_zoom : option R;
  p_zoomAuto : option bool
}.
Arguments Params {Density}.
Arguments p_speed {Density}. Arguments p_density {Density}.
Arguments p_zoom {Density}. Arguments p_zoomAuto {Density}.

(** Variables of a point field: density, particle count, base attribute
    arrays and logical time. *)
Record points (A : Type) : Type := Points {
  baseDensity : number;
  N : number;
  arrays : A;
  t : R
}.
Arguments Points {A}. Arguments baseDensity {A}. Arguments N {A}.
Arguments arrays {A}. Arguments t {A}.

(** A Float32Array of [len] zeros in which the first [cnt] elements have been
    assigned [f i] (assignments past the end are ignored). *)
Definition filled (len cnt : nat) (f : nat -> R) : list R :=
  map (fun i => if (i <? cnt)%nat then f i else 0) (seq 0 len).

(** [Math.pow(x, y)] for a base [x >= 0] and an exponent [y > 0]. *)
Definition Math_pow (x y : R) : R := if Rlt_dec 0 x then Rpower x y else 0.

(** ** The template family: templateField, vortex3, swirlField

    The three modules are the same program up to their constants, the arrays
    they keep and the layout loop that fills them ([rebuildPointField] is
    called [rebuildField] in swirlField.js). *)

Record Field : Type := {
  attrs : Type;
  (** the arrays after [new Float32Array(N)] and the layout loop: [len] is
      the allocated length, [cnt] the number of iterations, the stream gives
      the draws of [Math.random()] in call order *)
  layout : nat -> nat -> (nat -> R) -> attrs;
  (** [.length] of the array tested by [rebuildPointField] *)
  attrs_length : attrs -> nat;
  (** calls of [Math.random()] per iteration of the layout loop *)
  draws : nat;
  minPoints : Z;
  maxPoints : Z;
  defaultDensity : R;
  defaultSpeed : R;
  speedScale : R;
  zoomAmp : R;
  zoomHz : R;
  bounds_ordered : (0 <= minPoints <= maxPoints)%Z;
  layout_length :
    forall len cnt rnd, attrs_length (layout len cnt rnd) = len
}.

Record xy : Type := XY { xVals : list R; yVals : list R }.

Record tube : Type := Tube {
  sVals : list R;
  theta0Vals : list R;
  radiusVals : list R
}.

(** templateField.js: random point in the unit disc, [r = sqrt(u)]. *)
Definition template_point (u v : R) : R * R :=
  let r := sqrt u in
  let theta := 2 * PI * v in
  (r * cos theta, r * sin theta).

Definition template_layout (len cnt : nat) (rnd : nat -> R) : xy :=
  let point i := template_point (rnd (2 * i)%nat) (rnd (2 * i + 1)%nat) in
  XY (filled len cnt (fun i => fst (point i)))
     (filled len cnt (fun i => snd (point i))).

(** vortex3.js: radius biased toward the rim, [r = 1 - (1 - u)^1.6]. *)
Definition vortex_point (u v : R) : R * R :=
  let r := 1 - Math_pow (1 - u) 1.6 in
  let theta := 2 * PI * v in
  (r * cos theta, r * sin theta).

Definition vortex_layout (len cnt : nat) (rnd : nat -> R) : xy :=
  let point i := vortex_point (rnd (2 * i)%nat) (rnd (2 * i + 1)%nat) in
  XY (filled len cnt (fun i => fst (point i)))
     (filled len cnt (fun i => snd (point i))).

(** swirlField.js: axial parameter, start angle and jittered funnel radius. *)
Definition swirl_point (r1 r2 r3 : R) : R * R * R :=
  let s := r1 in
  let baseRadius := 0.45 * Math_pow (1 - s) 1.7 + 0.04 in
  let theta0 := 1.2 * PI * r2 in
  let jitter := (r3 - 0.5) * 0.05 * baseRadius in
  (s, theta0, baseRadius + jitter).

Definition swirl_layout (len cnt : nat) (rnd : nat -> R) : tube :=
  let point i :=
    swirl_point (rnd (3 * i)%nat) (rnd (3 * i + 1)%nat) (rnd (3 * i + 2)%nat) in
  Tube (filled len cnt (fun i => fst (fst (point i))))
       (filled len cnt (fun i => snd (fst (point i))))
       (filled len cnt (fun i => snd (point i))).

Definition templateField : Field.
Proof.
  refine {| attrs := xy; layout := template_layout;
            attrs_length := fun a => length (xVals a); draws := 2;
            minPoints := 6000; maxPoints := 120000;
            defaultDensity := 0.005; defaultSpeed := 0.5;
            speedScale := 60; zoomAmp := 0.08; zoomHz := 0.09 |}.
  - lia.
  - intros len cnt rnd. cbn. unfold filled.
    now rewrite length_map, length_seq.
Defined.

Definition vortex3 : Field.
Proof.
  refine {| attrs := xy; layout := vortex_layout;
            attrs_length := fun a => length (xVals a); draws := 2;
            minPoints := 6000; maxPoints := 90000;
            defaultDensity := 0.005; defaultSpeed := 0.5;
            speedScale := 60; zoomAmp := 0.08; zoomHz := 0.09 |}.
  - lia.
  - intros len cnt rnd. cbn. unfold filled.
    now rewrite length_map, length_seq.
Defined.

Definition swirlField : Field.
Proof.
  refine {| attrs := tube; layout := swirl_layout;
            attrs_length := fun a => length (sVals a); draws := 3;
            minPoints := 3000; maxPoints := 90000;
            defaultDensity := 0.0045; defaultSpeed := 0.1;
            speedScale := 45; zoomAmp := 0.09; zoomHz := 0.07 |}.
  - lia.
  - intros len cnt rnd. cbn. unfold filled.
    now rewrite length_map, length_seq.
Defined.

(** [clamp(x, lo, hi)] as the specification writes it, on integers. *)
Definition clamp (x lo hi : Z) : Z := Z.min hi (Z.max lo x).

Module PointField.
Section Engine.
Variable F : Field.

Definition state : Type := engine (points (attrs F)).

Definition set_t (v : R) (e : state) : state :=
  set_data (Points (baseDensity (data e)) (N (data e)) (arrays (data e)) v) e.

Definition set_baseDensity (v : number) (e : state) : state :=
  set_data (Points v (N (data e)) (arrays (data e)) (t (data e))) e.

Definition set_field (n : number) (a : attrs F) (e : state) : state :=
  set_data (Points (baseDensity (data e)) n a (t (data e))) e.

(** [Math.min(maxPoints, Math.max(minPoints, Math.floor(baseDensity * W * H)))] *)
Definition target (e : state) : number :=
  Math_min (of_Z (maxPoints F))
    (Math_max (of_Z (minPoints F))
       (Math_floor
          (mul (mul (baseDensity (data e)) (of_Z (W e))) (of_Z (H e))))).

(** The allocation of the arrays and the layout loop. *)
Definition regenerate (target : number) (e : state) : option state :=
  match Float32Array_length target with
  | None => None
  | Some len =>
    let cnt := loop_count target in
    let e := set_field target (layout F len cnt (random e)) e in
    let e := consume (draws F * cnt) e in
    Some (emit (StatPoints target) e)
  end.

(** [rebuildPointField()]; [None] is an exception leaving the function. *)
Definition rebuildPointField (e : state) : option state :=
  let target := target e in
  if strict_eqb target (N (data e))
     && strict_eqb (of_nat (attrs_length F (arrays (data e)))) target
  then Some (emit (StatPoints (N (data e))) e)
  else regenerate target e.

(** [fitCanvas()], on the window's current measures. *)
Definition fitCanvas (innerWidth innerHeight devicePixelRatio : R)
    (e : state) : option state :=
  rebuildPointField (measure innerWidth innerHeight devicePixelRatio e).

(** [loop(now)], the frame callback, is [integrate] (everything that
    follows [last = now]) at the frame's [dt].  Of the drawing the state
    keeps only the request for the next frame, made on both of its paths;
    the particles a frame draws are given further down, as a function of
    this state. *)
Definition integrate (dt : R) (e : state) : state :=
  let fps := 1 / dt in
  let e := set_fpsEMA (fpsEMA e * 0.9 + fps * 0.1) e in
  let e := set_t (t (data e) + dt * speed e * speedScale F) e in
  let e := breathe dt e in
  let z := effective_zoom (zoomAmp F) (zoomHz F) e in
  let e := emit (StatFrame (fpsEMA e) (speed e) z) e in
  request_frame e.

Definition loop (now : R) (e : state) : state :=
  if negb (running e) then e
  else
    let dt := frame_dt now e in
    let e := set_last now e in
    integrate dt e.

(** [reset()] *)
Definition reset (e : state) : state := set_zoomPhase 0 (set_t 0 e).

(** [setParams(params)], for a [params] object (the function returns at
    once on a missing one). *)
Definition setParams (p : params number) (e : state) : option state :=
  let e :=
    match p_speed p with
    | Some s => emit (StatSpeed s) (set_speed s e)
    | None => e
    end in
  match
    match p_density p with
    | Some d => rebuildPointField (set_baseDensity d e)
    | None => Some e
    end
  with
  | None => None
  | Some e =>
    let e :=
      match p_zoom p with
      | Some z => emit (StatZoom z) (set_zoom z e)
      | None => e
      end in
    Some
      match p_zoomAuto p with
      | Some b =>
        let e := set_zoomAuto b e in
        if negb (zoomAuto e) then set_zoomPhase 0 e else e
      | None => e
      end
  end.

(** [destroy()]; the resize listener it removes belongs to the host. *)
Definition destroy (e : state) : state := pause e.

(** [createAnimation({ canvas, initialState, onStats })].  [ini] holds the
    numeric properties of [initialState] ([typeof x === 'number']) and its
    [zoomAuto]; [start] is [initialState.running !== false]; [callback]
    tells whether [onStats] was given; [now0] and [now1] are the two
    readings of [performance.now()]. *)
Definition createAnimation (ini : params number) (start callback : bool)
    (rnd : nat -> R) (now0 now1 innerWidth innerHeight devicePixelRatio : R)
    : option state :=
  let e : state :=
    Engine 0%Z 0%Z 1
      (match p_speed ini with Some s => s | None => defaultSpeed F end)
      (match p_zoom ini with Some z => z | None => 1 end)
      (match p_zoomAuto ini with Some b => b | None => false end)
      0 false None now0 60
      (Points
         (match p_density ini with
          | Some d => d
          | None => Fin (defaultDensity F)
          end)
         (of_nat 0) (layout F 0 0 rnd) 0)
      rnd 0%nat callback [] in
  match fitCanvas innerWidth innerHeight devicePixelRatio e with
  | None => None
  | Some e =>
    match setParams ini e with
    | None => None
    | Some e => Some (if start then play now1 e else e)
    end
  end.

End Engine.
End PointField.

(** [Math.atan2(y, x)] *)
Definition Math_atan2 (y x : R) : R :=
  if Rlt_dec 0 x then atan (y / x)
  else if Rlt_dec x 0 then
    (if Rle_dec 0 y then atan (y / x) + PI else atan (y / x) - PI)
  else if Rlt_dec 0 y then PI / 2
  else if Rlt_dec y 0 then - (PI / 2)
  else 0.

(** ** orbitField.js *)

Module Orbit.

Definition minPoints : Z := 6000.
Definition maxPoints : Z := 120000.

Definition state : Type := engine (points xy).

Definition set_t (v : R) (e : state) : state :=
  set_data (Points (baseDensity (data e)) (N (data e)) (arrays (data e)) v) e.

Definition set_baseDensity (v : number) (e : state) : state :=
  set_data (Points v (N (data e)) (arrays (data e)) (t (data e))) e.

Definition set_field (n : number) (a : xy) (e : state) : state :=
  set_data (Points (baseDensity (data e)) n a (t (data e))) e.

Definition target (e : state) : number :=
  Math_min (of_Z maxPoints)
    (Math_max (of_Z minPoints)
       (Math_floor
          (mul (mul (baseDensity (data e)) (of_Z (W e))) (of_Z (H e))))).

(** The layout loop: [ii = i + 1; xVals[i] = ii % 200; yVals[i] = ii / 43]. *)
Definition base_x (i : nat) : R := IZR (Z.of_nat (i + 1) mod 200).
Definition base_y (i : nat) : R := INR (i + 1) / 43.

Definition orbit_layout (len cnt : nat) : xy :=
  XY (filled len cnt base_x) (filled len cnt base_y).

(** [rebuildPointField()] *)
Definition rebuildPointField (e : state) : option state :=
  let target := target e in
  if strict_eqb target (N (data e)) then Some e
  else
    match Float32Array_length target with
    | None => None
    | Some len =>
      let e := set_field target (orbit_layout len (loop_count target)) e in
      Some (emit (StatPoints target) e)
    end.

Definition fitCanvas (innerWidth innerHeight devicePixelRatio : R)
    (e : state) : option state :=
  rebuildPointField (measure innerWidth innerHeight devicePixelRatio e).

(** The closed-form curve evaluated for one particle in both passes of
    [loop]: [(mx, my)] from the base attributes and the logical time. *)
Definition curve (xv yv t : R) : R * R :=
  let k := 5 * cos (xv / 14) * cos (yv / 30) in
  let e := yv / 8 - 13 in
  let d := (k * k + e * e) / 59 + 4 in
  let q :=
    60 - 3 * sin (Math_atan2 k e * e)
    + k * (3 + (4 / d) * sin (d * d - t * 2)) in
  let c := d / 2 + e / 99 - t / 18 in
  (q * sin c, (q + d * 9) * cos c).

(** The curve points of the frame, in particle order. *)
Definition curve_points (e : state) : list (R * R) :=
  map (fun i =>
         curve (nth i (xVals (arrays (data e))) 0)
               (nth i (yVals (arrays (data e))) 0)
               (t (data e)))
      (seq 0 (loop_count (N (data e)))).

(** Accumulators of the bounding-box pass; [None] is the initial
    [Infinity] (for a minimum) or [-Infinity] (for a maximum). *)
Definition lower (acc : option R) (v : R) : option R :=
  match acc with
  | None => Some v
  | Some m => if Rlt_dec v m then Some v else Some m
  end.

Definition upper (acc : option R) (v : R) : option R :=
  match acc with
  | None => Some v
  | Some m => if Rlt_dec m v then Some v else Some m
  end.

Record box : Type := Box {
  minX : option R; maxX : option R; minY : option R; maxY : option R
}.

Definition grow (b : box) (p : R * R) : box :=
  Box (lower (minX b) (fst p)) (upper (maxX b) (fst p))
      (lower (minY b) (snd p)) (upper (maxY b) (snd p)).

Definition bounding_box (pts : list (R * R)) : box :=
  fold_left grow pts (Box None None None None).

Definition margin : R := 0.92.

(** Scale and offsets derived from the bounding box when at least one
    point went through the first pass (otherwise the box is infinite and
    the second pass, over the same particles, maps nothing). *)
Record fit : Type := Fit { scale : R; offX : R; offY : R }.

Definition fit_of (b : box) (zoomNow : R) (w h : Z) : option fit :=
  match minX b, maxX b, minY b, maxY b with
  | Some minX, Some maxX, Some minY, Some maxY =>
    let bw := or_one (maxX - minX) in
    let bh := or_one (maxY - minY) in
    let baseScale := Rmin (IZR w * margin / bw) (IZR h * margin / bh) in
    let scale := baseScale * zoomNow in
    let cx := IZR w * 0.5 in
    let cy := IZR h * 0.5 in
    let midX := (minX + maxX) * 0.5 in
    let midY := (minY + maxY) * 0.5 in
    Some (Fit scale (cx - midX * scale) (cy - midY * scale))
  | _, _, _, _ => None
  end.

Definition zoomNow (e : state) : R := effective_zoom 0.06 0.08 e.

(** Screen coordinates [(x, y)] computed by the second pass, one per
    particle, before culling. *)
Definition mapped_points (e : state) : list (R * R) :=
  let pts := curve_points e in
  match fit_of (bounding_box pts) (zoomNow e) (W e) (H e) with
  | Some f =>
    map (fun p => (fst p * scale f + offX f, snd p * scale f + offY f)) pts
  | None => []
  end.

(** [x >= 0 && x < W && y >= 0 && y < H] *)
Definition on_screen (w h : Z) (p : R * R) : bool :=
  (if Rle_dec 0 (fst p) then true else false)
  && (if Rlt_dec (fst p) (IZR w) then true else false)
  && (if Rle_dec 0 (snd p) then true else false)
  && (if Rlt_dec (snd p) (IZR h) then true else false).

(** The [fillRect(x, y, 1, 1)] calls of the frame. *)
Definition drawn_points (e : state) : list (R * R) :=
  filter (on_screen (W e) (H e)) (mapped_points e).

(** [loop(now)]: the state after the frame, [integrate] being everything
    that follows [last = now]; the frame draws [drawn_points] of that
    state. *)
Definition integrate (dt : R) (e : state) : state :=
  let fps := 1 / dt in
  let e := set_fpsEMA (fpsEMA e * 0.9 + fps * 0.1) e in
  let e := emit (StatFrame (fpsEMA e) (speed e) (zoom e)) e in
  let targetRate := PI / 20 * 60 in
  let e := set_t (t (data e) + targetRate * dt * speed e) e in
  let e := breathe dt e in
  request_frame e.

Definition loop (now : R) (e : state) : state :=
  if negb (running e) then e
  else
    let dt := frame_dt now e in
    let e := set_last now e in
    integrate dt e.

(** [reset()] *)
Definition reset (e : state) : state := set_t 0 e.

(** [setParams(params)] *)
Definition setParams (p : params number) (e : state) : option state :=
  let e :=
    match p_speed p with
    | Some s => emit (StatSpeed s) (set_speed s e)
    | None => e
    end in
  match
    match p_density p with
    | Some d => rebuildPointField (set_baseDensity d e)
    | None => Some e
    end
  with
  | None => None
  | Some e =>
    let e :=
      match p_zoom p with
      | Some z => emit (StatZoom z) (set_zoom z e)
      | None => e
      end in
    Some
      match p_zoomAuto p with
      | Some b =>
        let e := set_zoomAuto b e in
        if negb (zoomAuto e) then set_zoomPhase 0 e else e
      | None => e
      end
  end.

Definition destroy (e : state) : state := pause e.

(** [createAnimation({ canvas, initialState, onStats })], with the same
    conventions as for the template family. *)
Definition createAnimation (ini : params number) (start callback : bool)
    (rnd : nat -> R) (now0 now1 innerWidth innerHeight devicePixelRatio : R)
    : option state :=
  let e : state :=
    Engine 0%Z 0%Z 1
      (match p_speed ini with Some s => s | None => 0.05 end)
      (match p_zoom ini with Some z => z | None => 1 end)
      (match p_zoomAuto ini with Some b => b | None => false end)
      0 false None now0 60
      (Points
         (match p_density ini with Some d => d | None => Fin 0.005 end)
         (of_nat 0) (XY [] []) 0)
      rnd 0%nat callback [] in
  match fitCanvas innerWidth innerHeight devicePixelRatio e with
  | None => None
  | Some e =>
    match setParams ini e with
    | None => None
    | Some e => Some (if start then play now1 e else e)
    end
  end.

End Orbit.

(** ** fireField.js *)

(** [buf[i] = v] on a typed array: ignored past the end. *)
Fixpoint upd (i : nat) (v : R) (buf : list R) : list R :=
  match buf, i with
  | [], _ => []
  | _ :: rest, O => v :: rest
  | x :: rest, S j => x :: upd j v rest
  end.

Module Fire.

(** The grid variables.  The density is taken finite here. *)
Record grid : Type := Grid {
  baseDensity : R;
  gridW : nat;
  gridH : nat;
  gridSize : nat;
  buffer : list R
}.

Definition state : Type := engine grid.

Definition set_baseDensity (v : R) (e : state) : state :=
  set_data (Grid v (gridW (data e)) (gridH (data e)) (gridSize (data e))
              (buffer (data e))) e.

Definition set_buffer (v : list R) (e : state) : state :=
  set_data (Grid (baseDensity (data e)) (gridW (data e)) (gridH (data e))
              (gridSize (data e)) v) e.

(** [Math.max(0, Math.min(1, baseDensity))] *)
Definition density01 (e : state) : R := Rmax 0 (Rmin 1 (baseDensity (data e))).

(** [rebuildGrid()] *)
Definition rebuildGrid (e : state) : state :=
  let d := density01 e in
  let cellSize := Rmax 14 (28 - d * 10) in
  let gw := Z.to_nat (Z.max 24 (Int_part (IZR (W e) / cellSize))) in
  let gh := Z.to_nat (Z.max 18 (Int_part (IZR (H e) / (cellSize * 0.8)))) in
  let gs := (gw * gh)%nat in
  let e :=
    set_data (Grid (baseDensity (data e)) gw gh gs
                (repeat 0 (gs + gw + 1))) e in
  emit (StatPoints (of_nat gs)) e.

Definition fitCanvas (innerWidth innerHeight devicePixelRatio : R)
    (e : state) : state :=
  rebuildGrid (measure innerWidth innerHeight devicePixelRatio e).

(** One seed: [col = (Math.random() * gridW) | 0], written with
    [60 + Math.random() * 5] in the bottom row (draws are in [0, 1)). *)
Definition seed_cell (gw gh : nat) (rnd : nat -> R) (buf : list R)
    (i : nat) : list R :=
  let col := Z.to_nat (Int_part (rnd (2 * i)%nat * INR gw)) in
  let idx := (col + gw * (gh - 1))%nat in
  upd idx (60 + rnd (2 * i + 1)%nat * 5) buf.

(** The seeding loop of a step. *)
Definition seed_row (gw gh seedCount : nat) (rnd : nat -> R)
    (buf : list R) : list R :=
  fold_left (seed_cell gw gh rnd) (seq 0 seedCount) buf.

(** Body of the diffusion loop at index [i]; the reads stay inside the
    buffer thanks to its [gridW + 1] padding cells. *)
Definition diffuse_cell (gw : nat) (buf : list R) (i : nat) : list R :=
  let v :=
    nth i buf 0 + nth (i + 1) buf 0 + nth (i + gw) buf 0
    + nth (i + gw + 1) buf 0 in
  upd i (v * 0.25) buf.

(** The diffusion loop, in place and in index order. *)
Definition diffuse (gw gs : nat) (buf : list R) : list R :=
  fold_left (diffuse_cell gw) (seq 0 gs) buf.

(** The fade loop. *)
Definition fade (gs : nat) (buf : list R) : list R :=
  fold_left (fun b i => upd i (nth i b 0 * 0.985) b) (seq 0 gs) buf.

(** A step of the simulation without its seeding loop. *)
Definition decay_step (gw gs : nat) (buf : list R) : list R :=
  fade gs (diffuse gw gs buf).

(** [steps] iterations of the outer loop of [stepFire]. *)
Fixpoint simulate (steps gw gh gs seedCount : nat) (rnd : nat -> R)
    (buf : list R) : list R * (nat -> R) :=
  match steps with
  | O => (buf, rnd)
  | S k =>
    let buf := seed_row gw gh seedCount rnd buf in
    let rnd := fun i => rnd (2 * seedCount + i)%nat in
    simulate k gw gh gs seedCount rnd (decay_step gw gs buf)
  end.

(** [Math.max(1, Math.floor(gridW / (6 + 4 * (1 - d))))] *)
Definition seedCount (e : state) : nat :=
  Z.to_nat
    (Z.max 1 (Int_part (INR (gridW (data e)) / (6 + 4 * (1 - density01 e))))).

(** [stepFire(steps)] *)
Definition stepFire (steps : nat) (e : state) : state :=
  if (gridSize (data e) =? 0)%nat then e
  else
    let g := data e in
    let r :=
      simulate steps (gridW g) (gridH g) (gridSize g) (seedCount e)
        (random e) (buffer g) in
    set_buffer (fst r)
      (consume (steps * (2 * seedCount e)) e).

(** [Math.max(1, Math.round(speed * 4))] *)
Definition steps_per_frame (e : state) : nat :=
  Z.to_nat (Z.max 1 (Int_part (speed e * 4 + 0.5))).

(** [loop(now)]; the cells a frame draws are given further down, as a
    function of this state. *)
Definition integrate (dt : R) (e : state) : state :=
  let fps := 1 / dt in
  let e := set_fpsEMA (fpsEMA e * 0.9 + fps * 0.1) e in
  let e := stepFire (steps_per_frame e) e in
  let e := breathe dt e in
  let z := effective_zoom 0.07 0.07 e in
  let e := emit (StatFrame (fpsEMA e) (speed e) z) e in
  request_frame e.

Definition loop (now : R) (e : state) : state :=
  if negb (running e) then e
  else
    let dt := frame_dt now e in
    let e := set_last now e in
    integrate dt e.

(** [reset()]: [buffer.fill(0)] and [zoomPhase = 0]. *)
Definition reset (e : state) : state :=
  let e :=
    match buffer (data e) with
    | [] => e
    | _ :: _ => set_buffer (map (fun _ => 0) (buffer (data e))) e
    end in
  set_zoomPhase 0 e.

(** [setParams(params)] *)
Definition setParams (p : params R) (e : state) : state :=
  let e :=
    match p_speed p with
    | Some s => emit (StatSpeed s) (set_speed s e)
    | None => e
    end in
  let e :=
    match p_density p with
    | Some d => rebuildGrid (set_baseDensity d e)
    | None => e
    end in
  let e :=
    match p_zoom p with
    | Some z => emit (StatZoom z) (set_zoom z e)
    | None => e
    end in
  match p_zoomAuto p with
  | Some b =>
    let e := set_zoomAuto b e in
    if negb (zoomAuto e) then set_zoomPhase 0 e else e
  | None => e
  end.

Definition destroy (e : state) : state := pause e.

Definition createAnimation (ini : params R) (start callback : bool)
    (rnd : nat -> R) (now0 now1 innerWidth innerHeight devicePixelRatio : R)
    : state :=
  let e : state :=
    Engine 0%Z 0%Z 1
      (match p_speed ini with Some s => s | None => 0.2 end)
      (match p_zoom ini with Some z => z | None => 1 end)
      (match p_zoomAuto ini with Some b => b | None => false end)
      0 false None now0 60
      (Grid (match p_density ini with Some d => d | None => 0.3 end)
         0 0 0 [])
      rnd 0%nat callback [] in
  let e := fitCanvas innerWidth innerHeight devicePixelRatio e in
  let e := setParams ini e in
  if start then play now1 e else e.

End Fire.

(** ** What the template family draws

    The second half of [loop]: each particle is taken from its base
    attributes to a screen position, and drawn with [fillRect(x, y, 1, 1)]
    when it passes the culling test.  The positions are those of the engine
    as the first half of [loop] has left it (time integrated, zoom phase
    advanced). *)

(** [Math.hypot(x, y)] *)
Definition Math_hypot (x y : R) : R := sqrt (x * x + y * y).

(** [x >= 0 && x < W && y >= 0 && y < H] *)
Definition culled_in (w h : Z) (p : R * R) : bool :=
  (if Rle_dec 0 (fst p) then true else false)
  && (if Rlt_dec (fst p) (IZR w) then true else false)
  && (if Rle_dec 0 (snd p) then true else false)
  && (if Rlt_dec (snd p) (IZR h) then true else false).

(** [Math.min(W, H) * 0.5 * 0.9 * z] *)
Definition disc_radius (w h : Z) (z : R) : R :=
  Rmin (IZR w) (IZR h) * 0.5 * 0.9 * z.

(** templateField.js, body of the drawing loop for particle [i]. *)
Definition template_screen (w h : Z) (z t : R) (i : nat) (bx bY : R)
    : R * R :=
  let cx := IZR w * 0.5 in
  let cy := IZR h * 0.5 in
  let baseRadius := disc_radius w h z in
  let r := Math_hypot bx bY in
  let baseAng := Math_atan2 bY bx in
  let swirl := t * 0.35 + r * 5.0 in
  let wobble := sin (INR i * 0.013 + t * 0.7) * 0.35 in
  let ang := baseAng + swirl + wobble in
  let radialPulse := 1 + 0.18 * sin (t * 0.6 + r * 8.0) in
  let radius := r * baseRadius * radialPulse in
  (cx + cos ang * radius, cy + sin ang * radius).

(** vortex3.js, body of the drawing loop for particle [i]. *)
Definition vortex_screen (w h : Z) (z t : R) (i : nat) (bx bY : R)
    : R * R :=
  let cx := IZR w * 0.5 in
  let cy := IZR h * 0.5 in
  let baseRadius := disc_radius w h z in
  let r := Math_hypot bx bY in
  let baseAng := Math_atan2 bY bx in
  let swirl := t * 0.22 + r * 7.0 in
  let armWobble := sin (4 * baseAng + t * 0.6) * 0.25 in
  let turbulence := sin (INR i * 0.017 + t * 0.95) * 0.2 in
  let ang := baseAng + swirl + armWobble + turbulence in
  let radialPulse := 1 + 0.14 * sin (t * 0.5 + r * 9.0) in
  let fallIn := 0.35 + 0.65 * (1 - exp (- r * 4.0)) in
  let radius := r * baseRadius * radialPulse * fallIn in
  (cx + cos ang * radius, cy + sin ang * radius).

(** swirlField.js, body of the drawing loop: the screen position and the
    [globalAlpha] the particle is drawn with. *)
Definition swirl_screen (w h : Z) (z t : R) (s theta0 baseR : R)
    : R * R * R :=
  let cx := IZR w * 0.5 in
  let cy := IZR h * 0.5 in
  let axisLen := IZR w * 0.52 * z in
  let radialScale := IZR h * 0.42 * z in
  let bendPhase := t * 0.003 in
  let wobblePhase := t * 0.18 in
  let xAxis := (s - 0.5) * 2.0 in
  let bend :=
    0.28 * sin (2.7 * (s - 0.3) + bendPhase)
    + 0.12 * sin (5.3 * s - bendPhase * 1.7) in
  let yAxis := 0.15 * sin (bendPhase * 1.3) + bend * 0.8 in
  let swirlSpeed := 2.0 + 4.0 * s in
  let swirl := t * 0.045 * swirlSpeed in
  let theta := theta0 + swirl + 2.0 * s in
  let pulse := 1 + 0.25 * sin (t * 0.025 + s * 8.0) in
  let turbulence := 1 + 0.18 * sin (theta0 * 3.1 + wobblePhase * 1.4) in
  let r := baseR * pulse * turbulence in
  let swirlX := cos theta * r * 0.5 in
  let swirlY := sin theta * r in
  let nx := xAxis + swirlX in
  let ny := yAxis + swirlY in
  let alphaScale := 0.35 + 0.65 * (1 - s) in
  (cx + nx * axisLen, cy + ny * radialScale, alphaScale).

(** The positions computed by a frame of templateField.js, in particle
    order ([if (!N)] leaves before the loop: no particle, or [NaN]). *)
Definition template_mapped (e : PointField.state templateField)
    : list (R * R) :=
  let z := effective_zoom 0.08 0.09 e in
  map (fun i =>
         template_screen (W e) (H e) z (t (data e)) i
           (nth i (xVals (arrays (data e))) 0)
           (nth i (yVals (arrays (data e))) 0))
      (seq 0 (loop_count (N (data e)))).

Definition template_drawn (e : PointField.state templateField)
    : list (R * R) :=
  filter (culled_in (W e) (H e)) (template_mapped e).

(** The same for vortex3.js. *)
Definition vortex_mapped (e : PointField.state vortex3) : list (R * R) :=
  let z := effective_zoom 0.08 0.09 e in
  map (fun i =>
         vortex_screen (W e) (H e) z (t (data e)) i
           (nth i (xVals (arrays (data e))) 0)
           (nth i (yVals (arrays (data e))) 0))
      (seq 0 (loop_count (N (data e)))).

Definition vortex_drawn (e : PointField.state vortex3) : list (R * R) :=
  filter (culled_in (W e) (H e)) (vortex_mapped e).

(** The same for swirlField.js, with the alpha of each particle. *)
Definition swirl_mapped (e : PointField.state swirlField)
    : list (R * R * R) :=
  let z := effective_zoom 0.09 0.07 e in
  map (fun i =>
         swirl_screen (W e) (H e) z (t (data e))
           (nth i (sVals (arrays (data e))) 0)
           (nth i (theta0Vals (arrays (data e))) 0)
           (nth i (radiusVals (arrays (data e))) 0))
      (seq 0 (loop_count (N (data e)))).

Definition swirl_drawn (e : PointField.state swirlField)
    : list (R * R * R) :=
  filter (fun p => culled_in (W e) (H e) (fst p)) (swirl_mapped e).

(** ** An engine of the template family in its page

    The browser side of an engine: the frame requests that are still
    pending (made by [requestAnimationFrame], removed by
    [cancelAnimationFrame] or by being served), and whether the module's
    ['resize'] listener is registered. *)

Module Page.
Section Events.
Variable F : Field.

Record mounted : Type := Mounted {
  engine_of : PointField.state F;
  pending : list nat;
  listening : bool
}.

Inductive event : Type :=
| Resize (innerWidth innerHeight devicePixelRatio : R)
| AnimationFrame (now : R)
| CallPlay (performance_now : R)
| CallPause
| CallReset
| CallSetParams (p : params number)
| CallDestroy.

(** The requests an operation has made: the identifiers handed out between
    its start and its end. *)
Definition requested (before after : PointField.state F) : list nat :=
  seq (raf_next before) (raf_next after - raf_next before).

(** [cancelAnimationFrame(rafId)], as [pause()] calls it. *)
Definition cancelled (before : PointField.state F) (ids : list nat)
    : list nat :=
  match rafId before with
  | Some id => filter (fun i => negb (i =? id)%nat) ids
  | None => ids
  end.

(** The callbacks of one animation frame: every request pending when the
    frame starts is served with [loop(now)]. *)
Definition serve (now : R) (ids : list nat) (e : PointField.state F)
    : PointField.state F :=
  fold_left (fun e _ => PointField.loop F now e) ids e.

Definition dispatch (ev : event) (m : mounted) : option mounted :=
  let e := engine_of m in
  match ev with
  | Resize w h dpr =>
    if listening m then
      match PointField.fitCanvas F w h dpr e with
      | Some e' => Some (Mounted e' (pending m ++ requested e e') true)
      | None => None
      end
    else Some m
  | AnimationFrame now =>
    let e' := serve now (pending m) e in
    Some (Mounted e' (requested e e') (listening m))
  | CallPlay now =>
    let e' := play now e in
    Some (Mounted e' (pending m ++ requested e e') (listening m))
  | CallPause =>
    Some (Mounted (pause e) (cancelled e (pending m)) (listening m))
  | CallReset =>
    Some (Mounted (PointField.reset F e) (pending m) (listening m))
  | CallSetParams p =>
    match PointField.setParams F p e with
    | Some e' => Some (Mounted e' (pending m ++ requested e e') (listening m))
    | None => None
    end
  | CallDestroy =>
    Some (Mounted (PointField.destroy F e) (cancelled e (pending m)) false)
  end.

(** The events the browser delivers by itself, as opposed to calls of the
    module's API. *)
Definition from_browser (ev : event) : bool :=
  match ev with
  | Resize _ _ _ | AnimationFrame _ => true
  | _ => false
  end.

(** Events in order; [None] when one of them threw. *)
Fixpoint dispatch_all (evs : list event) (m : mounted) : option mounted :=
  match evs with
  | [] => Some m
  | ev :: rest =>
    match dispatch ev m with
    | Some m' => dispatch_all rest m'
    | None => None
    end
  end.

(** [createAnimation] in a page: the listener is registered before the
    first [fitCanvas()], and the request of [play()] is pending. *)
Definition mount (ini : params number) (start callback : bool)
    (rnd : nat -> R) (now0 now1 innerWidth innerHeight devicePixelRatio : R)
    : option mounted :=
  match
    PointField.createAnimation F ini start callback rnd now0 now1
      innerWidth innerHeight devicePixelRatio
  with
  | Some e => Some (Mounted e (seq 0 (raf_next e)) true)
  | None => None
  end.

(** What holds of a mounted engine at rest: while it runs exactly its last
    request is pending, while it is paused none is; the count is the
    clamped target of the current density and viewport, the arrays have
    that many elements, and the smoothed frame rate is within (0, 10000]. *)
Definition steady (m : mounted) : Prop :=
  let e := engine_of m in
  (if running e
   then exists id, rafId e = Some id /\ pending m = [id]
                   /\ (id < raf_next e)%nat
   else pending m = [])
  /\ N (data e) = PointField.target F e
  /\ attrs_length F (arrays (data e)) = loop_count (N (data e))
  /\ 0 < fpsEMA e <= 10000.

End Events.
End Page.

(** ** What the fire field draws *)

(** A CSS colour [rgba(r, g, b, a)]. *)
Record rgba : Type := RGBA { red : Z; green : Z; blue : Z; alpha : R }.

(** The number [x.toFixed(3)] prints: the multiple of 1/1000 nearest to [x],
    the larger one on a tie. *)
Definition toFixed3 (x : R) : R := IZR (Int_part (x * 1000 + 0.5)) / 1000.

(** [intensityToRGBA(v)]; [x | 0] truncates the (non-negative) channel. *)
Definition intensityToRGBA (v : R) : rgba :=
  let t := Rmax 0 (Rmin 1 (v / 45)) in
  let g := t * t in
  let r := 30 + 225 * t in
  let gCol := 10 + 170 * g in
  let b := 5 + 40 * (1 - t) in
  let a := 0.15 + 0.8 * t in
  RGBA (Int_part r) (Int_part gCol) (Int_part b) (toFixed3 a).

(** A call [fillRect(x, y, w, h)] with its fill style, and the cell it is
    made for. *)
Record cell_rect : Type := CellRect {
  col : nat; row : nat;
  rx : R; ry : R; rw : R; rh : R;
  style : rgba
}.

(** The drawing loops of the fire [loop], on the engine as its first half
    has left it (nothing is drawn while [gridSize] is 0). *)
Definition fire_drawn (e : Fire.state) : list cell_rect :=
  let g := data e in
  if (Fire.gridSize g =? 0)%nat then []
  else
    let z := effective_zoom 0.07 0.07 e in
    let cellW := IZR (W e) / INR (Fire.gridW g) in
    let cellH := IZR (H e) / INR (Fire.gridH g) * z in
    let gapX := Rmax 0.4 (cellW * 0.08) in
    let gapY := Rmax 0.4 (cellH * 0.08) in
    flat_map
      (fun y =>
         let rowOffset := (y * Fire.gridW g)%nat in
         let sy := INR y * cellH in
         if Rlt_dec (IZR (H e)) sy then []
         else if Rlt_dec (sy + cellH) 0 then []
         else
           flat_map
             (fun x =>
                let v := nth (rowOffset + x) (Fire.buffer g) 0 in
                if Rlt_dec v 1.5 then []
                else
                  [CellRect x y (INR x * cellW + gapX) (sy + gapY)
                     (cellW - 2 * gapX) (cellH - 2 * gapY)
                     (intensityToRGBA v)])
             (seq 0 (Fire.gridW g)))
      (seq 0 (Fire.gridH g)).

(** ** main.js: the page hosting the animations *)

Module Host.

(** The registry [animationDefs], from which [animSelect] is populated. *)
Inductive anim_id : Type := cnidarian | swirl | template | fiya.

(** The module an entry of the registry names. *)
Inductive animation : Type :=
| Cnidarian (e : Orbit.state)                        (* orbitField.js *)
| Swirl (e : PointField.state swirlField)            (* swirlField.js *)
| Template (e : PointField.state templateField)      (* templateField.js *)
| Fiya (e : Fire.state).                             (* fireField.js *)

(** The object [state].  Its numbers are read with [parseFloat] from range
    inputs, whose value is always the decimal form of a number. *)
Record ui : Type := UI {
  ui_speed : R;
  ui_density : R;
  ui_zoom : R;
  ui_zoomAuto : bool;
  ui_running : bool
}.

(** Drawers ([is-open] on [#modal] and on [#infoDrawer]) and the scrim
    ([is-on]). *)
Record drawers : Type := Drawers {
  controls_open : bool;
  info_open : bool;
  scrim_on : bool
}.

(** The page: [state], [currentAnimation], [isLoadingAnimation], the
    [import()] that [loadAnimation] is awaiting, the drawers, and the
    animations that were replaced, as [loadAnimation] left them (most recent
    first). *)
Record page : Type := MkPage {
  state : ui;
  currentAnimation : option animation;
  isLoadingAnimation : bool;
  importing : option anim_id;
  panels : drawers;
  retired : list animation
}.

(** The parameter objects the page passes to [setParams]. *)
Definition to_number (p : params R) : params number :=
  Params (p_speed p)
    (match p_density p with Some d => Some (Fin d) | None => None end)
    (p_zoom p) (p_zoomAuto p).

Definition all_params (s : ui) : params R :=
  Params (Some (ui_speed s)) (Some (ui_density s)) (Some (ui_zoom s))
    (Some (ui_zoomAuto s)).

(** The functions of the object a factory returns, on each module. *)
Definition a_play (now : R) (a : animation) : animation :=
  match a with
  | Cnidarian e => Cnidarian (play now e)
  | Swirl e => Swirl (play now e)
  | Template e => Template (play now e)
  | Fiya e => Fiya (play now e)
  end.

Definition a_pause (a : animation) : animation :=
  match a with
  | Cnidarian e => Cnidarian (pause e)
  | Swirl e => Swirl (pause e)
  | Template e => Template (pause e)
  | Fiya e => Fiya (pause e)
  end.

Definition a_reset (a : animation) : animation :=
  match a with
  | Cnidarian e => Cnidarian (Orbit.reset e)
  | Swirl e => Swirl (PointField.reset swirlField e)
  | Template e => Template (PointField.reset templateField e)
  | Fiya e => Fiya (Fire.reset e)
  end.

Definition a_destroy (a : animation) : animation :=
  match a with
  | Cnidarian e => Cnidarian (Orbit.destroy e)
  | Swirl e => Swirl (PointField.destroy swirlField e)
  | Template e => Template (PointField.destroy templateField e)
  | Fiya e => Fiya (Fire.destroy e)
  end.

Definition a_setParams (p : params R) (a : animation) : option animation :=
  match a with
  | Cnidarian e => option_map Cnidarian (Orbit.setParams (to_number p) e)
  | Swirl e =>
    option_map Swirl (PointField.setParams swirlField (to_number p) e)
  | Template e =>
    option_map Template (PointField.setParams templateField (to_number p) e)
  | Fiya e => Some (Fiya (Fire.setParams p e))
  end.

(** What the browser calls on the current animation: its frame callback
    and its resize listener. *)
Definition a_loop (now : R) (a : animation) : animation :=
  match a with
  | Cnidarian e => Cnidarian (Orbit.loop now e)
  | Swirl e => Swirl (PointField.loop swirlField now e)
  | Template e => Template (PointField.loop templateField now e)
  | Fiya e => Fiya (Fire.loop now e)
  end.

Definition a_fitCanvas (w h dpr : R) (a : animation) : option animation :=
  match a with
  | Cnidarian e => option_map Cnidarian (Orbit.fitCanvas w h dpr e)
  | Swirl e => option_map Swirl (PointField.fitCanvas swirlField w h dpr e)
  | Template e =>
    option_map Template (PointField.fitCanvas templateField w h dpr e)
  | Fiya e => Some (Fiya (Fire.fitCanvas w h dpr e))
  end.

(** [factory({ canvas, initialState: { ...state }, onStats: updateStats })]:
    every property of [state] has the type the module tests for, and
    [state.running !== false] is [state.running]. *)
Definition factory (id : anim_id) (s : ui) (rnd : nat -> R)
    (now0 now1 w h dpr : R) : option animation :=
  let ini := all_params s in
  match id with
  | cnidarian =>
    option_map Cnidarian
      (Orbit.createAnimation (to_number ini) (ui_running s) true rnd
         now0 now1 w h dpr)
  | swirl =>
    option_map Swirl
      (PointField.createAnimation swirlField (to_number ini) (ui_running s)
         true rnd now0 now1 w h dpr)
  | template =>
    option_map Template
      (PointField.createAnimation templateField (to_number ini)
         (ui_running s) true rnd now0 now1 w h dpr)
  | fiya =>
    Some (Fiya (Fire.createAnimation ini (ui_running s) true rnd
                  now0 now1 w h dpr))
  end.

(** The variables of the closure a created animation holds, as the page
    set them. *)
Definition knobs {D : Type} (density : D -> number) (e : engine D)
    : R * number * R * bool * bool :=
  (speed e, density (data e), zoom e, zoomAuto e, running e).

Definition a_knobs (a : animation) : R * number * R * bool * bool :=
  match a with
  | Cnidarian e => knobs baseDensity e
  | Swirl e => knobs baseDensity e
  | Template e => knobs baseDensity e
  | Fiya e => knobs (fun g => Fin (Fire.baseDensity g)) e
  end.

Definition a_rafId (a : animation) : option nat :=
  match a with
  | Cnidarian e => rafId e
  | Swirl e => rafId e
  | Template e => rafId e
  | Fiya e => rafId e
  end.

Definition ui_knobs (s : ui) : R * number * R * bool * bool :=
  (ui_speed s, Fin (ui_density s), ui_zoom s, ui_zoomAuto s, ui_running s).

(** What [setParams(p)] makes of these variables. *)
Definition tuned (p : params number) (k : R * number * R * bool * bool)
    : R * number * R * bool * bool :=
  let '(s, d, z, a, r) := k in
  (match p_speed p with Some v => v | None => s end,
   match p_density p with Some v => v | None => d end,
   match p_zoom p with Some v => v | None => z end,
   match p_zoomAuto p with Some v => v | None => a end,
   r).

Definition set_state (s : ui) (pg : page) : page :=
  MkPage s (currentAnimation pg) (isLoadingAnimation pg) (importing pg)
    (panels pg) (retired pg).

Definition set_panels (d : drawers) (pg : page) : page :=
  MkPage (state pg) (currentAnimation pg) (isLoadingAnimation pg)
    (importing pg) d (retired pg).

(** [currentAnimation?.f?.(...)] for an [f] that may throw: [None] is the
    exception leaving the handler. *)
Definition on_current (f : animation -> option animation) (pg : page)
    : option page :=
  match currentAnimation pg with
  | None => Some pg
  | Some a =>
    match f a with
    | Some a' =>
      Some (MkPage (state pg) (Some a') (isLoadingAnimation pg)
              (importing pg) (panels pg) (retired pg))
    | None => None
    end
  end.

(** [loadAnimation(id)] up to its [await]: the old animation is paused and
    destroyed, and the import is started. *)
Definition loadAnimation (id : anim_id) (pg : page) : page :=
  if isLoadingAnimation pg then pg
  else
    let old :=
      match currentAnimation pg with
      | Some a => [a_destroy (a_pause a)]
      | None => []
      end in
    MkPage (state pg) None true (Some id) (panels pg) (old ++ retired pg).

(** [loadAnimation] from the [await] on, when the import has resolved.  A
    factory or a [setParams] that throws is caught and logged; [now2] is
    the clock read by the last [play()]. *)
Definition finish_load (rnd : nat -> R) (now0 now1 now2 w h dpr : R)
    (pg : page) : page :=
  match importing pg with
  | None => pg
  | Some id =>
    let current :=
      match factory id (state pg) rnd now0 now1 w h dpr with
      | None => None
      | Some a =>
        match a_setParams (all_params (state pg)) a with
        | None => Some a
        | Some a' =>
          Some (if ui_running (state pg) then a_play now2 a' else a')
        end
      end in
    MkPage (state pg) current false None (panels pg) (retired pg)
  end.

(** The same when the import is rejected. *)
Definition fail_load (pg : page) : page :=
  match importing pg with
  | None => pg
  | Some _ => MkPage (state pg) None false None (panels pg) (retired pg)
  end.

(** [setDrawer(open, el, tab)] with its [updateScrim()]. *)
Definition anyOpen (d : drawers) : bool := controls_open d || info_open d.

Definition updateScrim (d : drawers) : drawers :=
  Drawers (controls_open d) (info_open d) (anyOpen d).

Definition setDrawer_controls (open : bool) (d : drawers) : drawers :=
  updateScrim (Drawers open (info_open d) (scrim_on d)).

Definition setDrawer_info (open : bool) (d : drawers) : drawers :=
  updateScrim (Drawers (controls_open d) open (scrim_on d)).

Definition close_both (d : drawers) : drawers :=
  setDrawer_info false (setDrawer_controls false d).

(** The keys the two [keydown] listeners tell apart. *)
Inductive key : Type :=
| KeyPlus        (* '+' or '=' *)
| KeyMinus       (* '-' or '_' *)
| KeyEscape
| KeyOther.

Inductive event : Type :=
| SelectChange (id : anim_id)
| ImportResolved (rnd : nat -> R) (now0 now1 now2 innerWidth innerHeight
                    devicePixelRatio : R)
| ImportRejected
| SpeedInput (value : R)
| DensityInput (value : R)
| ZoomInput (value : R)
| ZoomAutoChange (checked : bool)
| ToggleClick (performance_now : R)
| ResetClick
| Wheel (shiftKey : bool) (deltaY : R)
| KeyDown (k : key)
| TabControlsClick
| TabInfoClick
| ScrimClick
| WindowResize (innerWidth innerHeight devicePixelRatio : R)
| AnimationFrame (now : R).

Definition with_speed (v : R) (s : ui) : ui :=
  UI v (ui_density s) (ui_zoom s) (ui_zoomAuto s) (ui_running s).

Definition with_density (v : R) (s : ui) : ui :=
  UI (ui_speed s) v (ui_zoom s) (ui_zoomAuto s) (ui_running s).

Definition with_zoom (v : R) (s : ui) : ui :=
  UI (ui_speed s) (ui_density s) v (ui_zoomAuto s) (ui_running s).

Definition with_zoomAuto (v : bool) (s : ui) : ui :=
  UI (ui_speed s) (ui_density s) (ui_zoom s) v (ui_running s).

Definition with_running (v : bool) (s : ui) : ui :=
  UI (ui_speed s) (ui_density s) (ui_zoom s) (ui_zoomAuto s) v.

(** [state.x = v; currentAnimation?.setParams?.({ x: state.x })] *)
Definition push_speed (v : R) (pg : page) : option page :=
  on_current (a_setParams (Params (Some v) None None None))
    (set_state (with_speed v (state pg)) pg).

Definition push_density (v : R) (pg : page) : option page :=
  on_current (a_setParams (Params None (Some v) None None))
    (set_state (with_density v (state pg)) pg).

Definition push_zoom (v : R) (pg : page) : option page :=
  on_current (a_setParams (Params None None (Some v) None))
    (set_state (with_zoom v (state pg)) pg).

Definition push_zoomAuto (v : bool) (pg : page) : option page :=
  on_current (a_setParams (Params None None None (Some v)))
    (set_state (with_zoomAuto v (state pg)) pg).

(** The listeners of the page. *)
Definition handle (ev : event) (pg : page) : option page :=
  match ev with
  | SelectChange id => Some (loadAnimation id pg)
  | ImportResolved rnd now0 now1 now2 w h dpr =>
    Some (finish_load rnd now0 now1 now2 w h dpr pg)
  | ImportRejected => Some (fail_load pg)
  | SpeedInput v => push_speed v pg
  | DensityInput v => push_density v pg
  | ZoomInput v => push_zoom v pg
  | ZoomAutoChange b => push_zoomAuto b pg
  | ToggleClick now =>
    let r := negb (ui_running (state pg)) in
    on_current (fun a => Some (if r then a_play now a else a_pause a))
      (set_state (with_running r (state pg)) pg)
  | ResetClick => on_current (fun a => Some (a_reset a)) pg
  | Wheel true deltaY =>
    let z := ui_zoom (state pg) * Math_pow 1.1 (- deltaY / 100) in
    push_zoom (Rmin 4 (Rmax 0.5 z)) pg
  | Wheel false deltaY =>
    let s := ui_speed (state pg) * Math_pow 1.1 (- deltaY / 100) in
    push_speed (Rmax 0.05 (Rmin 5 s)) pg
  | KeyDown KeyPlus => push_zoom (Rmin 4 (ui_zoom (state pg) * 1.1)) pg
  | KeyDown KeyMinus => push_zoom (Rmax 0.5 (ui_zoom (state pg) / 1.1)) pg
  | KeyDown KeyEscape =>
    Some (if anyOpen (panels pg) then set_panels (close_both (panels pg)) pg
          else pg)
  | KeyDown KeyOther => Some pg
  | TabControlsClick =>
    let open := negb (controls_open (panels pg)) in
    let d := setDrawer_controls open (panels pg) in
    Some (set_panels (if open then setDrawer_info false d else d) pg)
  | TabInfoClick =>
    let open := negb (info_open (panels pg)) in
    let d := setDrawer_info open (panels pg) in
    Some (set_panels (if open then setDrawer_controls false d else d) pg)
  | ScrimClick => Some (set_panels (close_both (panels pg)) pg)
  | WindowResize w h dpr => on_current (a_fitCanvas w h dpr) pg
  | AnimationFrame now => on_current (fun a => Some (a_loop now a)) pg
  end.

Fixpoint handle_all (evs : list event) (pg : page) : option page :=
  match evs with
  | [] => Some pg
  | ev :: rest =>
    match handle ev pg with
    | Some pg' => handle_all rest pg'
    | None => None
    end
  end.

(** The page once the script has run: [state] read from the controls, with
    [running: true]; the first entry of the registry being loaded; both
    drawers closed by the two initial calls of [setDrawer]. *)
Definition init (speed0 density0 zoom0 : R) (zoomAuto0 : bool)
    (d0 : drawers) : page :=
  loadAnimation cnidarian
    (MkPage (UI speed0 density0 zoom0 zoomAuto0 true) None false None
       (close_both d0) []).

(** The page and its animation agree: nothing is current while an import is
    awaited, and the current animation holds the page's speed, density,
    zoom, auto-zoom and running flags. *)
Definition in_sync (pg : page) : Prop :=
  (isLoadingAnimation pg = true <-> importing pg <> None)
  /\ (isLoadingAnimation pg = true -> currentAnimation pg = None)
  /\ match currentAnimation pg with
     | Some a => a_knobs a = ui_knobs (state pg)
     | None => True
     end.

(** Every replaced animation is stopped: paused, with no frame request. *)
Definition stopped (a : animation) : Prop :=
  snd (a_knobs a) = false /\ a_rafId a = None.

(** At most one drawer is open, and the scrim is on exactly when one is. *)
Definition tidy (d : drawers) : Prop :=
  controls_open d && info_open d = false /\ scrim_on d = anyOpen d.

(** Wheel and key events. *)
Definition wheel_or_key (ev : event) : bool :=
  match ev with
  | Wheel _ _ | KeyDown _ => true
  | _ => false
  end.

End Host.

(** ** Runs *)


(** Successive applications of a per-frame function, oldest first. *)
Definition run {S X : Type} (f : X -> S -> S) (xs : list X) (s : S) : S :=
  fold_left (fun s x => f x s) xs s.


(** [setParams({ density: d })] *)
Definition only_density (d : number) : params number :=
  Params None (Some d) None None.

(** The orbit arrays are the layout of the current particle count (what
    every operation of the module maintains). *)
Definition orbit_canonical (e : Orbit.state) : Prop :=
  arrays (data e)
  = Orbit.orbit_layout (loop_count (N (data e))) (loop_count (N (data e))).

(** An orbit engine as created in an 800 x 600 window with density 0.05
    (24000 particles) and zoom 4, auto-zoom off, started at time 0. *)
Definition zoomed_orbit : Orbit.state :=
  Engine 800%Z 600%Z 1 0.05 4 false 0 true (Some 0%nat) 0 60
    (Points (Fin 0.05) (of_Z 24000)
       (Orbit.orbit_layout (Z.to_nat 24000) (Z.to_nat 24000)) 0)
    (fun _ => 0.5) 1%nat true [StatPoints (of_Z 24000); StatZoom 4].

(** ** Fire buffers *)

(** The value the diffusion loop writes at index [j] of a buffer whose cells
    from [j] on are those of [buf]. *)
Definition blur (gw : nat) (buf : list R) (j : nat) : R :=
  (nth j buf 0 + nth (j + 1) buf 0 + nth (j + gw) buf 0
   + nth (j + gw + 1) buf 0) * 0.25.

(** Every cell lies in [0, M] and the padding cells, from index [gs] on,
    are zero (as [rebuildGrid] makes them, and nothing writes them). *)
Definition within (gs : nat) (M : R) (buf : list R) : Prop :=
  (forall j, 0 <= nth j buf 0 <= M)
  /\ (forall j, (gs <= j)%nat -> nth j buf 0 = 0).

(** The draws of [Math.random()] lie in [0, 1). *)
Definition unit_draws (rnd : nat -> R) : Prop := forall i, 0 <= rnd i < 1.

(** The grid variables as [rebuildGrid] sets them. *)
Definition grid_ok (g : Fire.grid) : Prop :=
  (1 <= Fire.gridW g)%nat /\ (1 <= Fire.gridH g)%nat
  /\ Fire.gridSize g = (Fire.gridW g * Fire.gridH g)%nat
  /\ length (Fire.buffer g) = (Fire.gridSize g + Fire.gridW g + 1)%nat.

(** A 32 x 30 grid (an 800 x 600 window at density 0.3) that is dark but
    for one freshly seeded cell of the bottom row, in column 5. *)
Definition one_ember : list R := upd (5 + 32 * 29) 60 (repeat 0 (960 + 32 + 1)).

(** Frame times at least 0.1 ms apart, the first one counted from [start]
    (no frame length is raised to the floor of 0.0001 s). *)
Fixpoint spaced (start : R) (nows : list R) : Prop :=
  match nows with
  | [] => True
  | now :: rest => 0.1 <= now - start /\ spaced now rest
  end.

(** ** Calls of the fire module

    The functions of fireField.js that the page or the browser can invoke on
    a created engine, in any order. *)
Inductive fire_call : Type :=
| FireFitCanvas (innerWidth innerHeight devicePixelRatio : R)
| FireLoop (now : R)
| FirePlay (performance_now : R)
| FirePause
| FireReset
| FireSetParams (p : params R)
| FireDestroy.

Definition fire_apply (c : fire_call) (e : Fire.state) : Fire.state :=
  match c with
  | FireFitCanvas w h dpr => Fire.fitCanvas w h dpr e
  | FireLoop now => Fire.loop now e
  | FirePlay now => play now e
  | FirePause => pause e
  | FireReset => Fire.reset e
  | FireSetParams p => Fire.setParams p e
  | FireDestroy => Fire.destroy e
  end.

(** What every call keeps of a fire engine: a well-formed grid of at least
    24 x 18 cells, all within [0, 65], and draws within [0, 1). *)
Definition fire_steady (e : Fire.state) : Prop :=
  grid_ok (data e)
  /\ (24 <= Fire.gridW (data e))%nat /\ (18 <= Fire.gridH (data e))%nat
  /\ within (Fire.gridSize (data e)) 65 (Fire.buffer (data e))
  /\ unit_draws (random e).

(** ** Layout ranges *)

(** Every base point of the arrays lies inside the unit disc (the elements
    a layout loop has not written are zero). *)
Definition in_unit_disc (a : xy) : Prop :=
  forall j,
    nth j (xVals a) 0 * nth j (xVals a) 0
    + nth j (yVals a) 0 * nth j (yVals a) 0 < 1.


(** ** Sample engines

    Engines as the first [fitCanvas()] has them once it has measured an
    800 x 600 window and before it rebuilds the field: no particle yet, not
    running, with a callback and a constant stream of draws. *)

Definition blank {A : Type} (a : A) (density : number) (spd : R)
    : engine (points A) :=
  Engine 800%Z 600%Z 1 spd 1 false 0 false None 0 60
    (Points density (of_nat 0) a 0) (fun _ => 0.5) 0%nat true [].

Definition blank_template : PointField.state templateField :=
  blank (XY [] []) (Fin 0.005) 0.5.

Definition blank_orbit : Orbit.state := blank (XY [] []) (Fin 0.005) 0.05.

(** The same at a lower density and a higher speed; its clamped count is
    6000 too. *)
Definition sparse_orbit : Orbit.state := blank (XY [] []) (Fin 0.001) 1.

(** The double nearest to 0.013, and the template engine at that
    density. *)
Definition density_013 : R := IZR 7493989779944505 / 2 ^ 59.

Definition rounded_template : PointField.state templateField :=
  blank (XY [] []) (Fin density_013) 0.5.

(** A template engine whose canvas is 1000 wide and 0 high, at the density
    [2^1023] (a double, about 9e307). *)
Definition collapsed_template : PointField.state templateField :=
  set_viewport 1000 0 1 (blank (XY [] []) (Fin (bpow 1023)) 0.5).

(** * Properties *)

(** Projections of assignments, without touching the numbers. *)
Ltac engine_simpl :=
  cbn [W H DPR speed zoom zoomAuto zoomPhase running rafId last fpsEMA data
       random raf_next onStats stats
       set_viewport set_speed set_zoom set_zoomAuto set_zoomPhase set_running
       set_rafId set_last set_fpsEMA set_data consume emit request_frame
       baseDensity N arrays t
       PointField.set_t PointField.set_baseDensity PointField.set_field
       Orbit.set_t Orbit.set_baseDensity Orbit.set_field
       Fire.set_baseDensity Fire.set_buffer
       Fire.baseDensity Fire.gridW Fire.gridH Fire.gridSize Fire.buffer
       blank negb andb fst snd].

(** ** Numbers *)

Lemma PI_bounds : 3 < PI < 3.47.
Proof.
  split.
  - pose proof PI2_3_2. lra.
  - pose proof (PI_ineq 1) as [_ Hup].
    unfold sum_f_R0, tg_alt, PI_tg in Hup. cbn in Hup. lra.
Qed.

Lemma Int_part_IZR (z : Z) : Int_part (IZR z) = z.
Proof. symmetry; apply Int_part_spec; lra. Qed.

Lemma Rmax_IZR (a b : Z) : Rmax (IZR a) (IZR b) = IZR (Z.max a b).
Proof.
  destruct (Z.le_ge_cases a b) as [Hab|Hab].
  - rewrite Z.max_r by assumption. apply Rmax_right. now apply IZR_le.
  - rewrite Z.max_l by assumption. apply Rmax_left. now apply IZR_le.
Qed.

Lemma Rmin_IZR (a b : Z) : Rmin (IZR a) (IZR b) = IZR (Z.min a b).
Proof.
  destruct (Z.le_ge_cases a b) as [Hab|Hab].
  - rewrite Z.min_l by assumption. apply Rmin_left. now apply IZR_le.
  - rewrite Z.min_r by assumption. apply Rmin_right. now apply IZR_le.
Qed.

Lemma strict_eqb_true (a b : number) :
  strict_eqb a b = true <-> a <> NaN /\ a = b.
Proof.
  unfold strict_eqb. destruct (strict_eq_dec a b) as [E|E]; unfold strict_eq in *.
  - tauto.
  - split; [discriminate | tauto].
Qed.

Lemma strict_eqb_refl_Fin (r : R) : strict_eqb (Fin r) (Fin r) = true.
Proof. apply strict_eqb_true. split; [discriminate | reflexivity]. Qed.

Lemma Float32Array_length_of_Z (z : Z) :
  (0 <= z)%Z -> Float32Array_length (of_Z z) = Some (Z.to_nat z).
Proof.
  intros Hz. unfold Float32Array_length, of_Z.
  destruct (Rle_dec 0 (IZR z)) as [_|Hn].
  - now rewrite Int_part_IZR.
  - exfalso; apply Hn. now apply IZR_le.
Qed.

Lemma loop_count_of_Z (z : Z) : loop_count (of_Z z) = Z.to_nat z.
Proof. unfold loop_count, of_Z. now rewrite Int_part_IZR. Qed.

Lemma Int_part_le (x y : R) : x <= y -> (Int_part x <= Int_part y)%Z.
Proof.
  intros Hxy.
  destruct (base_Int_part x) as [Hx _]. destruct (base_Int_part y) as [_ Hy].
  assert (Hlt : IZR (Int_part x) < IZR (Int_part y + 1)).
  { rewrite plus_IZR. lra. }
  apply lt_IZR in Hlt. lia.
Qed.

Lemma Int_part_eq (n : Z) (x : R) :
  IZR n <= x < IZR n + 1 -> Int_part x = n.
Proof. intros Hx. symmetry. apply Int_part_spec. lra. Qed.

(** *** Binary64 rounding *)

(** Powers of two with literal exponents, written [2 ^ n] and [/ 2 ^ n]
    for [lra]. *)
Ltac bpow_num :=
  unfold overflow_threshold, bpow, powerRZ;
  repeat match goal with
         | |- context [Pos.to_nat ?p] =>
           let n := eval vm_compute in (Pos.to_nat p) in
           change (Pos.to_nat p) with n
         | H : context [Pos.to_nat ?p] |- _ =>
           let n := eval vm_compute in (Pos.to_nat p) in
           change (Pos.to_nat p) with n in H
         end.

Lemma bpow_pos (e : Z) : 0 < bpow e.
Proof. apply powerRZ_lt. lra. Qed.

Lemma bpow_add (a b : Z) : bpow (a + b) = bpow a * bpow b.
Proof. apply powerRZ_add. lra. Qed.

Lemma bpow_opp (a : Z) : bpow (- a) = / bpow a.
Proof. apply powerRZ_neg'. Qed.

Lemma ln2_pos : 0 < ln 2.
Proof. rewrite <- ln_1. apply ln_increasing; lra. Qed.

Lemma bpow_exp (e : Z) : bpow e = exp (IZR e * ln 2).
Proof. unfold bpow. rewrite powerRZ_Rpower by lra. reflexivity. Qed.

Lemma exp_le (a b : R) : a <= b -> exp a <= exp b.
Proof.
  intros [Hlt| ->]; [left; now apply exp_increasing|right; reflexivity].
Qed.

Lemma bpow_le (a b : Z) : (a <= b)%Z -> bpow a <= bpow b.
Proof.
  intros Hab. rewrite !bpow_exp. apply exp_le.
  apply IZR_le in Hab. pose proof ln2_pos. nra.
Qed.

Lemma bpow_lt (a b : Z) : (a < b)%Z -> bpow a < bpow b.
Proof.
  intros Hab. rewrite !bpow_exp. apply exp_increasing.
  apply IZR_lt in Hab. pose proof ln2_pos. nra.
Qed.

Lemma bpow_lt_inv (a b : Z) : bpow a < bpow b -> (a < b)%Z.
Proof.
  intros Hab. destruct (Z_lt_le_dec a b) as [Hl|Hg]; [exact Hl|].
  apply bpow_le in Hg. lra.
Qed.

(** An integer power of two above 2^0 is an integer. *)
Lemma bpow_IZR (k : Z) : (0 <= k)%Z -> bpow k = IZR (2 ^ k).
Proof.
  intros Hk. unfold bpow. destruct k as [|p|p]; [reflexivity| |lia].
  change (2 ^ Z.pos p)%Z with (Z.pow_pos 2 p).
  now rewrite Zpower_pos_powerRZ.
Qed.

Lemma magnitude_bound (x : R) :
  x <> 0 -> bpow (magnitude x) <= Rabs x < bpow (magnitude x + 1).
Proof.
  intros Hx. assert (Ha : 0 < Rabs x) by now apply Rabs_pos_lt.
  pose proof ln2_pos as H2. unfold magnitude.
  destruct (base_Int_part (ln (Rabs x) / ln 2)) as [H1 H3].
  set (k := Int_part (ln (Rabs x) / ln 2)) in *.
  assert (Hq : ln (Rabs x) / ln 2 * ln 2 = ln (Rabs x)) by (field; lra).
  rewrite !bpow_exp, plus_IZR. rewrite <- (exp_ln (Rabs x) Ha) at 1 2.
  split; [apply exp_le|apply exp_increasing]; nra.
Qed.

Lemma magnitude_spec (x : R) (k : Z) :
  bpow k <= Rabs x < bpow (k + 1) -> magnitude x = k.
Proof.
  intros [H1 H2].
  assert (Hx : x <> 0).
  { intros ->. rewrite Rabs_R0 in H1. pose proof (bpow_pos k). lra. }
  destruct (magnitude_bound x Hx) as [M1 M2].
  assert (A : (k < magnitude x + 1)%Z) by (apply bpow_lt_inv; lra).
  assert (B : (magnitude x < k + 1)%Z) by (apply bpow_lt_inv; lra).
  lia.
Qed.

Lemma nearest_even_spec (y : R) : Rabs (IZR (nearest_even y) - y) <= 1 / 2.
Proof.
  unfold nearest_even. destruct (base_Int_part y) as [H1 H2].
  set (f := Int_part y) in *.
  destruct (Rlt_dec (y - IZR f) (1 / 2)) as [Hl|Hl].
  - apply Rabs_le. lra.
  - destruct (Rlt_dec (1 / 2) (y - IZR f)) as [Hg|Hg].
    + rewrite plus_IZR. apply Rabs_le. lra.
    + destruct (Z.even f); [|rewrite plus_IZR]; apply Rabs_le; lra.
Qed.

Lemma nearest_even_IZR (z : Z) : nearest_even (IZR z) = z.
Proof.
  unfold nearest_even.
  assert (E : Int_part (IZR z) = z).
  { symmetry. apply Int_part_spec. lra. }
  rewrite E. destruct (Rlt_dec (IZR z - IZR z) (1 / 2)); [reflexivity|lra].
Qed.

Lemma nearest_even_le (y : R) (M : Z) :
  y <= IZR M -> (nearest_even y <= M)%Z.
Proof.
  intros Hy. unfold nearest_even. destruct (base_Int_part y) as [H1 H2].
  set (f := Int_part y) in *.
  assert (Hf : (f <= M)%Z) by (apply le_IZR; lra).
  assert (Hhalf : ~ y - IZR f < 1 / 2 -> (f + 1 <= M)%Z).
  { intros Hn. assert (Hfm : IZR f < IZR M) by lra.
    apply lt_IZR in Hfm. lia. }
  destruct (Rlt_dec (y - IZR f) (1 / 2)) as [Hl|Hl]; [exact Hf|].
  destruct (Rlt_dec (1 / 2) (y - IZR f)); [now apply Hhalf|].
  destruct (Z.even f); [exact Hf|now apply Hhalf].
Qed.

Lemma nearest_even_ge (y : R) (M : Z) :
  IZR M <= y -> (M <= nearest_even y)%Z.
Proof.
  intros Hy. unfold nearest_even. destruct (base_Int_part y) as [H1 H2].
  set (f := Int_part y) in *.
  assert (Hf : (M <= f)%Z).
  { assert (Hmf : IZR M < IZR (f + 1)) by (rewrite plus_IZR; lra).
    apply lt_IZR in Hmf. lia. }
  destruct (Rlt_dec (y - IZR f) (1 / 2)); [exact Hf|].
  destruct (Rlt_dec (1 / 2) (y - IZR f)); [lia|].
  destruct (Z.even f); lia.
Qed.

Lemma threshold_large : bpow 53 < overflow_threshold.
Proof. bpow_num. lra. Qed.

(** The exponent of the last place of a number below 2^53 is at most 0. *)
Lemma last_place_small (x : R) :
  x <> 0 -> Rabs x < bpow 53 ->
  (Z.max (magnitude x - 52) (-1074) <= 0)%Z.
Proof.
  intros Hx Hb. destruct (magnitude_bound x Hx) as [M1 _].
  assert (magnitude x < 53)%Z by (apply bpow_lt_inv; lra).
  lia.
Qed.

(** Rounding keeps a number between two integers that are doubles. *)
Lemma round64_between (a b : Z) (x : R) :
  (- 2 ^ 53 < a)%Z -> (b < 2 ^ 53)%Z -> IZR a <= x <= IZR b ->
  exists r, round64 x = Fin r /\ IZR a <= r <= IZR b.
Proof.
  intros Ha Hb [Hax Hxb]. unfold round64.
  destruct (Req_dec_T x 0) as [->|Hx]; [exists 0; split; [reflexivity|lra]|].
  assert (Hlt : Rabs x < bpow 53).
  { rewrite (bpow_IZR 53) by lia. apply IZR_lt in Ha, Hb.
    rewrite opp_IZR in Ha. apply Rabs_def1; lra. }
  pose proof threshold_large as Ht.
  destruct (Rle_dec overflow_threshold (Rabs x)) as [Ho|_]; [lra|].
  pose proof (last_place_small x Hx Hlt) as He.
  set (e := Z.max (magnitude x - 52) (-1074)) in *.
  eexists. split; [reflexivity|].
  assert (Hk : bpow (- e) = IZR (2 ^ (- e))) by (apply bpow_IZR; lia).
  assert (Hinv : x / bpow e = x * IZR (2 ^ (- e))).
  { rewrite <- Hk, bpow_opp. reflexivity. }
  assert (Hone : IZR (2 ^ (- e)) * bpow e = 1).
  { rewrite <- Hk, bpow_opp. field. pose proof (bpow_pos e). lra. }
  assert (Hp : 0 < IZR (2 ^ (- e))) by (rewrite <- Hk; apply bpow_pos).
  pose proof (bpow_pos e) as Hpe.
  rewrite Hinv. split.
  - assert (H1 : (a * 2 ^ (- e) <= nearest_even (x * IZR (2 ^ (- e))))%Z).
    { apply nearest_even_ge. rewrite mult_IZR. nra. }
    apply IZR_le in H1. rewrite mult_IZR in H1.
    replace (IZR a) with (IZR a * IZR (2 ^ (- e)) * bpow e)
      by (rewrite Rmult_assoc, Hone; ring).
    apply Rmult_le_compat_r; lra.
  - assert (H1 : (nearest_even (x * IZR (2 ^ (- e))) <= b * 2 ^ (- e))%Z).
    { apply nearest_even_le. rewrite mult_IZR. nra. }
    apply IZR_le in H1. rewrite mult_IZR in H1.
    replace (IZR b) with (IZR b * IZR (2 ^ (- e)) * bpow e)
      by (rewrite Rmult_assoc, Hone; ring).
    apply Rmult_le_compat_r; lra.
Qed.

Lemma round64_IZR (n : Z) :
  (- 2 ^ 53 < n < 2 ^ 53)%Z -> round64 (IZR n) = Fin (IZR n).
Proof.
  intros [H1 H2].
  destruct (round64_between n n (IZR n) H1 H2) as (r & E & Hr); [lra|].
  rewrite E. f_equal. lra.
Qed.

(** Rounding keeps the sign, and only overflows away from zero. *)
Lemma round64_nonpos (x : R) :
  x <= 0 ->
  (round64 x = NegInf /\ overflow_threshold <= - x)
  \/ (exists r, round64 x = Fin r /\ r <= 0 /\ - x < overflow_threshold).
Proof.
  intros Hx. unfold round64.
  assert (Ht : 0 < overflow_threshold) by (bpow_num; lra).
  destruct (Req_dec_T x 0) as [->|Hn].
  { right. exists 0. split; [reflexivity|]. split; lra. }
  rewrite (Rabs_left x) by lra.
  destruct (Rle_dec overflow_threshold (- x)) as [Ho|Ho].
  - left. destruct (Rlt_dec 0 x); [lra|]. now split.
  - right. eexists. split; [reflexivity|]. split; [|lra].
    set (e := Z.max (magnitude x - 52) (-1074)).
    pose proof (bpow_pos e) as Hpe.
    assert (H1 : (nearest_even (x / bpow e) <= 0)%Z).
    { apply nearest_even_le. unfold Rdiv.
      assert (0 < / bpow e) by now apply Rinv_0_lt_compat. nra. }
    apply IZR_le in H1. nra.
Qed.

Lemma round64_nonneg (x : R) :
  0 <= x ->
  (round64 x = PosInf /\ overflow_threshold <= x)
  \/ (exists r, round64 x = Fin r /\ 0 <= r /\ x < overflow_threshold).
Proof.
  intros Hx. unfold round64.
  assert (Ht : 0 < overflow_threshold) by (bpow_num; lra).
  destruct (Req_dec_T x 0) as [->|Hn].
  { right. exists 0. split; [reflexivity|]. split; lra. }
  rewrite (Rabs_right x) by lra.
  destruct (Rle_dec overflow_threshold x) as [Ho|Ho].
  - left. destruct (Rlt_dec 0 x); [|lra]. now split.
  - right. eexists. split; [reflexivity|]. split; [|lra].
    set (e := Z.max (magnitude x - 52) (-1074)).
    pose proof (bpow_pos e) as Hpe.
    assert (H1 : (0 <= nearest_even (x / bpow e))%Z).
    { apply nearest_even_ge. unfold Rdiv.
      assert (0 < / bpow e) by now apply Rinv_0_lt_compat. nra. }
    apply IZR_le in H1. nra.
Qed.

Lemma round64_finite (x : R) :
  Rabs x < overflow_threshold -> exists r, round64 x = Fin r.
Proof.
  intros Hx. unfold round64.
  destruct (Req_dec_T x 0); [eauto|].
  destruct (Rle_dec overflow_threshold (Rabs x)); [lra|eauto].
Qed.

(** The rounding error: half a unit in the last place. *)
Lemma round64_error (x r : R) :
  round64 x = Fin r ->
  Rabs (r - x) <= bpow (- 53) * Rabs x + bpow (- 1075).
Proof.
  unfold round64.
  pose proof (bpow_pos (-53)) as P53. pose proof (bpow_pos (-1075)) as P1075.
  pose proof (Rabs_pos x) as Hax.
  destruct (Req_dec_T x 0) as [->|Hx].
  { intros [= <-]. replace (0 - 0) with 0 by ring. rewrite Rabs_R0. nra. }
  destruct (Rle_dec overflow_threshold (Rabs x));
    [destruct (Rlt_dec 0 x); discriminate|].
  intros [= <-].
  destruct (magnitude_bound x Hx) as [M1 _].
  set (e := Z.max (magnitude x - 52) (-1074)).
  pose proof (bpow_pos e) as Hpe.
  pose proof (nearest_even_spec (x / bpow e)) as Hn.
  set (m := IZR (nearest_even (x / bpow e))) in *.
  assert (E : m * bpow e - x = (m - x / bpow e) * bpow e) by (field; lra).
  rewrite E, Rabs_mult, (Rabs_right (bpow e)) by lra.
  assert (Hhalf : Rabs (m - x / bpow e) * bpow e <= bpow e / 2) by nra.
  assert (He : bpow e / 2 <= bpow (- 53) * Rabs x + bpow (- 1075)).
  { destruct (Z.max_spec (magnitude x - 52) (-1074)) as [[_ E1]|[_ E1]];
      fold e in E1; rewrite E1.
    - replace (-1074)%Z with (- 1075 + 1)%Z by lia.
      rewrite bpow_add. change (bpow 1) with (2 * 1). nra.
    - replace (magnitude x - 52)%Z with (magnitude x + (- 53 + 1))%Z by lia.
      rewrite !bpow_add. change (bpow 1) with (2 * 1).
      assert (0 <= bpow (-53) * (Rabs x - bpow (magnitude x))) by nra.
      nra. }
  lra.
Qed.

Lemma round64_not_NaN (x : R) : round64 x <> NaN.
Proof.
  unfold round64. destruct (Req_dec_T x 0); [discriminate|].
  destruct (Rle_dec overflow_threshold (Rabs x)); [|discriminate].
  destruct (Rlt_dec 0 x); discriminate.
Qed.

(** Below the threshold the rounding is finite, from it on it is not. *)
Lemma round64_overflow (x : R) :
  overflow_threshold <= Rabs x ->
  x <> 0 /\ round64 x = (if Rlt_dec 0 x then PosInf else NegInf).
Proof.
  intros Hx. assert (Ht : 0 < overflow_threshold) by (bpow_num; lra).
  assert (Hn : x <> 0) by (intros ->; rewrite Rabs_R0 in Hx; lra).
  split; [exact Hn|]. unfold round64.
  destruct (Req_dec_T x 0); [contradiction|].
  destruct (Rle_dec overflow_threshold (Rabs x)); [reflexivity|lra].
Qed.

(** *** The product [baseDensity * W * H] *)

Lemma mul_Fin (x y : R) : mul (Fin x) (Fin y) = round64 (x * y).
Proof. reflexivity. Qed.

Lemma mul_PosInf_of_Z (h : Z) :
  mul PosInf (of_Z h)
  = if (0 <? h)%Z then PosInf else if (h <? 0)%Z then NegInf else NaN.
Proof.
  unfold of_Z. cbn [mul].
  destruct (Z.ltb_spec 0 h) as [Hh|Hh].
  - apply IZR_lt in Hh. destruct (Rlt_dec 0 (IZR h)); [reflexivity|lra].
  - apply IZR_le in Hh. destruct (Rlt_dec 0 (IZR h)); [lra|].
    destruct (Z.ltb_spec h 0) as [Hl|Hl].
    + apply IZR_lt in Hl. destruct (Rlt_dec (IZR h) 0); [reflexivity|lra].
    + apply IZR_le in Hl. destruct (Rlt_dec (IZR h) 0); [lra|reflexivity].
Qed.

Lemma mul_NegInf_of_Z (h : Z) :
  mul NegInf (of_Z h)
  = if (0 <? h)%Z then NegInf else if (h <? 0)%Z then PosInf else NaN.
Proof.
  unfold of_Z. cbn [mul].
  destruct (Z.ltb_spec 0 h) as [Hh|Hh].
  - apply IZR_lt in Hh. destruct (Rlt_dec 0 (IZR h)); [reflexivity|lra].
  - apply IZR_le in Hh. destruct (Rlt_dec 0 (IZR h)); [lra|].
    destruct (Z.ltb_spec h 0) as [Hl|Hl].
    + apply IZR_lt in Hl. destruct (Rlt_dec (IZR h) 0); [reflexivity|lra].
    + apply IZR_le in Hl. destruct (Rlt_dec (IZR h) 0); [lra|reflexivity].
Qed.

(** The product is [NaN] in one case only: [d * w] overflows and [h] is 0
    ([Infinity * 0]). *)
Lemma product_NaN (d : R) (w h : Z) :
  mul (mul (Fin d) (of_Z w)) (of_Z h) = NaN
  <-> overflow_threshold <= Rabs (d * IZR w) /\ h = 0%Z.
Proof.
  unfold of_Z at 1. rewrite mul_Fin.
  destruct (Rle_dec overflow_threshold (Rabs (d * IZR w))) as [Ho|Ho].
  - destruct (round64_overflow _ Ho) as [_ ->].
    destruct (Rlt_dec 0 (d * IZR w));
      rewrite ?mul_PosInf_of_Z, ?mul_NegInf_of_Z;
      destruct (Z.ltb_spec 0 h); destruct (Z.ltb_spec h 0);
      (split; [intros E|intros [_ E]]);
      try discriminate; try reflexivity; try lia;
      (split; [exact Ho|lia]).
  - destruct (round64_finite (d * IZR w)) as [r ->]; [lra|].
    unfold of_Z. rewrite mul_Fin. split.
    + intros E. now apply round64_not_NaN in E.
    + intros [E _]. lra.
Qed.

(** When [d * w] is an integer the product is exact, below [2^53]. *)
Lemma product_exact (d : R) (w h a : Z) :
  d * IZR w = IZR a ->
  (- 2 ^ 53 < a < 2 ^ 53)%Z -> (- 2 ^ 53 < a * h < 2 ^ 53)%Z ->
  mul (mul (Fin d) (of_Z w)) (of_Z h) = of_Z (a * h).
Proof.
  intros E Ha Hah. unfold of_Z.
  rewrite mul_Fin, E, round64_IZR by exact Ha.
  now rewrite mul_Fin, <- mult_IZR, round64_IZR.
Qed.

(** Rounding does not take the product out of an interval of integers. *)
Lemma product_between (d : R) (w h A : Z) :
  0 <= d * IZR w <= IZR A -> (0 <= h)%Z ->
  (A < 2 ^ 53)%Z -> (A * h < 2 ^ 53)%Z ->
  exists r,
    mul (mul (Fin d) (of_Z w)) (of_Z h) = Fin r /\ 0 <= r <= IZR (A * h).
Proof.
  intros Hd Hh HA HAh. unfold of_Z.
  destruct (round64_between 0 A (d * IZR w)) as (r1 & E1 & H1);
    [lia|exact HA|exact Hd|].
  rewrite mul_Fin, E1, mul_Fin.
  apply IZR_le in Hh.
  destruct (round64_between 0 (A * h) (r1 * IZR h)) as (r & E & Hr);
    [lia|exact HAh| |].
  - rewrite mult_IZR. nra.
  - exists r. split; [exact E|]. exact Hr.
Qed.

(** A density at most 0 on a viewport gives a product at most 0, or
    [-Infinity]. *)
Lemma product_nonpos (d : R) (w h : Z) :
  d <= 0 -> (0 <= w)%Z -> (0 <= h)%Z ->
  (0 < h)%Z \/ Rabs (d * IZR w) < overflow_threshold ->
  mul (mul (Fin d) (of_Z w)) (of_Z h) = NegInf
  \/ exists r, mul (mul (Fin d) (of_Z w)) (of_Z h) = Fin r /\ r <= 0.
Proof.
  intros Hd Hw Hh Hc. apply IZR_le in Hw. pose proof (IZR_le _ _ Hh) as HhR.
  assert (Hx : d * IZR w <= 0) by nra.
  unfold of_Z at 1 3. rewrite !mul_Fin.
  destruct (round64_nonpos _ Hx) as [[-> Ho]|(r1 & -> & Hr1 & _)].
  - left. rewrite mul_NegInf_of_Z.
    destruct Hc as [Hc|Hc].
    + destruct (Z.ltb_spec 0 h); [reflexivity|lia].
    + rewrite Rabs_left1 in Hc by exact Hx. lra.
  - unfold of_Z. rewrite mul_Fin.
    assert (Hy : r1 * IZR h <= 0) by nra.
    destruct (round64_nonpos _ Hy) as [[-> _]|(r & -> & Hr & _)].
    + now left.
    + right. exists r. now split.
Qed.

(** The two roundings move the product by a relative [2^-51] at most (and
    by nothing worth a unit among the subnormal numbers). *)
Lemma product_error (d : R) (w h : Z) (r : R) :
  mul (mul (Fin d) (of_Z w)) (of_Z h) = Fin r ->
  Rabs (r - d * IZR w * IZR h)
  <= bpow (- 51) * Rabs (d * IZR w * IZR h)
     + bpow (- 1074) * (1 + Rabs (IZR h)).
Proof.
  unfold of_Z at 1. rewrite mul_Fin.
  destruct (round64 (d * IZR w)) as [| | |r1] eqn:E1.
  - discriminate.
  - rewrite mul_PosInf_of_Z. destruct (0 <? h)%Z; [discriminate|].
    destruct (h <? 0)%Z; discriminate.
  - rewrite mul_NegInf_of_Z. destruct (0 <? h)%Z; [discriminate|].
    destruct (h <? 0)%Z; discriminate.
  - unfold of_Z. rewrite mul_Fin. intros E.
    pose proof (round64_error _ _ E1) as B1.
    pose proof (round64_error _ _ E) as B2.
    set (x := d * IZR w) in *. set (k := IZR h) in *.
    pose proof (Rabs_pos x) as Px. pose proof (Rabs_pos k) as Pk.
    assert (U : bpow (- 51) = 4 * bpow (- 53)).
    { replace (-51)%Z with (2 + - 53)%Z by lia. rewrite bpow_add.
      change (bpow 2) with (2 * (2 * 1)). ring. }
    assert (V : bpow (- 1074) = 2 * bpow (- 1075)).
    { replace (-1074)%Z with (1 + - 1075)%Z by lia. rewrite bpow_add.
      change (bpow 1) with (2 * 1). ring. }
    assert (S53 : bpow (- 53) <= 1 / 2) by (bpow_num; lra).
    pose proof (bpow_pos (- 53)) as P53.
    pose proof (bpow_pos (- 1075)) as P1075.
    rewrite U, V, Rabs_mult. fold k.
    assert (T : Rabs (r - x * k) <= Rabs (r - r1 * k) + Rabs (r1 - x) * Rabs k).
    { rewrite <- Rabs_mult.
      replace (r - x * k) with ((r - r1 * k) + (r1 - x) * k) by ring.
      apply Rabs_triang. }
    assert (Q : Rabs (r1 * k) <= Rabs x * Rabs k + Rabs (r1 - x) * Rabs k).
    { rewrite <- !Rabs_mult.
      replace (r1 * k) with (x * k + (r1 - x) * k) by ring.
      apply Rabs_triang. }
    pose proof (Rabs_pos (r1 - x)) as P1.
    pose proof (Rabs_pos (r - r1 * k)) as P2.
    set (ex := Rabs (r1 - x)) in *. set (ax := Rabs x) in *.
    set (ak := Rabs k) in *. set (u := bpow (- 53)) in *.
    set (n := bpow (- 1075)) in *.
    assert (B3 : ex * ak <= u * ax * ak + n * ak) by nra.
    assert (B4 : Rabs (r - r1 * k)
                 <= u * (ax * ak + (u * ax * ak + n * ak)) + n) by nra.
    assert (Pp : 0 <= ax * ak) by nra.
    assert (Pn : 0 <= n * ak) by nra.
    assert (Pq : 0 <= u * ax * ak) by (rewrite Rmult_assoc; nra).
    pose proof (Rmult_le_compat_r _ u 1 Pq ltac:(lra)) as B5.
    pose proof (Rmult_le_compat_r _ u 1 Pn ltac:(lra)) as B6.
    lra.
Qed.

(** *** Rounding a given number *)

Lemma nearest_even_near (y : R) (n : Z) :
  Rabs (y - IZR n) < 1 / 2 -> nearest_even y = n.
Proof.
  intros Hy. apply Rabs_def2 in Hy as [H1 H2]. unfold nearest_even.
  destruct (Rle_dec (IZR n) y) as [Hn|Hn].
  - rewrite (Int_part_eq n) by lra.
    destruct (Rlt_dec (y - IZR n) (1 / 2)); [reflexivity|lra].
  - rewrite (Int_part_eq (n - 1)) by (rewrite minus_IZR; lra).
    rewrite minus_IZR.
    destruct (Rlt_dec (y - (IZR n - 1)) (1 / 2)); [lra|].
    destruct (Rlt_dec (1 / 2) (y - (IZR n - 1))); [lia|lra].
Qed.

(** A normal number of the binade [2^m] that is nearer to [n * 2^(m - 52)]
    than to any other multiple of [2^(m - 52)] is rounded to it. *)
Lemma round64_near (x : R) (m n : Z) :
  bpow m <= Rabs x < bpow (m + 1) -> (- 1022 <= m < 1024)%Z ->
  Rabs (x / bpow (m - 52) - IZR n) < 1 / 2 ->
  Rabs x < overflow_threshold ->
  round64 x = Fin (IZR n * bpow (m - 52)).
Proof.
  intros Hm Hr Hn Ho. unfold round64.
  assert (Hx : x <> 0).
  { intros ->. rewrite Rabs_R0 in Hm. pose proof (bpow_pos m). lra. }
  destruct (Req_dec_T x 0); [contradiction|].
  destruct (Rle_dec overflow_threshold (Rabs x)); [lra|].
  rewrite (magnitude_spec x m Hm), Z.max_l by lia.
  now rewrite (nearest_even_near _ n Hn).
Qed.

(** Powers of two with closed exponents, as numerals. *)
Ltac bpow_calc :=
  repeat match goal with
         | |- context [bpow ?e] =>
           let e' := eval vm_compute in e in
           progress change (bpow e) with (bpow e')
         end;
  bpow_num.

(** *** The clamp *)

Lemma clamp_bounds (x lo hi : Z) :
  (lo <= hi)%Z -> (lo <= clamp x lo hi <= hi)%Z.
Proof. unfold clamp; lia. Qed.

Lemma clamp_inside (x lo hi : Z) :
  (lo <= x <= hi)%Z -> clamp x lo hi = x.
Proof. unfold clamp; lia. Qed.

(** The clamp on any number: [NaN] goes through, the infinities are cut to
    the bounds. *)
Lemma clamp_number (lo hi : Z) (x : number) :
  (lo <= hi)%Z ->
  Math_min (of_Z hi) (Math_max (of_Z lo) (Math_floor x))
  = match x with
    | NaN => NaN
    | PosInf => of_Z hi
    | NegInf => of_Z lo
    | Fin r => of_Z (clamp (Int_part r) lo hi)
    end.
Proof.
  intros Hlh. destruct x as [| | |r]; try reflexivity.
  - unfold of_Z. cbn [Math_floor Math_max Math_min].
    rewrite Rmin_IZR. now rewrite Z.min_r.
  - unfold of_Z, clamp. cbn [Math_floor Math_max Math_min of_Z].
    now rewrite Rmax_IZR, Rmin_IZR.
Qed.

Lemma clamp_number_shape (lo hi : Z) (x : number) :
  (0 <= lo <= hi)%Z ->
  let c := Math_min (of_Z hi) (Math_max (of_Z lo) (Math_floor x)) in
  (x = NaN /\ c = NaN)
  \/ (x <> NaN /\ exists n, (lo <= n <= hi)%Z /\ c = of_Z n).
Proof.
  intros Hlh. cbn zeta. rewrite clamp_number by lia.
  destruct x as [| | |r].
  - left. split; reflexivity.
  - right. split; [discriminate|]. exists hi. split; [lia|reflexivity].
  - right. split; [discriminate|]. exists lo. split; [lia|reflexivity].
  - right. split; [discriminate|]. eexists. split; [|reflexivity].
    apply clamp_bounds. lia.
Qed.

Lemma Float32Array_length_clamped (lo hi : Z) (x : number) :
  (0 <= lo <= hi)%Z ->
  exists len,
    Float32Array_length
      (Math_min (of_Z hi) (Math_max (of_Z lo) (Math_floor x))) = Some len.
Proof.
  intros Hlh.
  destruct (clamp_number_shape lo hi x Hlh) as [[_ ->]|[_ (n & Hn & ->)]].
  - now exists 0%nat.
  - exists (Z.to_nat n). apply Float32Array_length_of_Z. lia.
Qed.

(** The clamp of a product that is exact. *)
Lemma clamp_exact (lo hi : Z) (d : R) (w h a : Z) :
  (lo <= hi)%Z -> d * IZR w = IZR a ->
  (- 2 ^ 53 < a < 2 ^ 53)%Z -> (- 2 ^ 53 < a * h < 2 ^ 53)%Z ->
  Math_min (of_Z hi)
    (Math_max (of_Z lo) (Math_floor (mul (mul (Fin d) (of_Z w)) (of_Z h))))
  = of_Z (clamp (a * h) lo hi).
Proof.
  intros Hlh E Ha Hah. rewrite (product_exact d w h a E Ha Hah).
  rewrite clamp_number by exact Hlh. unfold of_Z. now rewrite Int_part_IZR.
Qed.

(** The clamp of a product that stays under the lower bound. *)
Lemma clamp_low (lo hi : Z) (d : R) (w h A : Z) :
  (lo <= hi)%Z -> 0 <= d * IZR w <= IZR A -> (0 <= h)%Z ->
  (A < 2 ^ 53)%Z -> (A * h < 2 ^ 53)%Z -> (A * h <= lo)%Z ->
  Math_min (of_Z hi)
    (Math_max (of_Z lo) (Math_floor (mul (mul (Fin d) (of_Z w)) (of_Z h))))
  = of_Z lo.
Proof.
  intros Hlh Hd Hh HA HAh Hlo.
  destruct (product_between d w h A Hd Hh HA HAh) as (r & -> & _ & Hr).
  rewrite clamp_number by exact Hlh. f_equal.
  apply Int_part_le in Hr. rewrite Int_part_IZR in Hr. unfold clamp. lia.
Qed.

(** The clamp of a product that is at most 0. *)
Lemma clamp_nonpos (lo hi : Z) (d : R) (w h : Z) :
  (0 <= lo <= hi)%Z -> d <= 0 -> (0 <= w)%Z -> (0 <= h)%Z ->
  (0 < h)%Z \/ Rabs (d * IZR w) < overflow_threshold ->
  Math_min (of_Z hi)
    (Math_max (of_Z lo) (Math_floor (mul (mul (Fin d) (of_Z w)) (of_Z h))))
  = of_Z lo.
Proof.
  intros Hlh Hd Hw Hh Hc.
  destruct (product_nonpos d w h Hd Hw Hh Hc) as [->|(r & -> & Hr)];
    rewrite clamp_number by lia; [reflexivity|].
  f_equal. apply Int_part_le in Hr.
  change 0 with (IZR 0) in Hr. rewrite Int_part_IZR in Hr. unfold clamp. lia.
Qed.

Lemma Int_part_succ (x : R) : Int_part (x + 1) = (Int_part x + 1)%Z.
Proof.
  destruct (base_Int_part x) as [H1 H2].
  apply Int_part_eq. rewrite plus_IZR. lra.
Qed.

(** Two numbers less than 1 apart have floors at most 1 apart. *)
Lemma Int_part_close (x y : R) :
  Rabs (y - x) < 1 -> (Int_part x - 1 <= Int_part y <= Int_part x + 1)%Z.
Proof.
  intros Hxy. apply Rabs_def2 in Hxy as [H1 H2].
  assert (A : (Int_part y <= Int_part (x + 1))%Z) by (apply Int_part_le; lra).
  assert (B : (Int_part x <= Int_part (y + 1))%Z) by (apply Int_part_le; lra).
  rewrite Int_part_succ in A, B. lia.
Qed.

(** On viewports and counts below [2^31] the product is finite and less
    than [2^-19] away from the real [d * w * h]. *)
Lemma product_close (d : R) (w h : Z) :
  (h <> 0)%Z -> Rabs (d * IZR w * IZR h) <= 2 ^ 31 ->
  Rabs (IZR h) <= 2 ^ 31 ->
  exists r,
    mul (mul (Fin d) (of_Z w)) (of_Z h) = Fin r
    /\ Rabs (r - d * IZR w * IZR h) < / 2 ^ 19.
Proof.
  intros Hh Hx Hk.
  assert (H1 : 1 <= Rabs (IZR h)).
  { rewrite <- abs_IZR. apply IZR_le. lia. }
  pose proof (Rabs_pos (d * IZR w)) as Pd.
  assert (Hdw : Rabs (d * IZR w) <= 2 ^ 31).
  { rewrite Rabs_mult in Hx. nra. }
  assert (T : 2 ^ 64 < overflow_threshold) by (bpow_num; lra).
  destruct (round64_finite (d * IZR w)) as [r1 E1]; [lra|].
  pose proof (round64_error _ _ E1) as B1.
  assert (S53 : bpow (- 53) = / 2 ^ 53) by (bpow_num; reflexivity).
  assert (S1075 : bpow (- 1075) <= / 2 ^ 53) by (bpow_num; lra).
  assert (Hr1 : Rabs r1 <= 2 ^ 31 + 1).
  { replace r1 with (d * IZR w + (r1 - d * IZR w)) by ring.
    eapply Rle_trans; [apply Rabs_triang|].
    rewrite S53 in B1. lra. }
  assert (Hr1h : Rabs (r1 * IZR h) < overflow_threshold).
  { rewrite Rabs_mult. pose proof (Rabs_pos r1). nra. }
  destruct (round64_finite (r1 * IZR h) Hr1h) as [r E].
  assert (EP : mul (mul (Fin d) (of_Z w)) (of_Z h) = Fin r).
  { unfold of_Z. now rewrite mul_Fin, E1, mul_Fin. }
  exists r. split; [exact EP|].
  pose proof (product_error d w h r EP) as B.
  assert (S51 : bpow (- 51) = / 2 ^ 51) by (bpow_num; reflexivity).
  assert (S1074 : bpow (- 1074) <= / 2 ^ 100) by (bpow_num; lra).
  pose proof (bpow_pos (- 1074)) as P1074.
  rewrite S51 in B.
  assert (B' : bpow (- 1074) * (1 + Rabs (IZR h)) <= / 2 ^ 100 * (1 + 2 ^ 31))
    by nra.
  lra.
Qed.

(** What the clamp makes of the product of a finite density. *)
Lemma clamped_product (lo hi : Z) (d : R) (w h : Z) :
  (0 <= lo <= hi)%Z ->
  let P := mul (mul (Fin d) (of_Z w)) (of_Z h) in
  let x := d * IZR w * IZR h in
  let c := Math_min (of_Z hi) (Math_max (of_Z lo) (Math_floor P)) in
  (P = NaN <-> overflow_threshold <= Rabs (d * IZR w) /\ h = 0%Z)
  /\ (P = NaN -> c = NaN)
  /\ (P <> NaN -> exists n, c = of_Z n /\ (lo <= n <= hi)%Z)
  /\ (forall r,
         P = Fin r ->
         c = of_Z (clamp (Int_part r) lo hi)
         /\ ((lo <= Int_part r <= hi)%Z -> c = of_Z (Int_part r))
         /\ Rabs (r - x)
            <= bpow (- 51) * Rabs x + bpow (- 1074) * (1 + Rabs (IZR h)))
  /\ ((h <> 0)%Z -> Rabs x <= 2 ^ 31 -> Rabs (IZR h) <= 2 ^ 31 ->
      exists n,
        c = of_Z n
        /\ (clamp (Int_part x) lo hi - 1 <= n
            <= clamp (Int_part x) lo hi + 1)%Z).
Proof.
  intros Hlh P x c. split; [apply product_NaN|].
  split; [intros E; unfold c; now rewrite E|].
  split.
  { intros HP.
    destruct (clamp_number_shape lo hi P Hlh) as [[E _]|[_ (n & Hn & E)]];
      [contradiction|].
    exists n. now split. }
  split.
  { intros r E. unfold c. rewrite E, clamp_number by lia.
    split; [reflexivity|]. split.
    - intros Hin. now rewrite clamp_inside.
    - now apply product_error. }
  intros Hh Hx Hk.
  destruct (product_close d w h Hh Hx Hk) as (r & E & Hr).
  exists (clamp (Int_part r) lo hi). unfold c, P. rewrite E.
  rewrite clamp_number by lia. split; [reflexivity|].
  assert (Hlt : Rabs (r - x) < 1).
  { assert (/ 2 ^ 19 < 1) by lra. unfold x. lra. }
  pose proof (Int_part_close x r Hlt). unfold clamp. lia.
Qed.

(** ** Particle budget *)

Section PointFieldFacts.
Variable F : Field.
Implicit Type e : PointField.state F.

(** The target is [NaN] or an integer within the bounds. *)
Lemma target_shape e :
  PointField.target F e = NaN
  \/ exists n,
       (minPoints F <= n <= maxPoints F)%Z /\ PointField.target F e = of_Z n.
Proof.
  unfold PointField.target.
  destruct (clamp_number_shape (minPoints F) (maxPoints F)
              (mul (mul (baseDensity (data e)) (of_Z (W e))) (of_Z (H e)))
              (bounds_ordered F)) as [[_ E]|[_ (n & Hn & E)]].
  - now left.
  - right. now exists n.
Qed.

(** With a finite density the target is a number unless [d * W] overflows
    on a viewport of height 0. *)
Lemma target_not_NaN e (d : R) :
  baseDensity (data e) = Fin d ->
  (H e <> 0)%Z \/ Rabs (d * IZR (W e)) < overflow_threshold ->
  PointField.target F e <> NaN.
Proof.
  intros Hd Hc. unfold PointField.target. rewrite Hd.
  destruct (clamp_number_shape (minPoints F) (maxPoints F)
              (mul (mul (Fin d) (of_Z (W e))) (of_Z (H e)))
              (bounds_ordered F)) as [[E _]|[_ (n & _ & ->)]];
    [|discriminate].
  apply product_NaN in E as [Ho Hz]. destruct Hc as [Hc|Hc]; [lia|lra].
Qed.

(** The target when [baseDensity * W] is an integer. *)
Lemma target_exact e (d : R) (a : Z) :
  baseDensity (data e) = Fin d -> d * IZR (W e) = IZR a ->
  (- 2 ^ 53 < a < 2 ^ 53)%Z -> (- 2 ^ 53 < a * H e < 2 ^ 53)%Z ->
  PointField.target F e
  = of_Z (clamp (a * H e) (minPoints F) (maxPoints F)).
Proof.
  intros Hd E Ha Hah. unfold PointField.target. rewrite Hd.
  apply clamp_exact; try assumption. pose proof (bounds_ordered F). lia.
Qed.

Lemma N_emit (s : stat) e : N (data (emit s e)) = N (data e).
Proof. reflexivity. Qed.

(** A rebuild that returns leaves [N] equal to the target it computed. *)
Lemma rebuild_sets_target e e' :
  PointField.rebuildPointField F e = Some e' ->
  N (data e') = PointField.target F e.
Proof.
  unfold PointField.rebuildPointField, PointField.regenerate.
  destruct (strict_eqb _ _ && strict_eqb _ _) eqn:Hsame.
  - intros [= <-]. apply andb_prop in Hsame as [Hn _].
    apply strict_eqb_true in Hn as [_ Hn]. now rewrite N_emit.
  - destruct (Float32Array_length _); [|discriminate]. now intros [= <-].
Qed.

(** No density makes the rebuild throw. *)
Lemma rebuild_total e : exists e', PointField.rebuildPointField F e = Some e'.
Proof.
  unfold PointField.rebuildPointField, PointField.regenerate.
  destruct (strict_eqb _ _ && strict_eqb _ _); [eauto|].
  unfold PointField.target.
  destruct (Float32Array_length_clamped (minPoints F) (maxPoints F)
              (mul (mul (baseDensity (data e)) (of_Z (W e))) (of_Z (H e)))
              (bounds_ordered F)) as [len ->].
  eauto.
Qed.

(** With a [NaN] target the arrays are allocated empty. *)
Lemma rebuild_NaN_target e e' :
  PointField.target F e = NaN ->
  PointField.rebuildPointField F e = Some e' ->
  N (data e') = NaN /\ attrs_length F (arrays (data e')) = 0%nat.
Proof.
  intros HT. unfold PointField.rebuildPointField, PointField.regenerate.
  rewrite HT. cbn [strict_eqb]. unfold strict_eqb at 1.
  destruct (strict_eq_dec NaN (N (data e))) as [[Hn _]|_];
    [now contradiction Hn|].
  cbn [andb Float32Array_length]. intros [= <-].
  split; [reflexivity|]. cbn. apply layout_length.
Qed.

End PointFieldFacts.

Section OrbitFacts.
Implicit Type e : Orbit.state.

Lemma orbit_bounds : (0 <= Orbit.minPoints <= Orbit.maxPoints)%Z.
Proof. unfold Orbit.minPoints, Orbit.maxPoints. lia. Qed.

Lemma orbit_target_shape_or_NaN e :
  Orbit.target e = NaN
  \/ exists n,
       (Orbit.minPoints <= n <= Orbit.maxPoints)%Z /\ Orbit.target e = of_Z n.
Proof.
  unfold Orbit.target.
  destruct (clamp_number_shape Orbit.minPoints Orbit.maxPoints
              (mul (mul (baseDensity (data e)) (of_Z (W e))) (of_Z (H e)))
              orbit_bounds) as [[_ E]|[_ (n & Hn & E)]].
  - now left.
  - right. now exists n.
Qed.

Lemma orbit_target_not_NaN e (d : R) :
  baseDensity (data e) = Fin d ->
  (H e <> 0)%Z \/ Rabs (d * IZR (W e)) < overflow_threshold ->
  Orbit.target e <> NaN.
Proof.
  intros Hd Hc. unfold Orbit.target. rewrite Hd.
  destruct (clamp_number_shape Orbit.minPoints Orbit.maxPoints
              (mul (mul (Fin d) (of_Z (W e))) (of_Z (H e)))
              orbit_bounds) as [[E _]|[_ (n & _ & ->)]];
    [|discriminate].
  apply product_NaN in E as [Ho Hz]. destruct Hc as [Hc|Hc]; [lia|lra].
Qed.

Lemma orbit_target_exact e (d : R) (a : Z) :
  baseDensity (data e) = Fin d -> d * IZR (W e) = IZR a ->
  (- 2 ^ 53 < a < 2 ^ 53)%Z -> (- 2 ^ 53 < a * H e < 2 ^ 53)%Z ->
  Orbit.target e = of_Z (clamp (a * H e) Orbit.minPoints Orbit.maxPoints).
Proof.
  intros Hd E Ha Hah. unfold Orbit.target. rewrite Hd.
  apply clamp_exact; try assumption. pose proof orbit_bounds. lia.
Qed.

Lemma orbit_rebuild_sets_target e e' :
  Orbit.rebuildPointField e = Some e' ->
  N (data e') = Orbit.target e.
Proof.
  unfold Orbit.rebuildPointField.
  destruct (strict_eqb _ _) eqn:Hsame.
  - intros [= <-]. apply strict_eqb_true in Hsame as [_ Hn]. now symmetry.
  - destruct (Float32Array_length _); [|discriminate]. now intros [= <-].
Qed.

Lemma orbit_rebuild_total e :
  exists e', Orbit.rebuildPointField e = Some e'.
Proof.
  unfold Orbit.rebuildPointField.
  destruct (strict_eqb _ _); [eauto|].
  unfold Orbit.target.
  destruct (Float32Array_length_clamped Orbit.minPoints Orbit.maxPoints
              (mul (mul (baseDensity (data e)) (of_Z (W e))) (of_Z (H e)))
              orbit_bounds) as [len ->].
  eauto.
Qed.

End OrbitFacts.

(** The double nearest to 0.013 is [density_013]: at 800 x 600 the two
    rounded products give 6240 where the real product is below 6240. *)
Lemma density_013_is_a_double : round64 density_013 = Fin density_013.
Proof.
  rewrite (round64_near density_013 (-7) 7493989779944505).
  - unfold density_013. apply f_equal. bpow_calc. lra.
  - unfold density_013. rewrite Rabs_right by (bpow_calc; lra). bpow_calc. lra.
  - lia.
  - unfold density_013. bpow_calc.
    replace (_ - _) with 0 by lra. rewrite Rabs_R0. lra.
  - unfold density_013. rewrite Rabs_right by (bpow_calc; lra). bpow_calc. lra.
Qed.

Lemma density_013_product :
  mul (mul (Fin density_013) (of_Z 800)) (of_Z 600) = of_Z 6240.
Proof.
  unfold of_Z. rewrite mul_Fin.
  rewrite (round64_near (density_013 * 800) 3 5854679515581645).
  - rewrite mul_Fin.
    rewrite (round64_near _ 12 6860952557322240).
    + apply f_equal. bpow_calc. lra.
    + rewrite Rabs_right by (bpow_calc; lra). bpow_calc. lra.
    + lia.
    + bpow_calc. apply Rabs_def1; lra.
    + rewrite Rabs_right by (bpow_calc; lra). bpow_calc. lra.
  - unfold density_013. rewrite Rabs_right by (bpow_calc; lra). bpow_calc. lra.
  - lia.
  - unfold density_013. bpow_calc. apply Rabs_def1; lra.
  - unfold density_013. rewrite Rabs_right by (bpow_calc; lra). bpow_calc. lra.
Qed.

Lemma density_013_floor : Int_part (density_013 * 800 * 600) = 6239%Z.
Proof. apply Int_part_eq. unfold density_013. lra. Qed.

(** [2^1023 * 1000] overflows, and [Infinity * 0] is [NaN]. *)
Lemma collapsed_product :
  mul (mul (Fin (bpow 1023)) (of_Z 1000)) (of_Z 0) = NaN.
Proof.
  apply product_NaN. split; [|reflexivity].
  rewrite Rabs_right by (bpow_num; lra). bpow_num. lra.
Qed.

(** The spec's sentence C1 read over the reals, or with "always", fails:
    at density 0.013 (the double) in an 800 x 600 window the rebuild leaves
    6240 particles where [clamp(floor(d * W * H))] is 6239; and with the
    finite density [2^1023] on a viewport 1000 wide and 0 high the count is
    [NaN], outside the bounds. *)
Theorem rounded_product_changes_the_count :
  (exists e' : PointField.state templateField,
      PointField.rebuildPointField templateField rounded_template = Some e'
      /\ round64 density_013 = Fin density_013
      /\ N (data e') = of_Z 6240
      /\ clamp (Int_part (density_013 * IZR (W rounded_template)
                          * IZR (H rounded_template))) 6000 120000
         = 6239%Z)
  /\
  (exists e' : PointField.state templateField,
      PointField.rebuildPointField templateField collapsed_template = Some e'
      /\ N (data e') = NaN
      /\ ~ (le (of_Z 6000) (N (data e')) /\ le (N (data e')) (of_Z 120000))).
Proof.
  split.
  - destruct (rebuild_total templateField rounded_template) as [e' He'].
    exists e'. split; [exact He'|].
    split; [exact density_013_is_a_double|]. split.
    + rewrite (rebuild_sets_target _ _ _ He').
      unfold PointField.target, rounded_template. engine_simpl.
      rewrite density_013_product, clamp_number by (cbn; lia).
      unfold of_Z. rewrite Int_part_IZR. reflexivity.
    + unfold rounded_template. engine_simpl.
      rewrite density_013_floor. reflexivity.
  - destruct (rebuild_total templateField collapsed_template) as [e' He'].
    exists e'. split; [exact He'|].
    assert (HN : N (data e') = NaN).
    { rewrite (rebuild_sets_target _ _ _ He').
      unfold PointField.target, collapsed_template. engine_simpl.
      now rewrite collapsed_product. }
    split; [exact HN|]. rewrite HN. cbn. tauto.
Qed.

(** C1, amended.  For every field of the template family and for the orbit
    field, whatever the finite density [d] and the viewport [W] x [H], a
    rebuild returns and leaves [N = min(maxPoints, max(minPoints,
    floor(P)))] where [P] is the binary64 product [(d * W) * H], rounded
    after each multiplication.  [P] is [NaN] exactly when [d * W] overflows
    and [H] is 0; otherwise [N] is an integer with
    [minPoints <= N <= maxPoints].  When [P] is finite, [N] is the clamp of
    [floor(P)], is [floor(P)] as soon as that lies within the bounds, and
    [P] is within a relative [2^-51] of the real [d * W * H]; so for
    [H <> 0] and [|d * W * H|, |H| <= 2^31] the count is at most 1 away from
    [clamp(floor(d * W * H), minPoints, maxPoints)]. *)
Theorem particle_count_is_clamped_target :
  (forall (F : Field) (e : PointField.state F) (d : R),
      baseDensity (data e) = Fin d ->
      let P := mul (mul (Fin d) (of_Z (W e))) (of_Z (H e)) in
      let x := d * IZR (W e) * IZR (H e) in
      exists e' : PointField.state F,
        PointField.rebuildPointField F e = Some e'
        /\ N (data e')
           = Math_min (of_Z (maxPoints F))
               (Math_max (of_Z (minPoints F)) (Math_floor P))
        /\ (P = NaN
            <-> overflow_threshold <= Rabs (d * IZR (W e)) /\ H e = 0%Z)
        /\ (P = NaN -> N (data e') = NaN)
        /\ (P <> NaN ->
            exists n, N (data e') = of_Z n
                      /\ (minPoints F <= n <= maxPoints F)%Z)
        /\ (forall r,
               P = Fin r ->
               N (data e')
               = of_Z (clamp (Int_part r) (minPoints F) (maxPoints F))
               /\ ((minPoints F <= Int_part r <= maxPoints F)%Z ->
                   N (data e') = of_Z (Int_part r))
               /\ Rabs (r - x)
                  <= bpow (- 51) * Rabs x
                     + bpow (- 1074) * (1 + Rabs (IZR (H e))))
        /\ ((H e <> 0)%Z -> Rabs x <= 2 ^ 31 -> Rabs (IZR (H e)) <= 2 ^ 31 ->
            exists n,
              N (data e') = of_Z n
              /\ (clamp (Int_part x) (minPoints F) (maxPoints F) - 1 <= n
                  <= clamp (Int_part x) (minPoints F) (maxPoints F) + 1)%Z))
  /\
  (forall (e : Orbit.state) (d : R),
      baseDensity (data e) = Fin d ->
      let P := mul (mul (Fin d) (of_Z (W e))) (of_Z (H e)) in
      let x := d * IZR (W e) * IZR (H e) in
      exists e' : Orbit.state,
        Orbit.rebuildPointField e = Some e'
        /\ N (data e')
           = Math_min (of_Z Orbit.maxPoints)
               (Math_max (of_Z Orbit.minPoints) (Math_floor P))
        /\ (P = NaN
            <-> overflow_threshold <= Rabs (d * IZR (W e)) /\ H e = 0%Z)
        /\ (P = NaN -> N (data e') = NaN)
        /\ (P <> NaN ->
            exists n, N (data e') = of_Z n
                      /\ (Orbit.minPoints <= n <= Orbit.maxPoints)%Z)
        /\ (forall r,
               P = Fin r ->
               N (data e')
               = of_Z (clamp (Int_part r) Orbit.minPoints Orbit.maxPoints)
               /\ ((Orbit.minPoints <= Int_part r <= Orbit.maxPoints)%Z ->
                   N (data e') = of_Z (Int_part r))
               /\ Rabs (r - x)
                  <= bpow (- 51) * Rabs x
                     + bpow (- 1074) * (1 + Rabs (IZR (H e))))
        /\ ((H e <> 0)%Z -> Rabs x <= 2 ^ 31 -> Rabs (IZR (H e)) <= 2 ^ 31 ->
            exists n,
              N (data e') = of_Z n
              /\ (clamp (Int_part x) Orbit.minPoints Orbit.maxPoints - 1 <= n
                  <= clamp (Int_part x) Orbit.minPoints Orbit.maxPoints
                     + 1)%Z)).
Proof.
  split.
  - intros F e d Hd P x.
    destruct (rebuild_total F e) as [e' He'].
    exists e'. split; [exact He'|].
    assert (HN : N (data e')
                 = Math_min (of_Z (maxPoints F))
                     (Math_max (of_Z (minPoints F)) (Math_floor P))).
    { rewrite (rebuild_sets_target F e e' He').
      unfold PointField.target. now rewrite Hd. }
    split; [exact HN|]. rewrite HN.
    exact (clamped_product (minPoints F) (maxPoints F) d (W e) (H e)
             (bounds_ordered F)).
  - intros e d Hd P x.
    destruct (orbit_rebuild_total e) as [e' He'].
    exists e'. split; [exact He'|].
    assert (HN : N (data e')
                 = Math_min (of_Z Orbit.maxPoints)
                     (Math_max (of_Z Orbit.minPoints) (Math_floor P))).
    { rewrite (orbit_rebuild_sets_target e e' He').
      unfold Orbit.target. now rewrite Hd. }
    split; [exact HN|]. rewrite HN.
    exact (clamped_product Orbit.minPoints Orbit.maxPoints d (W e) (H e)
             orbit_bounds).
Qed.

Lemma particle_count_is_clamped_target_witness :
  (exists (e' : PointField.state templateField) (n : Z),
      PointField.rebuildPointField templateField blank_template = Some e'
      /\ N (data e') = of_Z n
      /\ (6000 <= n <= 120000)%Z
      /\ (clamp (Int_part (0.005 * 800 * 600)) 6000 120000 - 1 <= n
          <= clamp (Int_part (0.005 * 800 * 600)) 6000 120000 + 1)%Z)
  /\
  (exists (e' : Orbit.state) (n : Z),
      Orbit.rebuildPointField blank_orbit = Some e'
      /\ N (data e') = of_Z n
      /\ (6000 <= n <= 120000)%Z
      /\ (clamp (Int_part (0.005 * 800 * 600)) 6000 120000 - 1 <= n
          <= clamp (Int_part (0.005 * 800 * 600)) 6000 120000 + 1)%Z).
Proof.
  destruct particle_count_is_clamped_target as [HP HO].
  assert (Hx : Rabs (0.005 * 800 * 600) <= 2 ^ 31).
  { rewrite Rabs_right by lra. lra. }
  assert (Hh : Rabs 600 <= 2 ^ 31).
  { rewrite Rabs_right by lra. lra. }
  split.
  - destruct (HP templateField blank_template 0.005 eq_refl)
      as (e' & He' & _ & HNaN & _ & Hin & _ & Hnear).
    destruct (Hnear ltac:(cbn; lia) Hx Hh) as (n & HN & Hn).
    exists e', n. split; [exact He'|]. split; [exact HN|].
    cbn [W H blank_template blank minPoints maxPoints templateField] in Hn.
    split; [|exact Hn].
    destruct Hin as (n' & HN' & Hn').
    { intros E. apply HNaN in E as [_ E]. discriminate E. }
    rewrite HN in HN'. injection HN' as E. apply eq_IZR in E. subst n'.
    exact Hn'.
  - destruct (HO blank_orbit 0.005 eq_refl)
      as (e' & He' & _ & HNaN & _ & Hin & _ & Hnear).
    destruct (Hnear ltac:(cbn; lia) Hx Hh) as (n & HN & Hn).
    exists e', n. split; [exact He'|]. split; [exact HN|].
    cbn [W H blank_orbit blank] in Hn.
    unfold Orbit.minPoints, Orbit.maxPoints in *. split; [|exact Hn].
    destruct Hin as (n' & HN' & Hn').
    { intros E. apply HNaN in E as [_ E]. discriminate E. }
    rewrite HN in HN'. injection HN' as E. apply eq_IZR in E. subst n'.
    exact Hn'.
Defined.

(** ** Logical time *)

Lemma run_cons {S X : Type} (f : X -> S -> S) (x : X) (xs : list X) (s : S) :
  run f (x :: xs) s = run f xs (f x s).
Proof. reflexivity. Qed.


Section PointFieldTime.
Variable F : Field.
Implicit Type e : PointField.state F.

Lemma integrate_speed dt e : speed (PointField.integrate F dt e) = speed e.
Proof.
  unfold PointField.integrate, breathe.
  destruct (zoomAuto _); reflexivity.
Qed.

Lemma integrate_t dt e :
  t (data (PointField.integrate F dt e))
  = t (data e) + dt * speed e * speedScale F.
Proof.
  unfold PointField.integrate, breathe. cbn.
  destruct (zoomAuto e); reflexivity.
Qed.


End PointFieldTime.

Lemma orbit_integrate_speed dt (e : Orbit.state) :
  speed (Orbit.integrate dt e) = speed e.
Proof.
  unfold Orbit.integrate, breathe. cbn.
  destruct (zoomAuto e); reflexivity.
Qed.

Lemma orbit_integrate_t dt (e : Orbit.state) :
  t (data (Orbit.integrate dt e))
  = t (data e) + PI / 20 * 60 * dt * speed e.
Proof.
  unfold Orbit.integrate, breathe. cbn.
  destruct (zoomAuto e); reflexivity.
Qed.





(** ** Pause and resume *)

Section PauseFacts.
Context {D : Type}.
Implicit Type e : engine D.

Lemma pause_running e : running (pause e) = false.
Proof. unfold pause. cbn. destruct (rafId e); reflexivity. Qed.

Lemma pause_rafId e : rafId (pause e) = None.
Proof. unfold pause. cbn. destruct (rafId e) eqn:E; cbn; [reflexivity|exact E]. Qed.

Lemma pause_data e : data (pause e) = data e.
Proof. unfold pause. cbn. destruct (rafId e); reflexivity. Qed.

Lemma pause_speed e : speed (pause e) = speed e.
Proof. unfold pause. cbn. destruct (rafId e); reflexivity. Qed.

Lemma pause_zoomPhase e : zoomPhase (pause e) = zoomPhase e.
Proof. unfold pause. cbn. destruct (rafId e); reflexivity. Qed.

Lemma pause_zoomAuto e : zoomAuto (pause e) = zoomAuto e.
Proof. unfold pause. cbn. destruct (rafId e); reflexivity. Qed.

Lemma play_paused (now : R) e :
  running e = false ->
  play now e = request_frame (set_last now (set_running true e)).
Proof. unfold play. now intros ->. Qed.

End PauseFacts.

Lemma loop_paused (F : Field) (now : R) (e : PointField.state F) :
  running e = false -> PointField.loop F now e = e.
Proof. unfold PointField.loop. now intros ->. Qed.

Lemma loop_running (F : Field) (now : R) (e : PointField.state F) :
  running e = true ->
  PointField.loop F now e
  = PointField.integrate F (frame_dt now e) (set_last now e).
Proof. unfold PointField.loop. now intros ->. Qed.

Lemma run_loop_paused (F : Field) (nows : list R) (e : PointField.state F) :
  running e = false -> run (PointField.loop F) nows e = e.
Proof.
  intros Hr. induction nows as [|now nows IH]; [reflexivity|].
  now rewrite run_cons, loop_paused.
Qed.

Lemma orbit_loop_paused (now : R) (e : Orbit.state) :
  running e = false -> Orbit.loop now e = e.
Proof. unfold Orbit.loop. now intros ->. Qed.

Lemma orbit_loop_running (now : R) (e : Orbit.state) :
  running e = true ->
  Orbit.loop now e = Orbit.integrate (frame_dt now e) (set_last now e).
Proof. unfold Orbit.loop. now intros ->. Qed.

Lemma orbit_run_loop_paused (nows : list R) (e : Orbit.state) :
  running e = false -> run Orbit.loop nows e = e.
Proof.
  intros Hr. induction nows as [|now nows IH]; [reflexivity|].
  now rewrite run_cons, orbit_loop_paused.
Qed.

(** C3.  A frame callback that fires while [running] is false changes
    nothing, so neither [t] nor [zoomPhase] advances; and after [pause()],
    any such stray callbacks and [play()] at time [resume], the first frame
    at time [now] advances [t] from its value at the pause by the [dt]
    measured from [resume] only, whatever the time spent paused ([last] at
    the pause does not appear). *)
Theorem pause_resume_is_exact :
  (forall (F : Field) (e : PointField.state F) (now : R),
      running e = false -> PointField.loop F now e = e)
  /\
  (forall (F : Field) (e : PointField.state F) (strays : list R)
          (resume now : R),
      let paused := run (PointField.loop F) strays (pause e) in
      let e' := PointField.loop F now (play resume paused) in
      let dt := Rmax 0.0001 ((now - resume) / 1000) in
      t (data paused) = t (data e)
      /\ zoomPhase paused = zoomPhase e
      /\ t (data (play resume paused)) = t (data e)
      /\ t (data e') = t (data e) + dt * speed e * speedScale F
      /\ zoomPhase e' = zoomPhase e + (if zoomAuto e then dt else 0))
  /\
  (forall (e : Orbit.state) (now : R),
      running e = false -> Orbit.loop now e = e)
  /\
  (forall (e : Orbit.state) (strays : list R) (resume now : R),
      let paused := run Orbit.loop strays (pause e) in
      let e' := Orbit.loop now (play resume paused) in
      let dt := Rmax 0.0001 ((now - resume) / 1000) in
      t (data paused) = t (data e)
      /\ zoomPhase paused = zoomPhase e
      /\ t (data (play resume paused)) = t (data e)
      /\ t (data e') = t (data e) + PI / 20 * 60 * dt * speed e
      /\ zoomPhase e' = zoomPhase e + (if zoomAuto e then dt else 0)).
Proof.
  split; [intros F e now; apply loop_paused|].
  split; [|split; [intros e now; apply orbit_loop_paused|]].
  - intros F e strays resume now.
    cbn zeta.
    rewrite (run_loop_paused F strays (pause e) (pause_running e)).
    rewrite (play_paused resume (pause e) (pause_running e)).
    rewrite pause_data, pause_zoomPhase.
    split; [reflexivity|]. split; [reflexivity|].
    split; [cbn; now rewrite pause_data|].
    rewrite loop_running by reflexivity. split.
    + rewrite integrate_t. unfold frame_dt. cbn.
      now rewrite pause_data, pause_speed.
    + unfold PointField.integrate, breathe, frame_dt. cbn.
      rewrite pause_zoomAuto.
      destruct (zoomAuto e); cbn; rewrite ?pause_zoomPhase; ring.
  - intros e strays resume now.
    cbn zeta.
    rewrite (orbit_run_loop_paused strays (pause e) (pause_running e)).
    rewrite (play_paused resume (pause e) (pause_running e)).
    rewrite pause_data, pause_zoomPhase.
    split; [reflexivity|]. split; [reflexivity|].
    split; [cbn; now rewrite pause_data|].
    rewrite orbit_loop_running by reflexivity. split.
    + rewrite orbit_integrate_t. unfold frame_dt. cbn.
      now rewrite pause_data, pause_speed.
    + unfold Orbit.integrate, breathe, frame_dt. cbn.
      rewrite pause_zoomAuto.
      destruct (zoomAuto e); cbn; rewrite ?pause_zoomPhase; ring.
Qed.

Lemma pause_resume_is_exact_witness :
  PointField.loop templateField 16 blank_template = blank_template
  /\ Orbit.loop 16 blank_orbit = blank_orbit.
Proof.
  split.
  - exact (proj1 pause_resume_is_exact templateField blank_template 16
             eq_refl).
  - exact (proj1 (proj2 (proj2 pause_resume_is_exact)) blank_orbit 16
             eq_refl).
Defined.

(** ** Redundant rebuilds *)

Lemma of_nat_to_nat (z : Z) : (0 <= z)%Z -> of_nat (Z.to_nat z) = of_Z z.
Proof.
  intros Hz. unfold of_nat, of_Z. now rewrite INR_IZR_INZ, Z2Nat.id.
Qed.

Section RebuildTwice.
Variable F : Field.
Implicit Type e : PointField.state F.

Lemma rebuild_keeps_inputs e e1 :
  PointField.rebuildPointField F e = Some e1 ->
  W e1 = W e /\ H e1 = H e /\ baseDensity (data e1) = baseDensity (data e)
  /\ t (data e1) = t (data e) /\ running e1 = running e.
Proof.
  unfold PointField.rebuildPointField, PointField.regenerate.
  destruct (strict_eqb _ _ && strict_eqb _ _).
  - intros [= <-]. repeat split.
  - destruct (Float32Array_length _); [|discriminate].
    intros [= <-]. repeat split.
Qed.

Lemma rebuild_keeps_target e e1 :
  PointField.rebuildPointField F e = Some e1 ->
  PointField.target F e1 = PointField.target F e.
Proof.
  intros He. destruct (rebuild_keeps_inputs e e1 He) as (Hw & Hh & Hd & _).
  unfold PointField.target. now rewrite Hw, Hh, Hd.
Qed.

(** After a rebuild, the tested array has the target's length. *)
Lemma rebuild_length e e1 :
  PointField.target F e <> NaN ->
  PointField.rebuildPointField F e = Some e1 ->
  of_nat (attrs_length F (arrays (data e1))) = PointField.target F e.
Proof.
  intros HT. unfold PointField.rebuildPointField, PointField.regenerate.
  destruct (strict_eqb _ _ && strict_eqb _ _) eqn:Hsame.
  - intros [= <-]. apply andb_prop in Hsame as [_ Hl].
    now apply strict_eqb_true in Hl as [_ Hl].
  - destruct (target_shape F e) as [E|(n & Hn & E)]; [contradiction|].
    rewrite E. pose proof (bounds_ordered F) as Hb.
    rewrite (Float32Array_length_of_Z n) by lia.
    intros [= <-]. cbn. rewrite layout_length. apply of_nat_to_nat. lia.
Qed.

(** For the template family, a second rebuild with the same density and
    viewport only reports the count: arrays, draws and everything else are
    as the first rebuild left them. *)
Lemma rebuild_twice e e1 :
  PointField.target F e <> NaN ->
  PointField.rebuildPointField F e = Some e1 ->
  PointField.rebuildPointField F e1
  = Some (emit (StatPoints (N (data e1))) e1).
Proof.
  intros Hnan He.
  pose proof (rebuild_sets_target F e e1 He) as HN.
  pose proof (rebuild_length e e1 Hnan He) as HL.
  pose proof (rebuild_keeps_target e e1 He) as HT.
  unfold PointField.rebuildPointField.
  rewrite HT, HN, HL.
  destruct (target_shape F e) as [E|(n & _ & E)]; [contradiction|].
  rewrite E. unfold of_Z. now rewrite strict_eqb_refl_Fin.
Qed.

End RebuildTwice.

Lemma orbit_rebuild_keeps_inputs (e e1 : Orbit.state) :
  Orbit.rebuildPointField e = Some e1 ->
  W e1 = W e /\ H e1 = H e /\ baseDensity (data e1) = baseDensity (data e)
  /\ t (data e1) = t (data e) /\ running e1 = running e.
Proof.
  unfold Orbit.rebuildPointField.
  destruct (strict_eqb _ _).
  - intros [= <-]. repeat split.
  - destruct (Float32Array_length _); [|discriminate].
    intros [= <-]. repeat split.
Qed.

(** For the orbit field the second rebuild returns at once, without a call
    to the statistics callback. *)
Lemma orbit_rebuild_twice (e e1 : Orbit.state) :
  Orbit.target e <> NaN ->
  Orbit.rebuildPointField e = Some e1 ->
  Orbit.rebuildPointField e1 = Some e1.
Proof.
  intros Hnan He.
  pose proof (orbit_rebuild_sets_target e e1 He) as HN.
  destruct (orbit_rebuild_keeps_inputs e e1 He) as (Hw & Hh & Hb & _).
  assert (HT : Orbit.target e1 = Orbit.target e).
  { unfold Orbit.target. now rewrite Hw, Hh, Hb. }
  unfold Orbit.rebuildPointField.
  rewrite HT, HN.
  destruct (orbit_target_shape_or_NaN e) as [E|(n & _ & E)]; [contradiction|].
  rewrite E. unfold of_Z. now rewrite strict_eqb_refl_Fin.
Qed.

Lemma strict_eqb_neq (a b : number) : a <> b -> strict_eqb a b = false.
Proof.
  intros Hab. destruct (strict_eqb a b) eqn:E; [|reflexivity].
  apply strict_eqb_true in E as [_ E]. contradiction.
Qed.

(** At density 0.005 in the 800 x 600 window the product is exact:
    [0.005 * 800 = 4] and [4 * 600 = 2400], under the lower bound. *)
Lemma orbit_blank_target : Orbit.target blank_orbit = of_Z 6000.
Proof.
  rewrite (orbit_target_exact blank_orbit 0.005 4 eq_refl);
    cbn [W H blank_orbit blank]; [reflexivity|lra|lia|lia].
Qed.

Lemma template_blank_target :
  PointField.target templateField blank_template = of_Z 6000.
Proof.
  rewrite (target_exact templateField blank_template 0.005 4 eq_refl);
    cbn [W H blank_template blank]; [reflexivity|lra|lia|lia].
Qed.

Lemma orbit_blank_rebuild :
  Orbit.rebuildPointField blank_orbit
  = Some (emit (StatPoints (of_Z 6000))
            (Orbit.set_field (of_Z 6000)
               (Orbit.orbit_layout (Z.to_nat 6000) (Z.to_nat 6000))
               blank_orbit)).
Proof.
  unfold Orbit.rebuildPointField. rewrite orbit_blank_target.
  rewrite strict_eqb_neq.
  - rewrite Float32Array_length_of_Z by lia. now rewrite loop_count_of_Z.
  - cbn. unfold of_Z. intros [= E]. lra.
Qed.

(** ** Fire grid *)

Lemma upd_length (i : nat) (v : R) (buf : list R) :
  length (upd i v buf) = length buf.
Proof.
  revert i. induction buf as [|x buf IH]; intros [|i]; cbn; auto.
Qed.

Lemma nth_upd (i j : nat) (v : R) (buf : list R) :
  nth j (upd i v buf) 0
  = if ((j =? i) && (i <? length buf))%nat then v else nth j buf 0.
Proof.
  revert i j. induction buf as [|x buf IH]; intros i j.
  - cbn. destruct i, j; cbn; try reflexivity.
    now rewrite Bool.andb_false_r.
  - destruct i as [|i], j as [|j]; cbn; try reflexivity.
    rewrite IH. reflexivity.
Qed.

Lemma nth_upd_other (i j : nat) (v : R) (buf : list R) :
  j <> i -> nth j (upd i v buf) 0 = nth j buf 0.
Proof.
  intros Hji. rewrite nth_upd.
  apply Nat.eqb_neq in Hji. now rewrite Hji.
Qed.

Lemma seq_snoc (k : nat) : seq 0 (S k) = seq 0 k ++ [k].
Proof. now rewrite seq_S. Qed.

Section FireLoops.
Variable gw : nat.

Lemma diffuse_prefix (buf : list R) (k : nat) :
  (k <= length buf)%nat ->
  let b := fold_left (Fire.diffuse_cell gw) (seq 0 k) buf in
  length b = length buf
  /\ forall j, nth j b 0 = if (j <? k)%nat then blur gw buf j else nth j buf 0.
Proof.
  induction k as [|k IH]; intros Hk; cbn zeta.
  - split; [reflexivity|]. intros j. reflexivity.
  - rewrite seq_snoc, fold_left_app. cbn [fold_left].
    destruct IH as [Hlen Hnth]; [lia|].
    set (b := fold_left (Fire.diffuse_cell gw) (seq 0 k) buf) in *.
    unfold Fire.diffuse_cell. split.
    + now rewrite upd_length.
    + intros j. rewrite nth_upd, Hlen.
      destruct (Nat.eqb_spec j k) as [->|Hjk].
      * assert (Hlt : (k <? length buf)%nat = true) by (apply Nat.ltb_lt; lia).
        rewrite Hlt. cbn [andb].
        assert (Hk1 : (k <? S k)%nat = true) by (apply Nat.ltb_lt; lia).
        rewrite Hk1. unfold blur. rewrite !Hnth.
        assert (H0 : (k <? k)%nat = false) by (apply Nat.ltb_ge; lia).
        assert (H1 : (k + 1 <? k)%nat = false) by (apply Nat.ltb_ge; lia).
        assert (H2 : (k + gw <? k)%nat = false) by (apply Nat.ltb_ge; lia).
        assert (H3 : (k + gw + 1 <? k)%nat = false) by (apply Nat.ltb_ge; lia).
        now rewrite H0, H1, H2, H3.
      * cbn [andb]. rewrite Hnth.
        destruct (Nat.ltb_spec j k) as [Hlt|Hge].
        -- assert (H' : (j <? S k)%nat = true) by (apply Nat.ltb_lt; lia).
           now rewrite H'.
        -- assert (H' : (j <? S k)%nat = false) by (apply Nat.ltb_ge; lia).
           now rewrite H'.
Qed.

Lemma fade_prefix (buf : list R) (k : nat) :
  (k <= length buf)%nat ->
  let b := fold_left (fun b i => upd i (nth i b 0 * 0.985) b) (seq 0 k) buf in
  length b = length buf
  /\ forall j,
       nth j b 0 = if (j <? k)%nat then nth j buf 0 * 0.985 else nth j buf 0.
Proof.
  induction k as [|k IH]; intros Hk; cbn zeta.
  - split; [reflexivity|]. intros j. reflexivity.
  - rewrite seq_snoc, fold_left_app. cbn [fold_left].
    destruct IH as [Hlen Hnth]; [lia|].
    set (b := fold_left _ (seq 0 k) buf) in *.
    split.
    + now rewrite upd_length.
    + intros j. rewrite nth_upd, Hlen.
      destruct (Nat.eqb_spec j k) as [->|Hjk].
      * assert (Hlt : (k <? length buf)%nat = true) by (apply Nat.ltb_lt; lia).
        rewrite Hlt. cbn [andb].
        assert (Hk1 : (k <? S k)%nat = true) by (apply Nat.ltb_lt; lia).
        rewrite Hk1, Hnth.
        assert (H0 : (k <? k)%nat = false) by (apply Nat.ltb_ge; lia).
        now rewrite H0.
      * cbn [andb]. rewrite Hnth.
        destruct (Nat.ltb_spec j k) as [Hlt|Hge].
        -- assert (H' : (j <? S k)%nat = true) by (apply Nat.ltb_lt; lia).
           now rewrite H'.
        -- assert (H' : (j <? S k)%nat = false) by (apply Nat.ltb_ge; lia).
           now rewrite H'.
Qed.

(** A step without seeding, cell by cell: the in-place loops read cells
    that the current pass has not yet written. *)
Lemma decay_step_cells (gs : nat) (buf : list R) :
  (gs <= length buf)%nat ->
  length (Fire.decay_step gw gs buf) = length buf
  /\ forall j,
       nth j (Fire.decay_step gw gs buf) 0
       = if (j <? gs)%nat then blur gw buf j * 0.985 else nth j buf 0.
Proof.
  intros Hgs. unfold Fire.decay_step, Fire.fade, Fire.diffuse.
  destruct (diffuse_prefix buf gs Hgs) as [Hl1 Hn1].
  set (b1 := fold_left (Fire.diffuse_cell gw) (seq 0 gs) buf) in *.
  destruct (fade_prefix b1 gs) as [Hl2 Hn2]; [lia|].
  split; [congruence|].
  intros j. rewrite Hn2, Hn1. now destruct (j <? gs)%nat.
Qed.

End FireLoops.

Lemma blur_bounds (gw : nat) (M : R) (buf : list R) (j : nat) :
  (forall i, 0 <= nth i buf 0 <= M) -> 0 <= blur gw buf j <= M.
Proof.
  intros Hb. unfold blur.
  pose proof (Hb j). pose proof (Hb (j + 1)%nat).
  pose proof (Hb (j + gw)%nat). pose proof (Hb (j + gw + 1)%nat).
  lra.
Qed.

Lemma decay_step_within (gw gs : nat) (M : R) (buf : list R) :
  (gs <= length buf)%nat ->
  within gs M buf ->
  within gs (0.985 * M) (Fire.decay_step gw gs buf).
Proof.
  intros Hgs [Hin Hpad].
  destruct (decay_step_cells gw gs buf Hgs) as [_ Hcell].
  assert (HM : 0 <= M) by (pose proof (Hin 0%nat); lra).
  split; intros j.
  - rewrite Hcell. destruct (Nat.ltb_spec j gs) as [Hlt|Hge].
    + pose proof (blur_bounds gw M buf j Hin). lra.
    + rewrite (Hpad j Hge). lra.
  - intros Hj. rewrite Hcell.
    assert (H' : (j <? gs)%nat = false) by (apply Nat.ltb_ge; lia).
    rewrite H'. now apply Hpad.
Qed.

Lemma within_weaken (gs : nat) (M M' : R) (buf : list R) :
  M <= M' -> within gs M buf -> within gs M' buf.
Proof.
  intros HM [Hin Hpad]. split; [|exact Hpad].
  intros j. pose proof (Hin j). lra.
Qed.

(** Without seeding, [simulate] iterates the decay step. *)
Lemma simulate_unseeded (n gw gh gs : nat) (rnd : nat -> R) (buf : list R)
    (M : R) :
  (gs <= length buf)%nat ->
  within gs M buf ->
  let b := fst (Fire.simulate n gw gh gs 0 rnd buf) in
  length b = length buf /\ within gs (0.985 ^ n * M) b.
Proof.
  revert rnd buf M. induction n as [|n IH]; intros rnd buf M Hgs Hw; cbn zeta.
  - cbn. split; [reflexivity|]. now rewrite Rmult_1_l.
  - cbn [Fire.simulate Fire.seed_row seq fold_left].
    destruct (decay_step_cells gw gs buf Hgs) as [Hlen _].
    destruct (IH (fun i => rnd (2 * 0 + i)%nat) (Fire.decay_step gw gs buf)
                (0.985 * M)) as [Hl Hw'].
    + now rewrite Hlen.
    + now apply decay_step_within.
    + split; [congruence|].
      replace (0.985 ^ S n * M) with (0.985 ^ n * (0.985 * M))
        by (cbn [pow]; ring).
      exact Hw'.
Qed.

Lemma pow_0985_le_1 (n : nat) : 0 < 0.985 ^ n <= 1.
Proof.
  induction n as [|n IH]; cbn [pow]; [lra|].
  destruct IH as [Hpos Hle]. split; nra.
Qed.

Lemma one_ember_cell (j : nat) :
  nth j one_ember 0 = if (j =? 5 + 32 * 29)%nat then 60 else 0.
Proof.
  unfold one_ember. rewrite nth_upd, repeat_length, nth_repeat.
  destruct (j =? 5 + 32 * 29)%nat; reflexivity.
Qed.

(** A cell next to a hot one gets brighter during a step without seeding:
    not every intensity decreases. *)
Lemma fire_cell_can_increase :
  ~ (forall j,
        nth j (fst (Fire.simulate 1 32 30 960 0 (fun _ => 0) one_ember)) 0
        <= nth j one_ember 0).
Proof.
  intros Hall. specialize (Hall (4 + 32 * 29)%nat). revert Hall.
  cbn [Fire.simulate Fire.seed_row seq fold_left fst].
  destruct (decay_step_cells 32 960 one_ember) as [_ Hcell].
  { unfold one_ember. rewrite upd_length, repeat_length. lia. }
  rewrite Hcell. unfold blur. rewrite !one_ember_cell. cbn. lra.
Qed.

Lemma simulate_unseeded_succ (n gw gh gs : nat) (rnd : nat -> R)
    (buf : list R) :
  fst (Fire.simulate (S n) gw gh gs 0 rnd buf)
  = Fire.decay_step gw gs (fst (Fire.simulate n gw gh gs 0 rnd buf)).
Proof.
  revert rnd buf. induction n as [|n IH]; intros rnd buf; [reflexivity|].
  change (fst (Fire.simulate (S (S n)) gw gh gs 0 rnd buf))
    with (fst (Fire.simulate (S n) gw gh gs 0 (fun i => rnd (2 * 0 + i)%nat)
                 (Fire.decay_step gw gs buf))).
  now rewrite IH.
Qed.

Lemma pow_0985_small (eps : R) :
  0 < eps -> exists n0, forall n, (n0 <= n)%nat -> 0.985 ^ n < eps.
Proof.
  intros Heps.
  destruct (pow_lt_1_zero 0.985) with (y := eps) as [n0 Hn0].
  - rewrite Rabs_pos_eq; lra.
  - exact Heps.
  - exists n0. intros n Hn. specialize (Hn0 n Hn).
    rewrite Rabs_pos_eq in Hn0; [exact Hn0|].
    pose proof (pow_0985_le_1 n). lra.
Qed.

(** C5, amended.  Without seeding, from a buffer whose cells lie in [0, M]
    with [M <= 70] and whose padding is zero: after any number of steps all
    cells are non-negative, at most [0.985^n * M] and so at most 70; a bound
    on all cells shrinks by the factor 0.985 at each step (the largest
    intensity decreases); and the cells tend to 0 uniformly. *)
Theorem fire_decays_without_seeding :
  forall (gw gh gs : nat) (rnd : nat -> R) (buf : list R) (M : R),
    (gs <= length buf)%nat ->
    within gs M buf ->
    M <= 70 ->
    let cells n := fst (Fire.simulate n gw gh gs 0 rnd buf) in
    (forall n j, 0 <= nth j (cells n) 0 <= 0.985 ^ n * M
                 /\ nth j (cells n) 0 <= 70)
    /\ (forall n M',
           (forall j, nth j (cells n) 0 <= M') ->
           forall j, nth j (cells (S n)) 0 <= 0.985 * M')
    /\ (forall eps, 0 < eps ->
           exists n0, forall n, (n0 <= n)%nat ->
                      forall j, nth j (cells n) 0 < eps).
Proof.
  intros gw gh gs rnd buf M Hgs Hw HM cells.
  assert (Hinv : forall n, length (cells n) = length buf
                           /\ within gs (0.985 ^ n * M) (cells n)).
  { intros n. exact (simulate_unseeded n gw gh gs rnd buf M Hgs Hw). }
  assert (HM0 : 0 <= M) by (destruct Hw as [Hin _]; pose proof (Hin 0%nat); lra).
  split; [|split].
  - intros n j. destruct (Hinv n) as [_ [Hin _]].
    pose proof (Hin j). pose proof (pow_0985_le_1 n). split; [assumption|nra].
  - intros n M' Hle j. destruct (Hinv n) as [Hlen [Hin Hpad]].
    unfold cells. rewrite simulate_unseeded_succ.
    assert (Hw' : within gs M' (cells n)).
    { split; [|exact Hpad]. intros i. pose proof (Hin i). pose proof (Hle i).
      lra. }
    destruct (decay_step_within gw gs M' (cells n)) as [Hin' _];
      [lia|exact Hw'|].
    apply Hin'.
  - intros eps Heps.
    destruct (pow_0985_small (eps / (M + 1))) as [n0 Hn0].
    { apply Rdiv_lt_0_compat; lra. }
    exists n0. intros n Hn j. destruct (Hinv n) as [_ [Hin _]].
    pose proof (Hin j) as Hj. specialize (Hn0 n Hn).
    pose proof (pow_0985_le_1 n) as [Hp _].
    assert (Hlt : 0.985 ^ n * (M + 1) < eps).
    { apply Rmult_lt_reg_r with (r := / (M + 1)).
      - apply Rinv_0_lt_compat; lra.
      - rewrite Rmult_assoc, Rinv_r by lra. rewrite Rmult_1_r. exact Hn0. }
    nra.
Qed.

Lemma one_ember_within : within 960 60 one_ember.
Proof.
  split; intros j.
  - rewrite one_ember_cell. destruct (j =? 5 + 32 * 29)%nat; lra.
  - intros Hj. rewrite one_ember_cell.
    destruct (Nat.eqb_spec j (5 + 32 * 29)) as [->|_]; [|reflexivity].
    cbn in Hj. lia.
Qed.

Lemma one_ember_length : length one_ember = (960 + 32 + 1)%nat.
Proof. unfold one_ember. now rewrite upd_length, repeat_length. Qed.

Lemma fire_decays_without_seeding_witness :
  let cells n := fst (Fire.simulate n 32 30 960 0 (fun _ => 0) one_ember) in
  (forall n j, 0 <= nth j (cells n) 0 <= 0.985 ^ n * 60
               /\ nth j (cells n) 0 <= 70)
  /\ (forall n M',
         (forall j, nth j (cells n) 0 <= M') ->
         forall j, nth j (cells (S n)) 0 <= 0.985 * M')
  /\ (forall eps, 0 < eps ->
         exists n0, forall n, (n0 <= n)%nat ->
                    forall j, nth j (cells n) 0 < eps).
Proof.
  apply (fire_decays_without_seeding 32 30 960 (fun _ => 0) one_ember 60).
  - rewrite one_ember_length. lia.
  - exact one_ember_within.
  - lra.
Defined.

(** ** Parameter updates *)

Section SetParamsFacts.
Variable F : Field.
Implicit Type e : PointField.state F.


Lemma setParams_only_density e (d : number) :
  PointField.setParams F (only_density d) e
  = PointField.rebuildPointField F (PointField.set_baseDensity F d e).
Proof.
  unfold PointField.setParams, only_density.
  cbn [p_speed p_density p_zoom p_zoomAuto].
  now destruct (PointField.rebuildPointField F _).
Qed.



End SetParamsFacts.






(** ** Rebuilds at creation *)

Lemma orbit_rebuild_fresh (e : Orbit.state) (n : Z) :
  Orbit.target e = of_Z n -> (0 <= n)%Z -> N (data e) <> of_Z n ->
  Orbit.rebuildPointField e
  = Some (emit (StatPoints (of_Z n))
            (Orbit.set_field (of_Z n)
               (Orbit.orbit_layout (Z.to_nat n) (Z.to_nat n)) e)).
Proof.
  intros Ht Hn Hne. unfold Orbit.rebuildPointField. rewrite Ht.
  rewrite strict_eqb_neq by congruence.
  now rewrite Float32Array_length_of_Z, loop_count_of_Z.
Qed.

Lemma orbit_rebuild_same (e : Orbit.state) (n : Z) :
  Orbit.target e = of_Z n -> N (data e) = of_Z n ->
  Orbit.rebuildPointField e = Some e.
Proof.
  intros Ht HN. unfold Orbit.rebuildPointField. rewrite Ht, HN.
  unfold of_Z. now rewrite strict_eqb_refl_Fin.
Qed.

Lemma DPR_of_one : Rmax 1 (Rmin 3 (or_one 1)) = 1.
Proof.
  unfold or_one. destruct (Req_dec_T 1 0) as [E|_]; [lra|].
  rewrite Rmin_right by lra. apply Rmax_left. lra.
Qed.

Lemma rebuild_fresh (F : Field) (e : PointField.state F) (n : Z) :
  PointField.target F e = of_Z n -> (0 <= n)%Z -> N (data e) <> of_Z n ->
  PointField.rebuildPointField F e
  = Some (emit (StatPoints (of_Z n))
            (consume (draws F * Z.to_nat n)
               (PointField.set_field F (of_Z n)
                  (layout F (Z.to_nat n) (Z.to_nat n) (random e)) e))).
Proof.
  intros Ht Hn Hne. unfold PointField.rebuildPointField, PointField.regenerate.
  rewrite Ht. rewrite strict_eqb_neq by congruence. cbn [andb].
  now rewrite Float32Array_length_of_Z, loop_count_of_Z.
Qed.

Lemma blank_not_built (n : Z) : (0 < n)%Z -> of_nat 0 <> of_Z n.
Proof.
  intros Hn. unfold of_nat, of_Z. cbn [INR]. intros [= E].
  apply IZR_lt in Hn. lra.
Qed.

(** What the statistics callback has received when [createAnimation]
    returns (paused, density 0.005, 800 x 600 window): the orbit field has
    reported its 6000 particles once, the template field twice. *)
Lemma orbit_creation_reports :
  exists e : Orbit.state,
    Orbit.createAnimation (Params None (Some (Fin 0.005)) None None)
      false true (fun _ => 0.5) 0 0 800 600 1 = Some e
    /\ N (data e) = of_Z 6000
    /\ stats e = [StatPoints (of_Z 6000)].
Proof.
  unfold Orbit.createAnimation. cbn [p_speed p_density p_zoom p_zoomAuto].
  unfold Orbit.fitCanvas, measure. rewrite !Int_part_IZR, DPR_of_one.
  change (set_viewport 800 600 1 _) with blank_orbit.
  rewrite orbit_blank_rebuild.
  unfold Orbit.setParams. cbn [p_speed p_density p_zoom p_zoomAuto].
  rewrite (orbit_rebuild_same _ 6000).
  - eexists. split; [reflexivity|]. split; reflexivity.
  - exact orbit_blank_target.
  - reflexivity.
Qed.

Lemma template_creation_reports :
  exists e : PointField.state templateField,
    PointField.createAnimation templateField
      (Params None (Some (Fin 0.005)) None None)
      false true (fun _ => 0.5) 0 0 800 600 1 = Some e
    /\ N (data e) = of_Z 6000
    /\ stats e = [StatPoints (of_Z 6000); StatPoints (of_Z 6000)].
Proof.
  unfold PointField.createAnimation.
  cbn [p_speed p_density p_zoom p_zoomAuto].
  unfold PointField.fitCanvas, measure. rewrite !Int_part_IZR, DPR_of_one.
  change (set_viewport 800 600 1 _) with blank_template.
  pose proof template_blank_target as Ht.
  pose proof (rebuild_fresh templateField blank_template 6000 Ht ltac:(lia)
                (blank_not_built 6000 ltac:(lia))) as He1.
  rewrite He1.
  set (e1 := emit (StatPoints (of_Z 6000)) _) in *.
  change (Params None (Some (Fin 0.005)) None None)
    with (only_density (Fin 0.005)).
  rewrite setParams_only_density.
  assert (Hsame : PointField.set_baseDensity templateField (Fin 0.005) e1
                  = e1) by reflexivity.
  rewrite Hsame.
  rewrite (rebuild_twice templateField blank_template e1
             ltac:(rewrite Ht; discriminate) He1).
  eexists. split; [reflexivity|]. split; reflexivity.
Qed.

(** C4.  In an 800 x 600 window at density 0.005, [createAnimation]
    rebuilds the field twice: in [fitCanvas()], which makes the 6000
    particles, and in [setParams(initialState)], with nothing changed.  The
    orbit field has then reported its count once, the template field twice.
    In general the second of two rebuilds at the same density and viewport
    returns the orbit engine as it is, without a call to the statistics
    callback, while in the template family it changes nothing either but
    reports the count; this for every target that is a number, which it is
    unless [d * W] overflows on a viewport of height 0. *)
Theorem orbit_redundant_rebuild_is_silent :
  (exists e : Orbit.state,
      Orbit.createAnimation (Params None (Some (Fin 0.005)) None None)
        false true (fun _ => 0.5) 0 0 800 600 1 = Some e
      /\ N (data e) = of_Z 6000
      /\ stats e = [StatPoints (of_Z 6000)])
  /\
  (exists e : PointField.state templateField,
      PointField.createAnimation templateField
        (Params None (Some (Fin 0.005)) None None)
        false true (fun _ => 0.5) 0 0 800 600 1 = Some e
      /\ N (data e) = of_Z 6000
      /\ stats e = [StatPoints (of_Z 6000); StatPoints (of_Z 6000)])
  /\
  (forall (e : Orbit.state) (d : R),
      (H e <> 0)%Z \/ Rabs (d * IZR (W e)) < overflow_threshold ->
      exists e1 : Orbit.state,
        Orbit.rebuildPointField (Orbit.set_baseDensity (Fin d) e) = Some e1
        /\ Orbit.rebuildPointField e1 = Some e1)
  /\
  (forall (F : Field) (e : PointField.state F) (d : R),
      (H e <> 0)%Z \/ Rabs (d * IZR (W e)) < overflow_threshold ->
      exists e1 : PointField.state F,
        PointField.rebuildPointField F (PointField.set_baseDensity F (Fin d) e)
        = Some e1
        /\ PointField.rebuildPointField F e1
           = Some (emit (StatPoints (N (data e1))) e1)).
Proof.
  split; [exact orbit_creation_reports|].
  split; [exact template_creation_reports|]. split.
  - intros e d Hc.
    destruct (orbit_rebuild_total (Orbit.set_baseDensity (Fin d) e))
      as [e1 He1].
    exists e1. split; [exact He1|].
    apply (orbit_rebuild_twice (Orbit.set_baseDensity (Fin d) e) e1);
      [|exact He1].
    now apply (orbit_target_not_NaN _ d).
  - intros F e d Hc.
    destruct (rebuild_total F (PointField.set_baseDensity F (Fin d) e))
      as [e1 He1].
    exists e1. split; [exact He1|].
    apply (rebuild_twice F (PointField.set_baseDensity F (Fin d) e) e1);
      [|exact He1].
    now apply (target_not_NaN F _ d).
Qed.

Lemma orbit_redundant_rebuild_is_silent_witness :
  (exists e1 : Orbit.state,
      Orbit.rebuildPointField (Orbit.set_baseDensity (Fin 0.005) blank_orbit)
      = Some e1
      /\ Orbit.rebuildPointField e1 = Some e1)
  /\
  (exists e1 : PointField.state templateField,
      PointField.rebuildPointField templateField
        (PointField.set_baseDensity templateField (Fin 0.005) blank_template)
      = Some e1
      /\ PointField.rebuildPointField templateField e1
         = Some (emit (StatPoints (N (data e1))) e1)).
Proof.
  destruct orbit_redundant_rebuild_is_silent as (_ & _ & HO & HP).
  split.
  - apply (HO blank_orbit 0.005). left. cbn. lia.
  - apply (HP templateField blank_template 0.005). left. cbn. lia.
Defined.

(** [zoomed_orbit] is the engine [createAnimation] returns. *)
Lemma zoomed_orbit_created :
  Orbit.createAnimation (Params None (Some (Fin 0.05)) (Some 4) None)
    true true (fun _ => 0.5) 0 0 800 600 1
  = Some zoomed_orbit.
Proof.
  unfold Orbit.createAnimation. cbn [p_speed p_density p_zoom p_zoomAuto].
  unfold Orbit.fitCanvas, measure. rewrite !Int_part_IZR.
  rewrite DPR_of_one.
  assert (Ht : forall e : Orbit.state,
             baseDensity (data e) = Fin 0.05 -> W e = 800%Z -> H e = 600%Z ->
             Orbit.target e = of_Z 24000).
  { intros e Hd Hw Hh.
    rewrite (orbit_target_exact e 0.05 40 Hd); rewrite ?Hw, ?Hh;
      [reflexivity|lra|lia|lia]. }
  rewrite (orbit_rebuild_fresh _ 24000).
  - unfold Orbit.setParams. cbn [p_speed p_density p_zoom p_zoomAuto].
    rewrite (orbit_rebuild_same _ 24000).
    + reflexivity.
    + apply Ht; reflexivity.
    + reflexivity.
  - apply Ht; reflexivity.
  - lia.
  - engine_simpl. unfold of_nat, of_Z. cbn [INR]. intros [= E]. lra.
Qed.

(** ** Reset *)

(** The template family: time and phase are zeroed, nothing else changes. *)
Lemma reset_template_family (F : Field) (e : PointField.state F) :
  let e' := PointField.reset F e in
  t (data e') = 0 /\ zoomPhase e' = 0
  /\ running e' = running e /\ rafId e' = rafId e
  /\ N (data e') = N (data e) /\ arrays (data e') = arrays (data e)
  /\ baseDensity (data e') = baseDensity (data e)
  /\ random e' = random e /\ stats e' = stats e.
Proof. cbn. repeat split. Qed.

Lemma nth_map_zero (l : list R) (j : nat) :
  nth j (map (fun _ => 0) l) 0 = 0.
Proof.
  revert j. induction l as [|x l IH]; intros [|j]; cbn; auto.
Qed.

(** The fire field: the whole buffer and the phase are zeroed, the grid
    keeps its dimensions. *)
Lemma reset_fire (e : Fire.state) :
  let e' := Fire.reset e in
  zoomPhase e' = 0
  /\ (forall j, nth j (Fire.buffer (data e')) 0 = 0)
  /\ length (Fire.buffer (data e')) = length (Fire.buffer (data e))
  /\ Fire.gridW (data e') = Fire.gridW (data e)
  /\ Fire.gridH (data e') = Fire.gridH (data e)
  /\ Fire.gridSize (data e') = Fire.gridSize (data e)
  /\ running e' = running e.
Proof.
  unfold Fire.reset. destruct (Fire.buffer (data e)) as [|x buf] eqn:Hb.
  - cbn. rewrite Hb. repeat split. intros j. now destruct j.
  - cbn [zoomPhase set_zoomPhase data Fire.set_buffer set_data Fire.buffer
         Fire.gridW Fire.gridH Fire.gridSize running].
    repeat split.
    + intros j. apply nth_map_zero.
    + now rewrite length_map.
Qed.

(** The orbit field: only the time is zeroed. *)
Lemma reset_orbit (e : Orbit.state) :
  let e' := Orbit.reset e in
  t (data e') = 0 /\ zoomPhase e' = zoomPhase e
  /\ running e' = running e
  /\ N (data e') = N (data e) /\ arrays (data e') = arrays (data e).
Proof. cbn. repeat split. Qed.

Lemma frame_dt_16 {D : Type} (e : engine D) :
  last e = 0 -> frame_dt 16 e = 0.016.
Proof.
  intros Hl. unfold frame_dt. rewrite Hl.
  replace ((16 - 0) / 1000) with 0.016 by lra.
  apply Rmax_right. lra.
Qed.

Lemma zoomed_orbit_breathing :
  Orbit.setParams (Params None None None (Some true)) zoomed_orbit
  = Some (set_zoomAuto true zoomed_orbit).
Proof. reflexivity. Qed.

Lemma orbit_breathing_frame :
  let e := Orbit.loop 16 (set_zoomAuto true zoomed_orbit) in
  zoomPhase e = 0.016 /\ 0 < t (data e).
Proof.
  cbn zeta. rewrite orbit_loop_running by reflexivity.
  rewrite frame_dt_16 by reflexivity. split.
  - unfold Orbit.integrate, breathe, zoomed_orbit. engine_simpl. lra.
  - rewrite orbit_integrate_t. unfold zoomed_orbit. engine_simpl.
    pose proof PI_bounds. nra.
Qed.

(** C7.  The orbit engine created in an 800 x 600 window, once auto-zoom is
    turned on, has after the frame at 16 ms a zoom phase of 0.016 and a
    positive logical time; [reset()] zeroes the time and leaves the phase as
    it is.  So does [reset()] on every orbit engine, while in the template
    family it zeroes both, and in the fire field it zeroes the phase and the
    whole grid; the run state and the particle arrays (or grid dimensions)
    are kept by all. *)
Theorem orbit_reset_keeps_zoom_phase :
  (exists e0 e1 : Orbit.state,
      Orbit.createAnimation (Params None (Some (Fin 0.05)) (Some 4) None)
        true true (fun _ => 0.5) 0 0 800 600 1 = Some e0
      /\ Orbit.setParams (Params None None None (Some true)) e0 = Some e1
      /\ zoomPhase (Orbit.loop 16 e1) = 0.016
      /\ 0 < t (data (Orbit.loop 16 e1))
      /\ t (data (Orbit.reset (Orbit.loop 16 e1))) = 0
      /\ zoomPhase (Orbit.reset (Orbit.loop 16 e1)) = 0.016
      /\ zoomPhase (Orbit.reset (Orbit.loop 16 e1)) <> 0)
  /\
  (forall e : Orbit.state,
      t (data (Orbit.reset e)) = 0
      /\ zoomPhase (Orbit.reset e) = zoomPhase e
      /\ running (Orbit.reset e) = running e
      /\ arrays (data (Orbit.reset e)) = arrays (data e))
  /\
  (forall (F : Field) (e : PointField.state F),
      t (data (PointField.reset F e)) = 0
      /\ zoomPhase (PointField.reset F e) = 0
      /\ running (PointField.reset F e) = running e
      /\ arrays (data (PointField.reset F e)) = arrays (data e))
  /\
  (forall e : Fire.state,
      zoomPhase (Fire.reset e) = 0
      /\ (forall j, nth j (Fire.buffer (data (Fire.reset e))) 0 = 0)
      /\ running (Fire.reset e) = running e
      /\ Fire.gridW (data (Fire.reset e)) = Fire.gridW (data e)
      /\ Fire.gridH (data (Fire.reset e)) = Fire.gridH (data e)).
Proof.
  split; [|split; [|split]].
  - exists zoomed_orbit, (set_zoomAuto true zoomed_orbit).
    split; [exact zoomed_orbit_created|].
    split; [exact zoomed_orbit_breathing|].
    destruct orbit_breathing_frame as [Hz Ht].
    destruct (reset_orbit (Orbit.loop 16 (set_zoomAuto true zoomed_orbit)))
      as (Ht0 & Hp & _).
    split; [exact Hz|]. split; [exact Ht|]. split; [exact Ht0|].
    rewrite Hp, Hz. split; [reflexivity|lra].
  - intros e. destruct (reset_orbit e) as (Ht & Hp & Hr & _ & Ha).
    repeat split; assumption.
  - intros F e.
    destruct (reset_template_family F e) as (Ht & Hp & Hr & _ & _ & Ha & _).
    repeat split; assumption.
  - intros e.
    destruct (reset_fire e) as (Hp & Hb & _ & Hw & Hh & _ & Hr).
    repeat split; assumption.
Qed.

(** ** Out-of-range densities *)

Lemma Int_part_nonpos (x : R) : x <= 0 -> (Int_part x <= 0)%Z.
Proof.
  intros Hx. apply le_IZR. destruct (base_Int_part x) as [Hle _]. lra.
Qed.

Section DensityFacts.
Variable F : Field.
Implicit Type e : PointField.state F.

Lemma target_set_density e (d : number) :
  PointField.target F (PointField.set_baseDensity F d e)
  = Math_min (of_Z (maxPoints F))
      (Math_max (of_Z (minPoints F))
         (Math_floor (mul (mul d (of_Z (W e))) (of_Z (H e))))).
Proof. reflexivity. Qed.

Lemma setParams_density_count e (d : number) :
  exists e',
    PointField.setParams F (only_density d) e = Some e'
    /\ N (data e')
       = Math_min (of_Z (maxPoints F))
           (Math_max (of_Z (minPoints F))
              (Math_floor (mul (mul d (of_Z (W e))) (of_Z (H e))))).
Proof.
  rewrite setParams_only_density.
  destruct (rebuild_total F (PointField.set_baseDensity F d e)) as [e' He'].
  exists e'. split; [exact He'|].
  rewrite (rebuild_sets_target F _ e' He'). apply target_set_density.
Qed.

End DensityFacts.

(** A [NaN] density goes through the clamp: the count becomes [NaN], which
    is not between the bounds.  So does the negative density [-2^1023] on a
    viewport 1000 wide and 0 high, where [d * W] is [-Infinity] and
    [-Infinity * 0] is [NaN]. *)
Lemma nan_density_is_not_clamped :
  (exists e' : PointField.state templateField,
      PointField.setParams templateField (only_density NaN) blank_template
      = Some e'
      /\ N (data e') = NaN
      /\ ~ (le (of_Z 6000) (N (data e')) /\ le (N (data e')) (of_Z 120000)))
  /\
  (exists e' : PointField.state templateField,
      PointField.setParams templateField (only_density (Fin (- bpow 1023)))
        collapsed_template
      = Some e'
      /\ - bpow 1023 < 0
      /\ N (data e') = NaN
      /\ N (data e') <> of_Z 6000).
Proof.
  split.
  - destruct (setParams_density_count templateField blank_template NaN)
      as (e' & He' & HN).
    exists e'. split; [exact He'|].
    assert (HN' : N (data e') = NaN) by (rewrite HN; reflexivity).
    split; [exact HN'|]. rewrite HN'. cbn. tauto.
  - destruct (setParams_density_count templateField collapsed_template
                (Fin (- bpow 1023))) as (e' & He' & HN).
    exists e'. split; [exact He'|].
    split; [pose proof (bpow_pos 1023); lra|].
    assert (HN' : N (data e') = NaN).
    { rewrite HN. unfold collapsed_template. engine_simpl.
      assert (E : mul (mul (Fin (- bpow 1023)) (of_Z 1000)) (of_Z 0) = NaN).
      { apply product_NaN. split; [|reflexivity].
        rewrite Rabs_left by (bpow_num; lra). bpow_num. lra. }
      now rewrite E. }
    split; [exact HN'|]. rewrite HN'. discriminate.
Qed.

(** C9, amended.  Whatever the density given to [setParams], no error comes
    out of it.  A negative (finite) density [d] on a viewport with
    [W, H >= 0] gives [minPoints] particles provided [H > 0] or [d * W] does
    not overflow, as does [-Infinity] on a non-empty viewport; whenever the
    product [d * W * H] is not [NaN] the count is within
    [minPoints, maxPoints].  For a finite density the product is [NaN]
    exactly when [d * W] overflows and [H] is 0; then, and with a [NaN]
    density, the count is [NaN] and the arrays are allocated empty. *)
Theorem bad_density_is_clamped_unless_nan :
  forall (F : Field) (e : PointField.state F),
    (forall d : number,
        exists e', PointField.setParams F (only_density d) e = Some e')
    /\ (forall r : R,
           r < 0 -> (0 <= W e)%Z -> (0 <= H e)%Z ->
           (0 < H e)%Z \/ Rabs (r * IZR (W e)) < overflow_threshold ->
           exists e',
             PointField.setParams F (only_density (Fin r)) e = Some e'
             /\ N (data e') = of_Z (minPoints F))
    /\ ((0 < W e)%Z -> (0 < H e)%Z ->
        exists e',
          PointField.setParams F (only_density NegInf) e = Some e'
          /\ N (data e') = of_Z (minPoints F))
    /\ (forall d : number,
           mul (mul d (of_Z (W e))) (of_Z (H e)) <> NaN ->
           exists e' n,
             PointField.setParams F (only_density d) e = Some e'
             /\ N (data e') = of_Z n
             /\ (minPoints F <= n <= maxPoints F)%Z)
    /\ (forall r : R,
           mul (mul (Fin r) (of_Z (W e))) (of_Z (H e)) = NaN
           <-> overflow_threshold <= Rabs (r * IZR (W e)) /\ H e = 0%Z)
    /\ (forall d : number,
           mul (mul d (of_Z (W e))) (of_Z (H e)) = NaN ->
           exists e',
             PointField.setParams F (only_density d) e = Some e'
             /\ N (data e') = NaN
             /\ attrs_length F (arrays (data e')) = 0%nat)
    /\ (exists e',
           PointField.setParams F (only_density NaN) e = Some e'
           /\ N (data e') = NaN
           /\ attrs_length F (arrays (data e')) = 0%nat).
Proof.
  intros F e. pose proof (bounds_ordered F) as Hb.
  assert (Hnan : forall d : number,
             mul (mul d (of_Z (W e))) (of_Z (H e)) = NaN ->
             exists e',
               PointField.setParams F (only_density d) e = Some e'
               /\ N (data e') = NaN
               /\ attrs_length F (arrays (data e')) = 0%nat).
  { intros d Hd. rewrite setParams_only_density.
    destruct (rebuild_total F (PointField.set_baseDensity F d e))
      as [e' He'].
    exists e'. split; [exact He'|].
    apply (rebuild_NaN_target F (PointField.set_baseDensity F d e) e');
      [|exact He'].
    rewrite target_set_density, Hd. reflexivity. }
  split; [|split; [|split; [|split; [|split; [|split]]]]].
  - intros d. destruct (setParams_density_count F e d) as (e' & He' & _).
    now exists e'.
  - intros r Hr Hw Hh Hc.
    destruct (setParams_density_count F e (Fin r)) as (e' & He' & HN).
    exists e'. split; [exact He'|].
    rewrite HN. apply clamp_nonpos; try assumption. lra.
  - intros Hw Hh.
    destruct (setParams_density_count F e NegInf) as (e' & He' & HN).
    exists e'. split; [exact He'|].
    rewrite HN, mul_NegInf_of_Z.
    destruct (Z.ltb_spec 0 (W e)) as [_|Hn]; [|lia].
    rewrite mul_NegInf_of_Z.
    destruct (Z.ltb_spec 0 (H e)) as [_|Hn]; [|lia].
    rewrite clamp_number by lia. reflexivity.
  - intros d Hd.
    destruct (setParams_density_count F e d) as (e' & He' & HN).
    destruct (clamp_number_shape (minPoints F) (maxPoints F)
                (mul (mul d (of_Z (W e))) (of_Z (H e))) Hb)
      as [[E _]|[_ (n & Hn & Hc)]]; [contradiction|].
    exists e', n. split; [exact He'|]. split; [|exact Hn].
    rewrite HN. exact Hc.
  - intros r. apply product_NaN.
  - exact Hnan.
  - apply Hnan. reflexivity.
Qed.

Lemma bad_density_is_clamped_unless_nan_witness :
  (exists e',
      PointField.setParams templateField (only_density (Fin (-1)))
        blank_template = Some e'
      /\ N (data e') = of_Z 6000)
  /\ (exists e',
         PointField.setParams templateField (only_density NegInf)
           blank_template = Some e'
         /\ N (data e') = of_Z 6000)
  /\ (exists e' n,
         PointField.setParams templateField (only_density PosInf)
           blank_template = Some e'
         /\ N (data e') = of_Z n
         /\ (6000 <= n <= 120000)%Z)
  /\ (exists e',
         PointField.setParams templateField
           (only_density (Fin (- bpow 1023))) collapsed_template = Some e'
         /\ N (data e') = NaN
         /\ length (xVals (arrays (data e'))) = 0%nat).
Proof.
  pose proof (bad_density_is_clamped_unless_nan templateField blank_template)
    as (_ & Hneg & Hninf & Hin & _).
  pose proof (bad_density_is_clamped_unless_nan templateField
                collapsed_template) as (_ & _ & _ & _ & Hiff & Hnan & _).
  split; [|split; [|split]].
  - apply (Hneg (-1)); [lra | cbn; lia | cbn; lia | left; cbn; lia].
  - apply Hninf; cbn; lia.
  - apply (Hin PosInf). cbn [W H blank_template blank].
    rewrite !mul_PosInf_of_Z. cbn. discriminate.
  - apply (Hnan (Fin (- bpow 1023))). apply Hiff.
    split; [|reflexivity]. cbn [W collapsed_template set_viewport].
    rewrite Rabs_left by (bpow_num; lra). bpow_num. lra.
Defined.

(** ** Orbit layout *)

Lemma filled_length (len cnt : nat) (f : nat -> R) :
  length (filled len cnt f) = len.
Proof. unfold filled. now rewrite length_map, length_seq. Qed.

Lemma nth_filled (len cnt : nat) (f : nat -> R) (i : nat) :
  (i < len)%nat -> (i < cnt)%nat -> nth i (filled len cnt f) 0 = f i.
Proof.
  intros Hl Hc. unfold filled.
  set (g := fun i => if (i <? cnt)%nat then f i else 0).
  rewrite (nth_indep _ 0 (g 0%nat)) by now rewrite length_map, length_seq.
  rewrite map_nth, seq_nth by assumption. cbn [Nat.add]. subst g. cbn beta.
  apply Nat.ltb_lt in Hc. now rewrite Hc.
Qed.

Lemma orbit_target_shape (e : Orbit.state) :
  Orbit.target e = NaN
  \/ exists n, (6000 <= n <= 120000)%Z /\ Orbit.target e = of_Z n.
Proof.
  unfold Orbit.target.
  destruct (clamp_number_shape Orbit.minPoints Orbit.maxPoints
              (mul (mul (baseDensity (data e)) (of_Z (W e))) (of_Z (H e))))
    as [[_ Hc]|[_ (n & Hn & Hc)]].
  - unfold Orbit.minPoints, Orbit.maxPoints. lia.
  - now left.
  - right. exists n. split; [exact Hn|exact Hc].
Qed.

Lemma orbit_target_length (e : Orbit.state) :
  Float32Array_length (Orbit.target e) = Some (loop_count (Orbit.target e)).
Proof.
  destruct (orbit_target_shape e) as [->|(n & Hn & ->)]; [reflexivity|].
  rewrite Float32Array_length_of_Z by lia. now rewrite loop_count_of_Z.
Qed.

(** Every operation of the module keeps the arrays canonical. *)
Lemma orbit_rebuild_canonical (e e' : Orbit.state) :
  orbit_canonical e -> Orbit.rebuildPointField e = Some e' ->
  orbit_canonical e'.
Proof.
  intros Hc. unfold Orbit.rebuildPointField.
  destruct (strict_eqb _ _); [now intros [= <-]|].
  rewrite orbit_target_length. intros [= <-]. reflexivity.
Qed.

Lemma orbit_canonical_data (e e' : Orbit.state) :
  N (data e') = N (data e) -> arrays (data e') = arrays (data e) ->
  orbit_canonical e -> orbit_canonical e'.
Proof. unfold orbit_canonical. now intros -> ->. Qed.

Lemma orbit_fitCanvas_canonical (w h dpr : R) (e e' : Orbit.state) :
  orbit_canonical e -> Orbit.fitCanvas w h dpr e = Some e' ->
  orbit_canonical e'.
Proof.
  intros Hc. unfold Orbit.fitCanvas.
  apply orbit_rebuild_canonical. exact Hc.
Qed.

Lemma orbit_setParams_canonical (p : params number) (e e' : Orbit.state) :
  orbit_canonical e -> Orbit.setParams p e = Some e' -> orbit_canonical e'.
Proof.
  intros Hc. unfold Orbit.setParams.
  set (e0 := match p_speed p with
             | Some s => emit (StatSpeed s) (set_speed s e)
             | None => e
             end).
  assert (Hc0 : orbit_canonical e0).
  { subst e0. destruct (p_speed p); exact Hc. }
  destruct (p_density p) as [d|].
  - destruct (Orbit.rebuildPointField _) as [e1|] eqn:He1; [|discriminate].
    assert (Hc1 : orbit_canonical e1).
    { apply (orbit_rebuild_canonical (Orbit.set_baseDensity d e0)); [|exact He1].
      exact Hc0. }
    intros [= <-].
    destruct (p_zoom p), (p_zoomAuto p) as [[|]|]; exact Hc1.
  - intros [= <-].
    destruct (p_zoom p), (p_zoomAuto p) as [[|]|]; exact Hc0.
Qed.

Lemma orbit_loop_canonical (now : R) (e : Orbit.state) :
  orbit_canonical e -> orbit_canonical (Orbit.loop now e).
Proof.
  intros Hc. unfold Orbit.loop.
  destruct (negb (running e)); [exact Hc|].
  unfold Orbit.integrate, breathe. engine_simpl.
  destruct (zoomAuto e); exact Hc.
Qed.

Lemma orbit_reset_canonical (e : Orbit.state) :
  orbit_canonical e -> orbit_canonical (Orbit.reset e).
Proof. intros Hc. exact Hc. Qed.

Lemma orbit_play_canonical (now : R) (e : Orbit.state) :
  orbit_canonical e -> orbit_canonical (play now e).
Proof. intros Hc. unfold play. destruct (running e); exact Hc. Qed.

Lemma orbit_pause_canonical (e : Orbit.state) :
  orbit_canonical e -> orbit_canonical (pause e).
Proof.
  intros Hc. unfold orbit_canonical. now rewrite pause_data.
Qed.

Lemma loop_count_zero : loop_count (of_nat 0) = 0%nat.
Proof. unfold loop_count, of_nat. now rewrite Int_part_INR. Qed.

Lemma orbit_createAnimation_canonical (ini : params number)
    (start callback : bool) (rnd : nat -> R) (now0 now1 w h dpr : R)
    (e : Orbit.state) :
  Orbit.createAnimation ini start callback rnd now0 now1 w h dpr = Some e ->
  orbit_canonical e.
Proof.
  unfold Orbit.createAnimation.
  destruct (Orbit.fitCanvas _ _ _ _) as [e1|] eqn:He1; [|discriminate].
  destruct (Orbit.setParams ini e1) as [e2|] eqn:He2; [|discriminate].
  intros [= <-].
  assert (Hc1 : orbit_canonical e1).
  { eapply orbit_fitCanvas_canonical; [|exact He1].
    unfold orbit_canonical. engine_simpl. now rewrite loop_count_zero. }
  pose proof (orbit_setParams_canonical ini e1 e2 Hc1 He2) as Hc2.
  destruct start; [now apply orbit_play_canonical|exact Hc2].
Qed.

(** C10.  The orbit layout is a function of the particle count alone: two
    rebuilds (of engines whose arrays are canonical, as every reachable
    engine's are) that compute the same target leave element-wise identical
    [xVals] and [yVals]; the arrays have one element per particle, the
    [i]-th being [(i + 1) mod 200] and [(i + 1) / 43]. *)
Theorem orbit_layout_is_deterministic :
  forall (e1 e2 e1' e2' : Orbit.state),
    orbit_canonical e1 -> orbit_canonical e2 ->
    Orbit.rebuildPointField e1 = Some e1' ->
    Orbit.rebuildPointField e2 = Some e2' ->
    Orbit.target e1 = Orbit.target e2 ->
    xVals (arrays (data e1')) = xVals (arrays (data e2'))
    /\ yVals (arrays (data e1')) = yVals (arrays (data e2'))
    /\ length (xVals (arrays (data e1'))) = loop_count (N (data e1'))
    /\ length (yVals (arrays (data e1'))) = loop_count (N (data e1'))
    /\ forall i, (i < loop_count (N (data e1')))%nat ->
         nth i (xVals (arrays (data e1'))) 0 = IZR (Z.of_nat (i + 1) mod 200)
         /\ nth i (yVals (arrays (data e1'))) 0 = INR (i + 1) / 43.
Proof.
  intros e1 e2 e1' e2' Hc1 Hc2 He1 He2 Ht.
  pose proof (orbit_rebuild_canonical e1 e1' Hc1 He1) as Hc1'.
  pose proof (orbit_rebuild_canonical e2 e2' Hc2 He2) as Hc2'.
  pose proof (orbit_rebuild_sets_target e1 e1' He1) as HN1.
  pose proof (orbit_rebuild_sets_target e2 e2' He2) as HN2.
  unfold orbit_canonical in Hc1', Hc2'.
  assert (HN : N (data e2') = N (data e1')) by congruence.
  rewrite HN in Hc2'. rewrite Hc1', Hc2'.
  cbn [xVals yVals Orbit.orbit_layout].
  split; [reflexivity|]. split; [reflexivity|].
  split; [apply filled_length|]. split; [apply filled_length|].
  intros i Hi. split; apply nth_filled; assumption.
Qed.

Lemma blank_orbit_canonical : orbit_canonical blank_orbit.
Proof.
  unfold orbit_canonical, blank_orbit. engine_simpl.
  now rewrite loop_count_zero.
Qed.

Lemma sparse_orbit_canonical : orbit_canonical sparse_orbit.
Proof.
  unfold orbit_canonical, sparse_orbit. engine_simpl.
  now rewrite loop_count_zero.
Qed.

Lemma sparse_orbit_target : Orbit.target sparse_orbit = of_Z 6000.
Proof.
  unfold Orbit.target, Orbit.minPoints, Orbit.maxPoints, sparse_orbit.
  engine_simpl. apply (clamp_low _ _ _ _ _ 1); try lia. lra.
Qed.

Lemma orbit_layout_is_deterministic_witness :
  exists e1' e2' : Orbit.state,
    Orbit.rebuildPointField blank_orbit = Some e1'
    /\ Orbit.rebuildPointField sparse_orbit = Some e2'
    /\ xVals (arrays (data e1')) = xVals (arrays (data e2'))
    /\ yVals (arrays (data e1')) = yVals (arrays (data e2')).
Proof.
  destruct (orbit_rebuild_total blank_orbit) as [e1' He1].
  destruct (orbit_rebuild_total sparse_orbit) as [e2' He2].
  exists e1', e2'. split; [exact He1|]. split; [exact He2|].
  destruct (orbit_layout_is_deterministic blank_orbit sparse_orbit e1' e2')
    as (Hx & Hy & _).
  - exact blank_orbit_canonical.
  - exact sparse_orbit_canonical.
  - exact He1.
  - exact He2.
  - rewrite orbit_blank_target, sparse_orbit_target. reflexivity.
  - split; assumption.
Defined.

(** ** Orbit framing *)

Lemma fold_lower_spec (vs : list R) (acc : option R) :
  match fold_left Orbit.lower vs acc with
  | None => acc = None /\ vs = []
  | Some m =>
    (forall v, In v vs -> m <= v)
    /\ (forall a, acc = Some a -> m <= a)
    /\ (In m vs \/ acc = Some m)
  end.
Proof.
  revert acc. induction vs as [|v vs IH]; intros acc.
  - cbn. destruct acc as [a|]; [|now split].
    split; [intros ? []|]. split; [intros ? [= ->]; lra|now right].
  - cbn [fold_left]. specialize (IH (Orbit.lower acc v)).
    destruct (fold_left Orbit.lower vs (Orbit.lower acc v)) as [m|].
    + destruct IH as (Hall & Hacc & Hin).
      assert (Hv : m <= v /\ (forall a, acc = Some a -> m <= a)).
      { unfold Orbit.lower in Hacc. destruct acc as [a|].
        - destruct (Rlt_dec v a) as [Hlt|Hge].
          + pose proof (Hacc v eq_refl). split; [assumption|].
            intros ? [= <-]. lra.
          + pose proof (Hacc a eq_refl). split; [lra|].
            now intros ? [= <-].
        - split; [now apply Hacc|discriminate]. }
      destruct Hv as [Hv Ha]. split; [|split; [exact Ha|]].
      * intros w [<-|Hw]; [exact Hv|now apply Hall].
      * destruct Hin as [Hin|Hin]; [left; now right|].
        unfold Orbit.lower in Hin. destruct acc as [a|].
        -- destruct (Rlt_dec v a); injection Hin as <-;
             [left; now left|now right].
        -- injection Hin as <-. left; now left.
    + destruct IH as [Hn _]. unfold Orbit.lower in Hn.
      destruct acc as [a|]; [destruct (Rlt_dec v a)|]; discriminate.
Qed.

Lemma fold_upper_spec (vs : list R) (acc : option R) :
  match fold_left Orbit.upper vs acc with
  | None => acc = None /\ vs = []
  | Some m =>
    (forall v, In v vs -> v <= m)
    /\ (forall a, acc = Some a -> a <= m)
    /\ (In m vs \/ acc = Some m)
  end.
Proof.
  revert acc. induction vs as [|v vs IH]; intros acc.
  - cbn. destruct acc as [a|]; [|now split].
    split; [intros ? []|]. split; [intros ? [= ->]; lra|now right].
  - cbn [fold_left]. specialize (IH (Orbit.upper acc v)).
    destruct (fold_left Orbit.upper vs (Orbit.upper acc v)) as [m|].
    + destruct IH as (Hall & Hacc & Hin).
      assert (Hv : v <= m /\ (forall a, acc = Some a -> a <= m)).
      { unfold Orbit.upper in Hacc. destruct acc as [a|].
        - destruct (Rlt_dec a v) as [Hlt|Hge].
          + pose proof (Hacc v eq_refl). split; [assumption|].
            intros ? [= <-]. lra.
          + pose proof (Hacc a eq_refl). split; [lra|].
            now intros ? [= <-].
        - split; [now apply Hacc|discriminate]. }
      destruct Hv as [Hv Ha]. split; [|split; [exact Ha|]].
      * intros w [<-|Hw]; [exact Hv|now apply Hall].
      * destruct Hin as [Hin|Hin]; [left; now right|].
        unfold Orbit.upper in Hin. destruct acc as [a|].
        -- destruct (Rlt_dec a v); injection Hin as <-;
             [left; now left|now right].
        -- injection Hin as <-. left; now left.
    + destruct IH as [Hn _]. unfold Orbit.upper in Hn.
      destruct acc as [a|]; [destruct (Rlt_dec a v)|]; discriminate.
Qed.

Lemma fold_grow (pts : list (R * R)) (b : Orbit.box) :
  let r := fold_left Orbit.grow pts b in
  Orbit.minX r = fold_left Orbit.lower (map fst pts) (Orbit.minX b)
  /\ Orbit.maxX r = fold_left Orbit.upper (map fst pts) (Orbit.maxX b)
  /\ Orbit.minY r = fold_left Orbit.lower (map snd pts) (Orbit.minY b)
  /\ Orbit.maxY r = fold_left Orbit.upper (map snd pts) (Orbit.maxY b).
Proof.
  revert b. induction pts as [|p pts IH]; intros b; cbn zeta.
  - repeat split.
  - cbn [fold_left map]. apply (IH (Orbit.grow b p)).
Qed.

(** The box of a non-empty list of points is finite, contains them, and its
    sides are reached. *)
Lemma bounding_box_spec (pts : list (R * R)) :
  pts <> [] ->
  exists a b c d,
    Orbit.bounding_box pts = Orbit.Box (Some a) (Some b) (Some c) (Some d)
    /\ (forall p, In p pts -> a <= fst p <= b /\ c <= snd p <= d)
    /\ (exists p, In p pts /\ fst p = a)
    /\ (exists p, In p pts /\ fst p = b)
    /\ (exists p, In p pts /\ snd p = c)
    /\ (exists p, In p pts /\ snd p = d).
Proof.
  intros Hne. unfold Orbit.bounding_box.
  destruct (fold_grow pts (Orbit.Box None None None None))
    as (H1 & H2 & H3 & H4).
  destruct (fold_left Orbit.grow pts _) as [mx Mx my My].
  cbn [Orbit.minX Orbit.maxX Orbit.minY Orbit.maxY] in *.
  pose proof (fold_lower_spec (map fst pts) None) as L1.
  pose proof (fold_upper_spec (map fst pts) None) as U1.
  pose proof (fold_lower_spec (map snd pts) None) as L2.
  pose proof (fold_upper_spec (map snd pts) None) as U2.
  rewrite <- H1 in L1. rewrite <- H2 in U1.
  rewrite <- H3 in L2. rewrite <- H4 in U2.
  assert (Hm : forall f : R * R -> R, map f pts <> []).
  { intros f E. apply map_eq_nil in E. contradiction. }
  destruct mx as [a|]; [|destruct L1 as [_ E]; now apply Hm in E].
  destruct Mx as [b|]; [|destruct U1 as [_ E]; now apply Hm in E].
  destruct my as [c|]; [|destruct L2 as [_ E]; now apply Hm in E].
  destruct My as [d|]; [|destruct U2 as [_ E]; now apply Hm in E].
  destruct L1 as (La & _ & [Lin|Lin]); [|discriminate].
  destruct U1 as (Ub & _ & [Uin|Uin]); [|discriminate].
  destruct L2 as (Lc & _ & [Lin2|Lin2]); [|discriminate].
  destruct U2 as (Ud & _ & [Uin2|Uin2]); [|discriminate].
  exists a, b, c, d. split; [reflexivity|]. split.
  - intros p Hp.
    pose proof (La _ (in_map fst _ _ Hp)). pose proof (Ub _ (in_map fst _ _ Hp)).
    pose proof (Lc _ (in_map snd _ _ Hp)). pose proof (Ud _ (in_map snd _ _ Hp)).
    lra.
  - apply in_map_iff in Lin as (p1 & E1 & I1).
    apply in_map_iff in Uin as (p2 & E2 & I2).
    apply in_map_iff in Lin2 as (p3 & E3 & I3).
    apply in_map_iff in Uin2 as (p4 & E4 & I4).
    repeat split; eauto.
Qed.

Lemma Rabs_bound (x b : R) : Rabs x <= b -> - b <= x <= b.
Proof.
  intros Hx. unfold Rabs in Hx. destruct (Rcase_abs x); lra.
Qed.

Lemma or_one_pos (x : R) : 0 <= x -> 0 < or_one x /\ x <= or_one x.
Proof.
  intros Hx. unfold or_one. destruct (Req_dec_T x 0) as [->|Hn]; lra.
Qed.

(** The centred, scaled coordinate stays within half the margin box. *)
Lemma fit_half_extent (lo hi v side other bw : R) :
  lo <= v <= hi -> 0 <= side -> 0 <= other ->
  0 < bw -> hi - lo <= bw ->
  Rabs ((v - (lo + hi) * 0.5) * Rmin (side * Orbit.margin / bw) other)
  <= side * Orbit.margin / 2.
Proof.
  intros Hv Hs Ho Hbw Hle. unfold Orbit.margin.
  set (s0 := Rmin (side * 0.92 / bw) other).
  assert (Hq : 0 <= side * 0.92 / bw).
  { apply Rmult_le_pos; [lra|]. left. now apply Rinv_0_lt_compat. }
  assert (Hs0 : 0 <= s0) by (unfold s0; apply Rmin_glb; assumption).
  assert (Hs1 : s0 * bw <= side * 0.92).
  { assert (s0 <= side * 0.92 / bw) by apply Rmin_l.
    replace (side * 0.92) with (side * 0.92 / bw * bw) by (field; lra).
    apply Rmult_le_compat_r; lra. }
  apply Rabs_le. split; nra.
Qed.

Lemma zoomNow_range (e : Orbit.state) :
  0 <= zoom e ->
  0 <= Orbit.zoomNow e <= 1.06 * zoom e.
Proof.
  intros Hz. unfold Orbit.zoomNow, effective_zoom.
  destruct (zoomAuto e); [|lra].
  pose proof (SIN_bound (2 * PI * 0.08 * zoomPhase e)). nra.
Qed.

(** Where the second pass of [loop] puts the curve. *)
Lemma mapped_point_extent (e : Orbit.state) (p : R * R) :
  (0 <= W e)%Z -> (0 <= H e)%Z ->
  In p (Orbit.mapped_points e) ->
  Rabs (fst p - IZR (W e) / 2) <= 0.46 * Rabs (Orbit.zoomNow e) * IZR (W e)
  /\ Rabs (snd p - IZR (H e) / 2)
     <= 0.46 * Rabs (Orbit.zoomNow e) * IZR (H e).
Proof.
  intros Hw Hh. apply IZR_le in Hw, Hh. unfold Orbit.mapped_points.
  set (pts := Orbit.curve_points e). set (z := Orbit.zoomNow e).
  destruct pts as [|p0 pts'] eqn:Hpts; [intros []|].
  destruct (bounding_box_spec (p0 :: pts')) as (a & b & c & d & Hb & Hin & _);
    [discriminate|].
  rewrite Hb. cbn [Orbit.fit_of Orbit.minX Orbit.maxX Orbit.minY Orbit.maxY
                   Orbit.scale Orbit.offX Orbit.offY].
  intros Hp. apply in_map_iff in Hp as (q & <- & Hq).
  destruct (Hin q Hq) as [Hx Hy]. cbn [fst snd].
  destruct (or_one_pos (b - a)) as [Hbw1 Hbw2]; [lra|].
  destruct (or_one_pos (d - c)) as [Hbh1 Hbh2]; [lra|].
  set (bw := or_one (b - a)) in *. set (bh := or_one (d - c)) in *.
  assert (Hqw : 0 <= IZR (W e) * Orbit.margin / bw).
  { unfold Orbit.margin. apply Rmult_le_pos; [lra|].
    left. now apply Rinv_0_lt_compat. }
  assert (Hqh : 0 <= IZR (H e) * Orbit.margin / bh).
  { unfold Orbit.margin. apply Rmult_le_pos; [lra|].
    left. now apply Rinv_0_lt_compat. }
  pose proof (fit_half_extent a b (fst q) (IZR (W e))
                (IZR (H e) * Orbit.margin / bh) bw Hx Hw Hqh Hbw1 Hbw2) as Ex.
  pose proof (fit_half_extent c d (snd q) (IZR (H e))
                (IZR (W e) * Orbit.margin / bw) bh Hy Hh Hqw Hbh1 Hbh2) as Ey.
  rewrite Rmin_comm in Ey.
  set (s0 := Rmin (IZR (W e) * Orbit.margin / bw)
                  (IZR (H e) * Orbit.margin / bh)) in *.
  unfold Orbit.margin in Ex, Ey. clearbody s0 z.
  split.
  - replace (fst q * (s0 * z) + (IZR (W e) * 0.5 - (a + b) * 0.5 * (s0 * z))
             - IZR (W e) / 2)
      with ((fst q - (a + b) * 0.5) * s0 * z) by lra.
    rewrite Rabs_mult. pose proof (Rabs_pos z).
    replace (0.46 * Rabs z * IZR (W e))
      with (IZR (W e) * 0.92 / 2 * Rabs z) by lra.
    apply Rmult_le_compat_r; assumption.
  - replace (snd q * (s0 * z) + (IZR (H e) * 0.5 - (c + d) * 0.5 * (s0 * z))
             - IZR (H e) / 2)
      with ((snd q - (c + d) * 0.5) * s0 * z) by lra.
    rewrite Rabs_mult. pose proof (Rabs_pos z).
    replace (0.46 * Rabs z * IZR (H e))
      with (IZR (H e) * 0.92 / 2 * Rabs z) by lra.
    apply Rmult_le_compat_r; assumption.
Qed.

Lemma orbit_loop_keeps (now : R) (e : Orbit.state) :
  let e' := Orbit.loop now e in
  W e' = W e /\ H e' = H e /\ zoom e' = zoom e /\ zoomAuto e' = zoomAuto e
  /\ N (data e') = N (data e) /\ arrays (data e') = arrays (data e).
Proof.
  cbn zeta. unfold Orbit.loop.
  destruct (negb (running e)); [repeat split|].
  unfold Orbit.integrate, breathe. engine_simpl.
  destruct (zoomAuto e) eqn:Ha; engine_simpl; repeat split; exact Ha.
Qed.

(** C6, amended.  On the frame drawn by [loop(now)], every mapped
    coordinate lies in the viewport scaled about its centre by
    [0.92 * zoomNow]: at most [0.46 * |zoomNow| * W] from [W / 2]
    horizontally and [0.46 * |zoomNow| * H] from [H / 2] vertically; so the
    whole curve is inside the viewport when [0 <= zoom <= 1], with auto-zoom
    on or off. *)
Theorem orbit_curve_fits_zoomed_margin_box :
  forall (e0 : Orbit.state) (now : R) (p : R * R),
    (0 <= W e0)%Z -> (0 <= H e0)%Z ->
    let e := Orbit.loop now e0 in
    In p (Orbit.mapped_points e) ->
    (Rabs (fst p - IZR (W e0) / 2)
     <= 0.46 * Rabs (Orbit.zoomNow e) * IZR (W e0)
     /\ Rabs (snd p - IZR (H e0) / 2)
        <= 0.46 * Rabs (Orbit.zoomNow e) * IZR (H e0))
    /\ (0 <= zoom e0 <= 1 ->
        0 <= fst p <= IZR (W e0) /\ 0 <= snd p <= IZR (H e0)).
Proof.
  intros e0 now p Hw Hh e Hp.
  destruct (orbit_loop_keeps now e0) as (HW & HH & HZ & _).
  fold e in HW, HH, HZ.
  destruct (mapped_point_extent e p) as [Ex Ey];
    [now rewrite HW | now rewrite HH | exact Hp |].
  rewrite HW in Ex. rewrite HH in Ey.
  split; [split; assumption|].
  intros Hz. rewrite <- HZ in Hz.
  destruct (zoomNow_range e) as [Hz0 Hz1]; [lra|].
  rewrite (Rabs_pos_eq _ Hz0) in Ex, Ey.
  apply IZR_le in Hw, Hh.
  apply Rabs_bound in Ex, Ey. split; nra.
Qed.


(** *** The curve leaves the viewport at zoom 4 *)

Lemma second_quadrant (c : R) : 1.9 <= c <= 2.3 -> 0 < sin c /\ cos c < 0.
Proof.
  intros Hc. pose proof PI_bounds. split.
  - apply sin_gt_0; lra.
  - apply cos_lt_0; lra.
Qed.

Lemma fourth_quadrant (c : R) : 5.21 <= c <= 5.5 -> sin c < 0 /\ 0 < cos c.
Proof.
  intros Hc. pose proof PI_bounds. split.
  - apply sin_lt_0; lra.
  - replace c with ((c - 2 * PI) + 2 * INR 1 * PI) by (cbn; lra).
    rewrite cos_period. apply cos_gt_0; lra.
Qed.

(** The curve is [(q sin c, (q + 9 d) cos c)] with [q >= 37], [d >= 4] and
    [c] within 25 / 118 of [2 + e^2 / 118 + e / 99 - t / 18]. *)
Lemma curve_shape (xv yv t : R) :
  let e := yv / 8 - 13 in
  exists q d c,
    Orbit.curve xv yv t = (q * sin c, (q + d * 9) * cos c)
    /\ 37 <= q /\ 4 <= d
    /\ 2 + e * e / 118 + e / 99 - t / 18 <= c
       <= 2 + 25 / 118 + e * e / 118 + e / 99 - t / 18.
Proof.
  cbn zeta. unfold Orbit.curve.
  set (k := 5 * cos (xv / 14) * cos (yv / 30)).
  set (e := yv / 8 - 13).
  set (d := (k * k + e * e) / 59 + 4).
  set (s1 := sin (Math_atan2 k e * e)).
  set (s2 := sin (d * d - t * 2)).
  assert (Hk : -5 <= k <= 5).
  { pose proof (COS_bound (xv / 14)). pose proof (COS_bound (yv / 30)).
    unfold k. split; nra. }
  assert (Hkk : 0 <= k * k <= 25) by (split; nra).
  assert (Hee : 0 <= e * e) by nra.
  assert (Hd : 4 <= d <= 4 + 25 / 59 + e * e / 59) by (unfold d; lra).
  assert (Hu : 0 < 4 / d <= 1).
  { split.
    - apply Rdiv_lt_0_compat; lra.
    - apply Rmult_le_reg_r with (r := d); [lra|].
      unfold Rdiv. rewrite Rmult_assoc, Rinv_l by lra. lra. }
  pose proof (SIN_bound (Math_atan2 k e * e)) as Hs1. fold s1 in Hs1.
  pose proof (SIN_bound (d * d - t * 2)) as Hs2. fold s2 in Hs2.
  set (u := 4 / d) in *.
  assert (Hw : 2 <= 3 + u * s2 <= 4) by (split; nra).
  assert (Hkw : -20 <= k * (3 + u * s2) <= 20) by (split; nra).
  exists (60 - 3 * s1 + k * (3 + u * s2)), d, (d / 2 + e / 99 - t / 18).
  split; [reflexivity|]. split; [lra|]. split; [lra|].
  unfold d. lra.
Qed.

(** Particle 4472 ([xv = 72], [yv = 104]) is right of and above the origin
    of the curve, particle 11008 ([xv = 8], [yv = 256]) left of and below
    it, early in the animation. *)
Lemma curve_sample_A (t : R) :
  0 <= t <= 0.1 ->
  0 < fst (Orbit.curve 72 104 t) /\ snd (Orbit.curve 72 104 t) < 0.
Proof.
  intros Ht.
  destruct (curve_shape 72 104 t) as (q & d & c & -> & Hq & Hd & Hc).
  cbn [fst snd].
  replace (104 / 8 - 13) with 0 in Hc by lra.
  destruct (second_quadrant c) as [Hs Hco]; [lra|].
  split; nra.
Qed.

Lemma curve_sample_B (t : R) :
  0 <= t <= 0.1 ->
  fst (Orbit.curve 8 256 t) < 0 /\ 0 < snd (Orbit.curve 8 256 t).
Proof.
  intros Ht.
  destruct (curve_shape 8 256 t) as (q & d & c & -> & Hq & Hd & Hc).
  cbn [fst snd].
  replace (256 / 8 - 13) with 19 in Hc by lra.
  destruct (fourth_quadrant c) as [Hs Hco]; [lra|].
  split; nra.
Qed.

Lemma or_one_nonzero (x : R) : x <> 0 -> or_one x = x.
Proof.
  intros Hx. unfold or_one. destruct (Req_dec_T x 0); [contradiction|].
  reflexivity.
Qed.

(** When the curve has some width and some height, the point on the right
    side or the one on the top side of its box is mapped exactly onto the
    scaled margin. *)
Lemma extreme_point_mapped (e : Orbit.state) :
  (0 < W e)%Z -> (0 < H e)%Z ->
  (exists p q, In p (Orbit.curve_points e) /\ In q (Orbit.curve_points e)
               /\ fst p < fst q) ->
  (exists p q, In p (Orbit.curve_points e) /\ In q (Orbit.curve_points e)
               /\ snd p < snd q) ->
  exists p,
    In p (Orbit.mapped_points e)
    /\ (fst p = IZR (W e) / 2 + 0.46 * Orbit.zoomNow e * IZR (W e)
        \/ snd p = IZR (H e) / 2 + 0.46 * Orbit.zoomNow e * IZR (H e)).
Proof.
  intros Hw Hh (p1 & q1 & Hp1 & Hq1 & Hx) (p2 & q2 & Hp2 & Hq2 & Hy).
  apply IZR_lt in Hw, Hh. unfold Orbit.mapped_points.
  set (pts := Orbit.curve_points e) in *. set (z := Orbit.zoomNow e).
  destruct (bounding_box_spec pts)
    as (a & b & c & d & Hb & Hin & _ & (pb & Hpb & Eb) & _ & (pd & Hpd & Ed)).
  { intros E. rewrite E in Hp1. destruct Hp1. }
  rewrite Hb. cbn [Orbit.fit_of Orbit.minX Orbit.maxX Orbit.minY Orbit.maxY
                   Orbit.scale Orbit.offX Orbit.offY].
  assert (Hab : 0 < b - a).
  { pose proof (Hin p1 Hp1). pose proof (Hin q1 Hq1). lra. }
  assert (Hcd : 0 < d - c).
  { pose proof (Hin p2 Hp2). pose proof (Hin q2 Hq2). lra. }
  rewrite (or_one_nonzero (b - a)) by lra.
  rewrite (or_one_nonzero (d - c)) by lra.
  unfold Orbit.margin.
  set (w := IZR (W e)) in *. set (h := IZR (H e)) in *. clearbody w h z.
  destruct (Rle_dec (w * 0.92 / (b - a)) (h * 0.92 / (d - c)))
    as [Hle|Hgt].
  - rewrite Rmin_left by exact Hle.
    eexists. split; [apply in_map; exact Hpb|].
    left. cbn [fst]. rewrite Eb.
    replace 0.92 with (23 / 25) by lra. replace 0.5 with (/ 2) by lra.
    replace 0.46 with (23 / 50) by lra. field. lra.
  - rewrite Rmin_right by lra.
    eexists. split; [apply in_map; exact Hpd|].
    right. cbn [snd]. rewrite Ed.
    replace 0.92 with (23 / 25) by lra. replace 0.5 with (/ 2) by lra.
    replace 0.46 with (23 / 50) by lra. field. lra.
Qed.

Lemma zoomed_frame :
  let e := Orbit.loop 16 zoomed_orbit in
  W e = 800%Z /\ H e = 600%Z /\ Orbit.zoomNow e = 4
  /\ N (data e) = of_Z 24000
  /\ arrays (data e) = Orbit.orbit_layout (Z.to_nat 24000) (Z.to_nat 24000)
  /\ 0 <= t (data e) <= 0.1.
Proof.
  cbn zeta.
  destruct (orbit_loop_keeps 16 zoomed_orbit) as (HW & HH & HZ & HA & HN & HR).
  split; [exact HW|]. split; [exact HH|].
  split; [unfold Orbit.zoomNow, effective_zoom; now rewrite HA, HZ|].
  split; [exact HN|]. split; [exact HR|].
  rewrite orbit_loop_running by reflexivity.
  rewrite orbit_integrate_t, frame_dt_16 by reflexivity.
  unfold zoomed_orbit. engine_simpl. pose proof PI_bounds. split; nra.
Qed.

Lemma zoomed_particle (i : nat) :
  (i < Z.to_nat 24000)%nat ->
  In (Orbit.curve (IZR (Z.of_nat (i + 1) mod 200)) (INR (i + 1) / 43)
        (t (data (Orbit.loop 16 zoomed_orbit))))
     (Orbit.curve_points (Orbit.loop 16 zoomed_orbit)).
Proof.
  intros Hi. destruct zoomed_frame as (_ & _ & _ & HN & HA & _).
  unfold Orbit.curve_points. rewrite HN, HA, loop_count_of_Z.
  cbn [xVals yVals Orbit.orbit_layout].
  apply in_map_iff. exists i. split.
  - rewrite !nth_filled by assumption. reflexivity.
  - apply in_seq. lia.
Qed.

Lemma zoomed_samples :
  let e := Orbit.loop 16 zoomed_orbit in
  In (Orbit.curve 72 104 (t (data e))) (Orbit.curve_points e)
  /\ In (Orbit.curve 8 256 (t (data e))) (Orbit.curve_points e).
Proof.
  cbn zeta. split.
  - pose proof (zoomed_particle (Z.to_nat 4471)) as HA.
    rewrite INR_IZR_INZ in HA.
    replace (Z.of_nat (Z.to_nat 4471 + 1)) with 4472%Z in HA by lia.
    replace (4472 mod 200)%Z with 72%Z in HA by reflexivity.
    replace (IZR 4472 / 43) with 104 in HA by lra.
    apply HA. lia.
  - pose proof (zoomed_particle (Z.to_nat 11007)) as HB.
    rewrite INR_IZR_INZ in HB.
    replace (Z.of_nat (Z.to_nat 11007 + 1)) with 11008%Z in HB by lia.
    replace (11008 mod 200)%Z with 8%Z in HB by reflexivity.
    replace (IZR 11008 / 43) with 256 in HB by lra.
    apply HB. lia.
Qed.

(** At zoom 4 a point of the frame is mapped 1472 px right of the centre of
    the 800 px wide viewport, or 1104 px below the centre of its 600 px
    height. *)
Lemma zoomed_frame_extreme_point :
  exists p,
    In p (Orbit.mapped_points (Orbit.loop 16 zoomed_orbit))
    /\ (fst p = 1872 \/ snd p = 1404).
Proof.
  destruct zoomed_frame as (HW & HH & HZ & _ & _ & Ht).
  destruct zoomed_samples as [HA HB].
  destruct (curve_sample_A _ Ht) as [Ax Ay].
  destruct (curve_sample_B _ Ht) as [Bx By].
  destruct (extreme_point_mapped (Orbit.loop 16 zoomed_orbit))
    as (p & Hp & Hext).
  - rewrite HW. lia.
  - rewrite HH. lia.
  - eexists _, _. split; [exact HB|]. split; [exact HA|]. lra.
  - eexists _, _. split; [exact HA|]. split; [exact HB|]. lra.
  - exists p. split; [exact Hp|].
    rewrite HW, HH, HZ in Hext. destruct Hext as [E|E]; [left|right]; lra.
Qed.

(** The claim of C6 fails at zoom 4: not even a slack of half the viewport
    on every side contains the mapped curve. *)
Lemma orbit_curve_leaves_viewport_at_zoom_4 :
  ~ (forall p,
        In p (Orbit.mapped_points (Orbit.loop 16 zoomed_orbit)) ->
        - 400 <= fst p <= 800 + 400 /\ - 300 <= snd p <= 600 + 300).
Proof.
  intros Hall. destruct zoomed_frame_extreme_point as (p & Hp & Hext).
  specialize (Hall p Hp). destruct Hext; lra.
Qed.

Lemma mapped_points_nonempty (e : Orbit.state) :
  Orbit.curve_points e <> [] -> exists p, In p (Orbit.mapped_points e).
Proof.
  intros Hne. unfold Orbit.mapped_points.
  destruct (bounding_box_spec _ Hne) as (a & b & c & d & Hb & _).
  rewrite Hb. cbn [Orbit.fit_of Orbit.minX Orbit.maxX Orbit.minY Orbit.maxY].
  destruct (Orbit.curve_points e) as [|q pts]; [contradiction|].
  eexists. left. reflexivity.
Qed.

Lemma unzoomed_frame_point :
  exists p,
    In p (Orbit.mapped_points (Orbit.loop 16 (set_zoom 1 zoomed_orbit))).
Proof.
  apply mapped_points_nonempty. unfold Orbit.curve_points.
  destruct (orbit_loop_keeps 16 (set_zoom 1 zoomed_orbit))
    as (_ & _ & _ & _ & HN & _).
  rewrite HN. unfold zoomed_orbit. engine_simpl. rewrite loop_count_of_Z.
  destruct (Z.to_nat 24000) as [|n] eqn:E; [lia|]. discriminate.
Qed.

Lemma orbit_curve_fits_zoomed_margin_box_witness :
  (exists p,
      In p (Orbit.mapped_points (Orbit.loop 16 zoomed_orbit))
      /\ Rabs (fst p - IZR 800 / 2)
         <= 0.46 * Rabs (Orbit.zoomNow (Orbit.loop 16 zoomed_orbit)) * IZR 800
      /\ Rabs (snd p - IZR 600 / 2)
         <= 0.46 * Rabs (Orbit.zoomNow (Orbit.loop 16 zoomed_orbit))
            * IZR 600)
  /\
  (exists p,
      In p (Orbit.mapped_points (Orbit.loop 16 (set_zoom 1 zoomed_orbit)))
      /\ 0 <= fst p <= IZR 800 /\ 0 <= snd p <= IZR 600).
Proof.
  split.
  - destruct zoomed_frame_extreme_point as (p & Hp & _).
    exists p. split; [exact Hp|].
    apply (orbit_curve_fits_zoomed_margin_box zoomed_orbit 16 p).
    + unfold zoomed_orbit. engine_simpl. lia.
    + unfold zoomed_orbit. engine_simpl. lia.
    + exact Hp.
  - destruct unzoomed_frame_point as (p & Hp).
    exists p. split; [exact Hp|].
    apply (orbit_curve_fits_zoomed_margin_box (set_zoom 1 zoomed_orbit) 16 p).
    + unfold zoomed_orbit. engine_simpl. lia.
    + unfold zoomed_orbit. engine_simpl. lia.
    + exact Hp.
    + unfold zoomed_orbit. engine_simpl. lra.
Defined.

(** What the frame actually draws is culled to the viewport, at any zoom. *)
Lemma drawn_points_on_screen (e : Orbit.state) (p : R * R) :
  In p (Orbit.drawn_points e) ->
  In p (Orbit.mapped_points e)
  /\ 0 <= fst p < IZR (W e) /\ 0 <= snd p < IZR (H e).
Proof.
  unfold Orbit.drawn_points. intros Hp.
  apply filter_In in Hp as [Hin Hon]. split; [exact Hin|].
  unfold Orbit.on_screen in Hon.
  destruct (Rle_dec 0 (fst p)); [|discriminate].
  destruct (Rlt_dec (fst p) (IZR (W e))); [|discriminate].
  destruct (Rle_dec 0 (snd p)); [|discriminate].
  destruct (Rlt_dec (snd p) (IZR (H e))); [|discriminate].
  lra.
Qed.

(** ** Fire with seeding *)

(** The code always seeds: [seedCount] is at least 1. *)
Lemma seedCount_positive (e : Fire.state) : (1 <= Fire.seedCount e)%nat.
Proof. unfold Fire.seedCount. lia. Qed.

(** [stepFire] is [simulate] on the engine's grid. *)
Lemma stepFire_buffer (steps : nat) (e : Fire.state) :
  Fire.gridSize (data e) <> 0%nat ->
  Fire.buffer (data (Fire.stepFire steps e))
  = fst (Fire.simulate steps (Fire.gridW (data e)) (Fire.gridH (data e))
           (Fire.gridSize (data e)) (Fire.seedCount e) (random e)
           (Fire.buffer (data e))).
Proof.
  intros Hg. unfold Fire.stepFire.
  apply Nat.eqb_neq in Hg. rewrite Hg. reflexivity.
Qed.

Lemma Int_part_nonneg (x : R) : 0 <= x -> (0 <= Int_part x)%Z.
Proof.
  intros Hx. destruct (base_Int_part x) as [_ Hgt].
  assert (H1 : IZR (-1) < IZR (Int_part x)) by (cbn; lra).
  apply lt_IZR in H1. lia.
Qed.

Lemma seed_column (gw : nat) (r : R) :
  (1 <= gw)%nat -> 0 <= r < 1 ->
  (Z.to_nat (Int_part (r * INR gw)) < gw)%nat.
Proof.
  intros Hgw Hr.
  assert (Hg : 0 < INR gw) by (apply lt_0_INR; lia).
  assert (Hx : 0 <= r * INR gw < INR gw) by (split; nra).
  pose proof (Int_part_nonneg _ (proj1 Hx)) as H0.
  destruct (base_Int_part (r * INR gw)) as [Hle _].
  assert (Hlt : IZR (Int_part (r * INR gw)) < IZR (Z.of_nat gw)).
  { rewrite <- INR_IZR_INZ. lra. }
  apply lt_IZR in Hlt. lia.
Qed.

Section Seeding.
Variables gw gh gs : nat.
Hypothesis Hgw : (1 <= gw)%nat.
Hypothesis Hgh : (1 <= gh)%nat.
Hypothesis Hgs : gs = (gw * gh)%nat.

Lemma seed_cell_within (rnd : nat -> R) (buf : list R) (i : nat) :
  unit_draws rnd ->
  length buf = (gs + gw + 1)%nat -> within gs 65 buf ->
  length (Fire.seed_cell gw gh rnd buf i) = length buf
  /\ within gs 65 (Fire.seed_cell gw gh rnd buf i).
Proof.
  intros Hr Hlen [Hin Hpad]. unfold Fire.seed_cell.
  split; [apply upd_length|].
  pose proof (seed_column gw (rnd (2 * i)%nat) Hgw (Hr _)) as Hcol.
  set (col := Z.to_nat (Int_part (rnd (2 * i)%nat * INR gw))) in *.
  assert (Hidx : (col + gw * (gh - 1) < gs)%nat) by (subst gs; nia).
  pose proof (Hr (2 * i + 1)%nat) as Hv.
  split; intros j.
  - rewrite nth_upd. destruct ((j =? _)%nat && _); [lra|apply Hin].
  - intros Hj. rewrite nth_upd_other by lia. now apply Hpad.
Qed.

Lemma seed_row_within (rnd : nat -> R) (n : nat) (buf : list R) :
  unit_draws rnd ->
  length buf = (gs + gw + 1)%nat -> within gs 65 buf ->
  length (Fire.seed_row gw gh n rnd buf) = length buf
  /\ within gs 65 (Fire.seed_row gw gh n rnd buf).
Proof.
  intros Hr. unfold Fire.seed_row.
  generalize (seq 0 n) as idxs. intros idxs. revert buf.
  induction idxs as [|i idxs IH]; intros buf Hlen Hw; [now split|].
  cbn [fold_left].
  destruct (seed_cell_within rnd buf i Hr Hlen Hw) as [Hl1 Hw1].
  destruct (IH (Fire.seed_cell gw gh rnd buf i)) as [Hl2 Hw2];
    [congruence|exact Hw1|].
  split; [congruence|exact Hw2].
Qed.

(** Every step of the simulation, seeding included, keeps the cells within
    [0, 65] and the padding at zero. *)
Lemma simulate_within (steps sc : nat) (rnd : nat -> R) (buf : list R) :
  unit_draws rnd ->
  length buf = (gs + gw + 1)%nat -> within gs 65 buf ->
  length (fst (Fire.simulate steps gw gh gs sc rnd buf)) = length buf
  /\ within gs 65 (fst (Fire.simulate steps gw gh gs sc rnd buf)).
Proof.
  revert rnd buf. induction steps as [|k IH]; intros rnd buf Hr Hlen Hw.
  - now split.
  - cbn [Fire.simulate].
    destruct (seed_row_within rnd sc buf Hr Hlen Hw) as [Hl1 Hw1].
    set (b1 := Fire.seed_row gw gh sc rnd buf) in *.
    destruct (decay_step_cells gw gs b1) as [Hl2 _]; [lia|].
    pose proof (decay_step_within gw gs 65 b1 ltac:(lia) Hw1) as Hw2.
    apply (within_weaken gs _ 65) in Hw2; [|lra].
    destruct (IH (fun i => rnd (2 * sc + i)%nat) (Fire.decay_step gw gs b1))
      as [Hl3 Hw3]; [intros i; apply Hr|congruence|exact Hw2|].
    split; [congruence|exact Hw3].
Qed.

End Seeding.

(** [rebuildGrid] makes a well-formed, dark grid, and [stepFire] keeps a
    well-formed grid within [0, 65] (so within the [0, ~70] of the data
    model), whatever the number of steps. *)
Lemma rebuildGrid_ok (e : Fire.state) :
  grid_ok (data (Fire.rebuildGrid e))
  /\ within (Fire.gridSize (data (Fire.rebuildGrid e))) 65
       (Fire.buffer (data (Fire.rebuildGrid e))).
Proof.
  unfold Fire.rebuildGrid, grid_ok. engine_simpl.
  split.
  - split; [lia|]. split; [lia|]. split; [reflexivity|apply repeat_length].
  - split; intros j; [|intros _]; rewrite nth_repeat; lra.
Qed.

Lemma stepFire_within (steps : nat) (e : Fire.state) :
  grid_ok (data e) -> unit_draws (random e) ->
  within (Fire.gridSize (data e)) 65 (Fire.buffer (data e)) ->
  grid_ok (data (Fire.stepFire steps e))
  /\ within (Fire.gridSize (data (Fire.stepFire steps e))) 65
       (Fire.buffer (data (Fire.stepFire steps e))).
Proof.
  intros (Hgw & Hgh & Hgs & Hlen) Hr Hw. unfold Fire.stepFire.
  destruct (Fire.gridSize (data e) =? 0)%nat.
  - split; [repeat split; assumption|exact Hw].
  - engine_simpl.
    destruct (simulate_within (Fire.gridW (data e)) (Fire.gridH (data e))
                (Fire.gridSize (data e)) Hgw Hgh Hgs steps (Fire.seedCount e)
                (random e) (Fire.buffer (data e)) Hr Hlen Hw) as [Hl Hw'].
    split; [|exact Hw'].
    unfold grid_ok. engine_simpl. repeat split; try assumption. congruence.
Qed.

(** ** Frames driven by timestamps *)

Lemma last_cons (l : list R) (a d : R) :
  List.last (a :: l) d = List.last l a.
Proof.
  revert a d. induction l as [|x xs IH]; intros a d; [reflexivity|].
  change (List.last (a :: x :: xs) d) with (List.last (x :: xs) d).
  now rewrite (IH x d), (IH x a).
Qed.

Lemma frame_dt_spaced {D : Type} (now : R) (e : engine D) :
  0.1 <= now - last e -> frame_dt now e = (now - last e) / 1000.
Proof. intros Hs. unfold frame_dt. apply Rmax_right. lra. Qed.

Lemma integrate_keeps (F : Field) (dt : R) (e : PointField.state F) :
  running (PointField.integrate F dt e) = running e
  /\ last (PointField.integrate F dt e) = last e.
Proof.
  unfold PointField.integrate, breathe. engine_simpl.
  destruct (zoomAuto e); split; reflexivity.
Qed.

(** X1. Frames whose timestamps are at least 0.1 ms apart advance the
    logical time by the wall-clock time elapsed since the last frame,
    times [speed * speedScale], however that time is cut into frames. *)
Lemma frames_advance_by_elapsed_time (F : Field) (nows : list R)
    (e : PointField.state F) :
  running e = true -> spaced (last e) nows ->
  let e' := run (PointField.loop F) nows e in
  running e' = true
  /\ last e' = List.last nows (last e)
  /\ speed e' = speed e
  /\ t (data e')
     = t (data e)
       + (List.last nows (last e) - last e) / 1000 * speed e * speedScale F.
Proof.
  revert e. induction nows as [|now nows IH]; intros e Hr Hs; cbn zeta.
  - cbn [run fold_left List.last]. repeat split; try assumption. lra.
  - destruct Hs as [Hgap Hs]. rewrite run_cons, (loop_running F now e Hr).
    set (e1 := PointField.integrate F (frame_dt now e) (set_last now e)).
    destruct (integrate_keeps F (frame_dt now e) (set_last now e)) as [R1 L1].
    fold e1 in R1, L1. cbn [running last set_last] in R1, L1.
    destruct (IH e1) as (R2 & L2 & S2 & T2);
      [congruence | now rewrite L1 |].
    assert (S1 : speed e1 = speed e).
    { unfold e1. now rewrite integrate_speed. }
    assert (T1 : t (data e1)
                 = t (data e) + (now - last e) / 1000 * speed e * speedScale F).
    { unfold e1. rewrite integrate_t, (frame_dt_spaced now e Hgap).
      reflexivity. }
    rewrite last_cons, <- L1.
    split; [exact R2|]. split; [exact L2|]. split; [congruence|].
    rewrite T2, T1, S1, L1. lra.
Qed.

Lemma frames_advance_by_elapsed_time_witness :
  let e := play 0 blank_template in
  let e' := run (PointField.loop templateField) [16; 33; 50] e in
  running e' = true
  /\ last e' = List.last [16; 33; 50] (last e)
  /\ speed e' = speed e
  /\ t (data e')
     = t (data e)
       + (List.last [16; 33; 50] (last e) - last e) / 1000 * speed e
         * speedScale templateField.
Proof.
  apply (frames_advance_by_elapsed_time templateField [16; 33; 50]
           (play 0 blank_template)).
  - reflexivity.
  - unfold play, blank_template, blank. engine_simpl. cbn [spaced].
    repeat split; lra.
Defined.

(** ** An engine in its page *)

Lemma loop_count_of_nat (n : nat) : loop_count (of_nat n) = n.
Proof.
  unfold loop_count, of_nat. rewrite INR_IZR_INZ, Int_part_IZR.
  apply Nat2Z.id.
Qed.

Lemma Float32Array_length_loop_count (n : number) (len : nat) :
  Float32Array_length n = Some len -> loop_count n = len.
Proof.
  destruct n as [| | |r]; cbn; try congruence.
  destruct (Rle_dec 0 r); congruence.
Qed.

Lemma frame_dt_floor {D : Type} (now : R) (e : engine D) :
  0.0001 <= frame_dt now e.
Proof. unfold frame_dt. apply Rmax_l. Qed.

Lemma instant_fps_range (dt : R) : 0.0001 <= dt -> 0 < 1 / dt <= 10000.
Proof.
  intros Hdt.
  assert (Hq : 0 < 1 / dt) by (apply Rdiv_lt_0_compat; lra).
  assert (Hm : 1 / dt * dt = 1) by (field; lra).
  split; [exact Hq|]. nra.
Qed.

Lemma requested_none {F : Field} (e e' : PointField.state F) :
  raf_next e' = raf_next e -> Page.requested F e e' = [].
Proof. intros E. unfold Page.requested. now rewrite E, Nat.sub_diag. Qed.

Lemma requested_one {F : Field} (e e' : PointField.state F) :
  raf_next e' = S (raf_next e) -> Page.requested F e e' = [raf_next e].
Proof.
  intros E. unfold Page.requested. rewrite E.
  replace (S (raf_next e) - raf_next e)%nat with 1%nat by lia. reflexivity.
Qed.

Section PageFacts.
Variable F : Field.
Implicit Type e : PointField.state F.
Implicit Type m : Page.mounted F.

(** What a rebuild leaves alone, and what it establishes. *)
Lemma rebuild_frame e e' :
  PointField.rebuildPointField F e = Some e' ->
  running e' = running e /\ rafId e' = rafId e /\ raf_next e' = raf_next e
  /\ fpsEMA e' = fpsEMA e /\ speed e' = speed e /\ zoom e' = zoom e
  /\ zoomAuto e' = zoomAuto e /\ zoomPhase e' = zoomPhase e
  /\ last e' = last e.
Proof.
  unfold PointField.rebuildPointField, PointField.regenerate.
  destruct (_ && _).
  - intros [= <-]. repeat split.
  - destruct (Float32Array_length _); [|discriminate].
    intros [= <-]. repeat split.
Qed.

Lemma rebuild_sized e e' :
  PointField.rebuildPointField F e = Some e' ->
  N (data e') = PointField.target F e'
  /\ attrs_length F (arrays (data e')) = loop_count (N (data e')).
Proof.
  unfold PointField.rebuildPointField, PointField.regenerate.
  destruct (strict_eqb (PointField.target F e) (N (data e))) eqn:E1;
    [destruct (strict_eqb (of_nat (attrs_length F (arrays (data e))))
                 (PointField.target F e)) eqn:E2|]; cbn [andb].
  - intros [= <-].
    apply strict_eqb_true in E1. destruct E1 as [_ E1].
    apply strict_eqb_true in E2. destruct E2 as [_ E2].
    unfold PointField.target in *. engine_simpl.
    split; [now symmetry|].
    rewrite <- E1, <- E2. now rewrite loop_count_of_nat.
  - destruct (Float32Array_length (PointField.target F e)) as [len|] eqn:EL;
      [|discriminate].
    intros [= <-]. unfold PointField.target in *. engine_simpl.
    split; [reflexivity|].
    rewrite layout_length. symmetry.
    now apply Float32Array_length_loop_count.
  - destruct (Float32Array_length (PointField.target F e)) as [len|] eqn:EL;
      [|discriminate].
    intros [= <-]. unfold PointField.target in *. engine_simpl.
    split; [reflexivity|].
    rewrite layout_length. symmetry.
    now apply Float32Array_length_loop_count.
Qed.

(** [setParams] never throws; it changes neither the frame bookkeeping nor
    the agreement between the count, the target and the arrays. *)
Lemma setParams_frame e (p : params number) :
  exists e',
    PointField.setParams F p e = Some e'
    /\ running e' = running e /\ rafId e' = rafId e
    /\ raf_next e' = raf_next e /\ fpsEMA e' = fpsEMA e
    /\ (N (data e) = PointField.target F e ->
        attrs_length F (arrays (data e)) = loop_count (N (data e)) ->
        N (data e') = PointField.target F e'
        /\ attrs_length F (arrays (data e')) = loop_count (N (data e'))).
Proof.
  unfold PointField.setParams.
  set (e1 := match p_speed p with
             | Some s => emit (StatSpeed s) (set_speed s e)
             | None => e
             end).
  assert (K1 : running e1 = running e /\ rafId e1 = rafId e
               /\ raf_next e1 = raf_next e /\ fpsEMA e1 = fpsEMA e
               /\ data e1 = data e /\ W e1 = W e /\ H e1 = H e).
  { unfold e1. destruct (p_speed p); repeat split. }
  destruct K1 as (R1 & I1 & X1 & P1 & D1 & W1 & H1).
  assert (K2 : exists e2,
             match p_density p with
             | Some d =>
               PointField.rebuildPointField F
                 (PointField.set_baseDensity F d e1)
             | None => Some e1
             end = Some e2
             /\ running e2 = running e /\ rafId e2 = rafId e
             /\ raf_next e2 = raf_next e /\ fpsEMA e2 = fpsEMA e
             /\ (N (data e) = PointField.target F e ->
                 attrs_length F (arrays (data e)) = loop_count (N (data e)) ->
                 N (data e2) = PointField.target F e2
                 /\ attrs_length F (arrays (data e2))
                    = loop_count (N (data e2)))).
  { destruct (p_density p) as [d|].
    - destruct (rebuild_total F (PointField.set_baseDensity F d e1))
        as [e2 E2].
      exists e2. split; [exact E2|].
      destruct (rebuild_frame _ _ E2) as (A & B & C & D0 & _).
      cbn [running rafId raf_next fpsEMA PointField.set_baseDensity set_data]
        in A, B, C, D0.
      repeat (split; [congruence|]).
      intros _ _. now apply rebuild_sized in E2.
    - exists e1. split; [reflexivity|].
      repeat (split; [congruence|]).
      unfold PointField.target. rewrite D1, W1, H1. tauto. }
  destruct K2 as (e2 & E2 & R2 & I2 & X2 & P2 & S2).
  rewrite E2.
  eexists. split; [reflexivity|].
  destruct (p_zoom p) as [z|], (p_zoomAuto p) as [[|]|];
    unfold PointField.target in *; engine_simpl;
    repeat (split; [assumption|]); exact S2.
Qed.

Lemma fitCanvas_frame e (w h dpr : R) :
  exists e',
    PointField.fitCanvas F w h dpr e = Some e'
    /\ running e' = running e /\ rafId e' = rafId e
    /\ raf_next e' = raf_next e /\ fpsEMA e' = fpsEMA e
    /\ N (data e') = PointField.target F e'
    /\ attrs_length F (arrays (data e')) = loop_count (N (data e')).
Proof.
  unfold PointField.fitCanvas.
  destruct (rebuild_total F (measure w h dpr e)) as [e' E].
  exists e'. split; [exact E|].
  destruct (rebuild_frame _ _ E) as (A & B & C & D0 & _).
  destruct (rebuild_sized _ _ E) as [S1 S2].
  cbn [running rafId raf_next fpsEMA measure set_viewport] in A, B, C, D0.
  repeat split; assumption.
Qed.

(** A frame of a running engine. *)
Lemma loop_frame (now : R) e :
  running e = true ->
  let e' := PointField.loop F now e in
  running e' = true /\ rafId e' = Some (raf_next e)
  /\ raf_next e' = S (raf_next e)
  /\ fpsEMA e' = fpsEMA e * 0.9 + 1 / frame_dt now e * 0.1
  /\ N (data e') = N (data e) /\ arrays (data e') = arrays (data e)
  /\ PointField.target F e' = PointField.target F e.
Proof.
  intros Hr. cbn zeta. rewrite (loop_running F now e Hr).
  unfold PointField.integrate, breathe, PointField.target. engine_simpl.
  destruct (zoomAuto e); engine_simpl; repeat split; assumption.
Qed.

Lemma pause_frame e :
  raf_next (pause e) = raf_next e /\ fpsEMA (pause e) = fpsEMA e
  /\ PointField.target F (pause e) = PointField.target F e.
Proof.
  unfold pause, PointField.target. engine_simpl.
  destruct (rafId e); repeat split.
Qed.

Lemma cancelled_own e (id : nat) :
  rafId e = Some id -> Page.cancelled F e [id] = [].
Proof.
  intros E. unfold Page.cancelled. rewrite E. cbn [filter].
  now rewrite Nat.eqb_refl.
Qed.

Lemma cancelled_nil e : Page.cancelled F e [] = [].
Proof. unfold Page.cancelled. now destruct (rafId e). Qed.

Lemma mount_steady (ini : params number) (start callback : bool)
    (rnd : nat -> R) (now0 now1 w h dpr : R) :
  exists m,
    Page.mount F ini start callback rnd now0 now1 w h dpr = Some m
    /\ Page.steady F m /\ Page.listening F m = true
    /\ running (Page.engine_of F m) = start.
Proof.
  unfold Page.mount, PointField.createAnimation.
  match goal with
  | |- context [PointField.fitCanvas F w h dpr ?e0] =>
    destruct (fitCanvas_frame e0 w h dpr)
      as (e1 & E1 & R1 & I1 & X1 & P1 & S1 & S1')
  end.
  rewrite E1. cbn [running rafId raf_next fpsEMA] in R1, I1, X1, P1.
  destruct (setParams_frame e1 ini) as (e2 & E2 & R2 & I2 & X2 & P2 & S2).
  rewrite E2. destruct (S2 S1 S1') as [S3 S3'].
  eexists. split; [reflexivity|].
  unfold Page.steady. cbn [Page.engine_of Page.pending Page.listening].
  destruct start.
  - unfold play. replace (running e2) with false by congruence.
    unfold PointField.target in *. engine_simpl.
    replace (raf_next e2) with 0%nat by congruence.
    split; [|split; reflexivity].
    split; [exists 0%nat; repeat split; lia|].
    split; [assumption|]. split; [assumption|].
    replace (fpsEMA e2) with 60 by congruence. lra.
  - replace (raf_next e2) with 0%nat by congruence.
    split; [|split; [reflexivity|congruence]].
    replace (running e2) with false by congruence.
    split; [reflexivity|].
    split; [assumption|]. split; [assumption|].
    replace (fpsEMA e2) with 60 by congruence. lra.
Qed.

Lemma dispatch_steady (ev : Page.event) m :
  Page.steady F m ->
  exists m',
    Page.dispatch F ev m = Some m' /\ Page.steady F m'
    /\ (Page.listening F m = false -> Page.listening F m' = false).
Proof.
  destruct m as [e ids l]. unfold Page.steady.
  cbn [Page.engine_of Page.pending Page.listening].
  intros (HP & HN & HA & HF).
  destruct ev as [w h dpr|now|now| | |p|];
    unfold Page.dispatch; cbn [Page.engine_of Page.pending Page.listening].
  - (* resize *)
    destruct l.
    + destruct (fitCanvas_frame e w h dpr)
        as (e' & E & R1 & I1 & X1 & P1 & S1 & S1').
      rewrite E. eexists. split; [reflexivity|].
      cbn [Page.engine_of Page.pending Page.listening].
      rewrite (requested_none e e' X1), app_nil_r, R1, I1, X1, P1.
      split; [|discriminate]. tauto.
    + eexists. split; [reflexivity|].
      cbn [Page.engine_of Page.pending Page.listening].
      split; [|reflexivity]. tauto.
  - (* animation frame *)
    eexists. split; [reflexivity|].
    cbn [Page.engine_of Page.pending Page.listening]. split; [|tauto].
    destruct (running e) eqn:Hr.
    + destruct HP as (id & Hid & -> & Hlt).
      unfold Page.serve. cbn [fold_left].
      destruct (loop_frame now e Hr) as (R1 & I1 & X1 & P1 & N1 & A1 & T1).
      rewrite (requested_one _ _ X1), R1, I1, X1, P1, N1, A1, T1.
      split; [exists (raf_next e); repeat split; lia|].
      split; [assumption|]. split; [assumption|].
      pose proof (instant_fps_range _ (frame_dt_floor now e)). lra.
    + subst ids. unfold Page.serve. cbn [fold_left].
      rewrite (requested_none e e eq_refl), Hr. repeat split; tauto.
  - (* play *)
    eexists. split; [reflexivity|].
    cbn [Page.engine_of Page.pending Page.listening]. split; [|tauto].
    unfold play. destruct (running e) eqn:Hr.
    + rewrite (requested_none e e eq_refl), app_nil_r, Hr.
      repeat split; tauto.
    + subst ids. rewrite requested_one by reflexivity.
      unfold PointField.target in *. engine_simpl.
      split; [exists (raf_next e); repeat split; lia|].
      repeat split; tauto.
  - (* pause *)
    eexists. split; [reflexivity|].
    cbn [Page.engine_of Page.pending Page.listening]. split; [|tauto].
    rewrite pause_running, pause_data.
    destruct (pause_frame e) as (X1 & P1 & T1). rewrite P1, T1.
    split; [|repeat split; tauto].
    destruct (running e).
    + destruct HP as (id & Hid & -> & _). now apply cancelled_own.
    + subst ids. apply cancelled_nil.
  - (* reset *)
    eexists. split; [reflexivity|].
    cbn [Page.engine_of Page.pending Page.listening]. split; [|tauto].
    unfold PointField.reset, PointField.target in *. engine_simpl.
    repeat split; tauto.
  - (* setParams *)
    destruct (setParams_frame e p) as (e' & E & R1 & I1 & X1 & P1 & S1).
    rewrite E. eexists. split; [reflexivity|].
    cbn [Page.engine_of Page.pending Page.listening]. split; [|tauto].
    rewrite (requested_none e e' X1), app_nil_r, R1, I1, X1, P1.
    destruct (S1 HN HA). repeat split; tauto.
  - (* destroy *)
    eexists. split; [reflexivity|].
    cbn [Page.engine_of Page.pending Page.listening]. split; [|reflexivity].
    unfold PointField.destroy. rewrite pause_running, pause_data.
    destruct (pause_frame e) as (X1 & P1 & T1). rewrite P1, T1.
    split; [|repeat split; tauto].
    destruct (running e).
    + destruct HP as (id & Hid & -> & _). now apply cancelled_own.
    + subst ids. apply cancelled_nil.
Qed.

Lemma dispatch_all_steady (evs : list Page.event) m :
  Page.steady F m ->
  exists m', Page.dispatch_all F evs m = Some m' /\ Page.steady F m'.
Proof.
  revert m. induction evs as [|ev evs IH]; intros m Hm.
  - exists m. now split.
  - destruct (dispatch_steady ev m Hm) as (m1 & E1 & H1 & _).
    cbn [Page.dispatch_all]. rewrite E1. now apply IH.
Qed.

End PageFacts.

(** X2. An engine of the template family (templateField, vortex3,
    swirlField) can always be created, whatever the initial state and the
    window, and no sequence of browser events and API calls makes it throw.
    After each of them the engine is steady: while it runs exactly one frame
    request is pending (the one [rafId] holds), while it is paused none is;
    [N] is the clamped target of the current density and viewport; the
    arrays hold [N] elements; the smoothed frame rate lies in (0, 10000]. *)
Theorem mounted_engine_stays_steady (F : Field) (ini : params number)
    (start callback : bool) (rnd : nat -> R) (now0 now1 w h dpr : R)
    (evs : list (Page.event)) :
  exists m m',
    Page.mount F ini start callback rnd now0 now1 w h dpr = Some m
    /\ Page.dispatch_all F evs m = Some m'
    /\ Page.steady F m'.
Proof.
  destruct (mount_steady F ini start callback rnd now0 now1 w h dpr)
    as (m & E & Hm & _).
  destruct (dispatch_all_steady F evs m Hm) as (m' & E' & Hm').
  exists m, m'. split; [exact E|]. split; [exact E'|exact Hm'].
Qed.

(** X3. Once [destroy()] has been called on a steady engine, the browser
    cannot reach it any more: it is paused, no frame request is pending, and
    no sequence of resize events and animation frames changes anything. *)
Theorem destroyed_engine_is_inert (F : Field) (m m1 : Page.mounted F)
    (evs : list (Page.event)) :
  Page.steady F m ->
  Page.dispatch F Page.CallDestroy m = Some m1 ->
  forallb (Page.from_browser) evs = true ->
  running (Page.engine_of F m1) = false
  /\ rafId (Page.engine_of F m1) = None
  /\ Page.pending F m1 = []
  /\ Page.listening F m1 = false
  /\ Page.dispatch_all F evs m1 = Some m1.
Proof.
  intros Hm E Hev.
  destruct m as [e ids l]. destruct Hm as (HP & _).
  cbn [Page.engine_of Page.pending] in HP.
  unfold Page.dispatch in E. cbn [Page.engine_of Page.pending] in E.
  injection E as <-. cbn [Page.engine_of Page.pending Page.listening].
  unfold PointField.destroy.
  assert (Hc : Page.cancelled F e ids = []).
  { destruct (running e).
    - destruct HP as (id & Hid & -> & _). now apply cancelled_own.
    - subst ids. apply cancelled_nil. }
  rewrite Hc, pause_running, pause_rafId.
  repeat (split; [reflexivity|]).
  induction evs as [|ev evs IH]; [reflexivity|].
  cbn [forallb] in Hev. apply andb_prop in Hev. destruct Hev as [Hb Hev].
  cbn [Page.dispatch_all].
  destruct ev; try discriminate Hb;
    unfold Page.dispatch; cbn [Page.engine_of Page.pending Page.listening].
  - now apply IH.
  - unfold Page.serve. cbn [fold_left].
    rewrite (requested_none (pause e) (pause e) eq_refl). now apply IH.
Qed.

Lemma destroyed_engine_is_inert_witness :
  exists m m1 : Page.mounted templateField,
    Page.mount templateField (Params None None None None) true true
      (fun _ => 0.5) 0 0 800 600 1 = Some m
    /\ Page.dispatch templateField Page.CallDestroy m
       = Some m1
    /\ running (Page.engine_of templateField m1) = false
    /\ rafId (Page.engine_of templateField m1) = None
    /\ Page.pending templateField m1 = []
    /\ Page.listening templateField m1 = false
    /\ Page.dispatch_all templateField
         [Page.Resize 1024 768 2;
          Page.AnimationFrame 16;
          Page.AnimationFrame 33] m1 = Some m1.
Proof.
  destruct (mount_steady templateField (Params None None None None) true true
              (fun _ => 0.5) 0 0 800 600 1) as (m & E & Hm & _).
  destruct (dispatch_steady templateField Page.CallDestroy
              m Hm) as (m1 & E1 & _).
  exists m, m1. split; [exact E|]. split; [exact E1|].
  apply (destroyed_engine_is_inert templateField m m1
           [Page.Resize 1024 768 2;
            Page.AnimationFrame 16;
            Page.AnimationFrame 33] Hm E1).
  reflexivity.
Defined.

(** X4. [play()] and [pause()] are idempotent in every module: a second
    [play()] neither requests another frame nor moves the time base, and a
    second [pause()] changes nothing. *)
Theorem play_and_pause_are_idempotent {D : Type} (e : engine D)
    (now now' : R) :
  play now' (play now e) = play now e
  /\ raf_next (play now' (play now e)) = raf_next (play now e)
  /\ last (play now' (play now e)) = last (play now e)
  /\ pause (pause e) = pause e.
Proof.
  assert (E : play now' (play now e) = play now e).
  { unfold play. destruct (running e) eqn:Hr; [now rewrite Hr|reflexivity]. }
  rewrite E. repeat (split; [reflexivity|]).
  destruct e as [? ? ? ? ? ? ? ? r ? ? ? ? ? ? ?].
  unfold pause. engine_simpl. destruct r; reflexivity.
Qed.

(** ** The floor on the frame time *)

Lemma loop_step (F : Field) (now : R) (e : PointField.state F) :
  running e = true ->
  let e' := PointField.loop F now e in
  running e' = true /\ speed e' = speed e
  /\ t (data e') = t (data e) + frame_dt now e * speed e * speedScale F.
Proof.
  intros Hr. cbn zeta. rewrite (loop_running F now e Hr).
  destruct (integrate_keeps F (frame_dt now e) (set_last now e)) as [R1 _].
  rewrite integrate_speed, integrate_t. repeat split. now rewrite R1.
Qed.

Lemma orbit_loop_step (now : R) (e : Orbit.state) :
  running e = true ->
  let e' := Orbit.loop now e in
  running e' = true /\ speed e' = speed e
  /\ t (data e') = t (data e) + PI / 20 * 60 * frame_dt now e * speed e.
Proof.
  intros Hr. cbn zeta. rewrite (orbit_loop_running now e Hr).
  rewrite orbit_integrate_speed, orbit_integrate_t.
  split; [|split; reflexivity].
  unfold Orbit.integrate, breathe. engine_simpl.
  destruct (zoomAuto e); exact Hr.
Qed.

(** X5. While an engine runs at a non-negative speed, every frame advances
    the logical time by at least the floor of 0.0001 s of frame time, times
    the rate, whatever the timestamps are (repeated, or going backwards):
    the logical time never runs backwards. *)
Theorem logical_time_never_runs_backwards :
  (forall (F : Field) (nows : list R) (e : PointField.state F),
      running e = true -> 0 <= speed e -> 0 <= speedScale F ->
      t (data e) + INR (length nows) * (0.0001 * speed e * speedScale F)
      <= t (data (run (PointField.loop F) nows e)))
  /\
  (forall (nows : list R) (e : Orbit.state),
      running e = true -> 0 <= speed e ->
      t (data e) + INR (length nows) * (PI / 20 * 60 * 0.0001 * speed e)
      <= t (data (run Orbit.loop nows e))).
Proof.
  split.
  - intros F nows. induction nows as [|now nows IH]; intros e Hr Hs Hk.
    + cbn [run fold_left length INR]. lra.
    + rewrite run_cons.
      destruct (loop_step F now e Hr) as (R1 & S1 & T1).
      specialize (IH (PointField.loop F now e) R1).
      rewrite S1, T1 in IH. specialize (IH Hs Hk).
      pose proof (frame_dt_floor now e) as Hd.
      change (length (now :: nows)) with (S (length nows)). rewrite S_INR.
      assert (0 <= speed e * speedScale F) by nra.
      nra.
  - intros nows. induction nows as [|now nows IH]; intros e Hr Hs.
    + cbn [run fold_left length INR]. lra.
    + rewrite run_cons.
      destruct (orbit_loop_step now e Hr) as (R1 & S1 & T1).
      specialize (IH (Orbit.loop now e) R1).
      rewrite S1, T1 in IH. specialize (IH Hs).
      pose proof (frame_dt_floor now e) as Hd.
      pose proof PI_bounds as HPI.
      change (length (now :: nows)) with (S (length nows)). rewrite S_INR.
      assert (0 <= PI / 20 * 60 * speed e) by nra.
      nra.
Qed.

Lemma logical_time_never_runs_backwards_witness :
  t (data (play 0 blank_template))
  + INR (length [16; 8; 8])
    * (0.0001 * speed (play 0 blank_template) * speedScale templateField)
  <= t (data (run (PointField.loop templateField) [16; 8; 8]
                (play 0 blank_template)))
  /\
  t (data (play 0 blank_orbit))
  + INR (length [16; 8; 8])
    * (PI / 20 * 60 * 0.0001 * speed (play 0 blank_orbit))
  <= t (data (run Orbit.loop [16; 8; 8] (play 0 blank_orbit))).
Proof.
  split.
  - apply (proj1 logical_time_never_runs_backwards templateField [16; 8; 8]
             (play 0 blank_template)).
    + reflexivity.
    + unfold play, blank_template, blank. engine_simpl. lra.
    + cbn [speedScale templateField]. lra.
  - apply (proj2 logical_time_never_runs_backwards [16; 8; 8]
             (play 0 blank_orbit)).
    + reflexivity.
    + unfold play, blank_orbit, blank. engine_simpl. lra.
Defined.

(** ** What a frame reports *)

Lemma breathing_range {D : Type} (amp hz : R) (e : engine D) :
  0 <= amp ->
  Rabs (effective_zoom amp hz e - zoom e) <= amp * Rabs (zoom e)
  /\ (zoomAuto e = false -> effective_zoom amp hz e = zoom e).
Proof.
  intros Ha. unfold effective_zoom. destruct (zoomAuto e).
  - split; [|discriminate].
    set (s := sin (2 * PI * hz * zoomPhase e)).
    replace (zoom e * (1 + amp * s) - zoom e) with (zoom e * (amp * s))
      by ring.
    pose proof (SIN_bound (2 * PI * hz * zoomPhase e)) as Hs. fold s in Hs.
    assert (H1 : Rabs (amp * s) <= amp) by (apply Rabs_le; nra).
    rewrite Rabs_mult. pose proof (Rabs_pos (zoom e)). nra.
  - split; [|reflexivity].
    replace (zoom e - zoom e) with 0 by ring. rewrite Rabs_R0.
    apply Rmult_le_pos; [lra|apply Rabs_pos].
Qed.

Lemma smoothing_between (old fps : R) :
  Rmin old fps <= old * 0.9 + fps * 0.1 <= Rmax old fps.
Proof.
  unfold Rmin, Rmax. destruct (Rle_dec old fps); lra.
Qed.

(** X6. A frame of a running engine of the template family makes exactly
    one report, [{ fps, speed, zoom }]: the frame rate is the new smoothed
    value, which lies between the previous one and the instantaneous rate
    [1 / dt] (itself within (0, 10000]); the speed is the current one; the
    zoom is the one the frame is drawn with, within [zoomAmp * |zoom|] of
    [zoom], and [zoom] itself when auto-zoom is off. *)
Theorem frame_report_is_smoothed_and_bounded (F : Field) (now : R)
    (e : PointField.state F) :
  running e = true -> onStats e = true -> 0 <= zoomAmp F ->
  let e' := PointField.loop F now e in
  let fps := 1 / frame_dt now e in
  let z := effective_zoom (zoomAmp F) (zoomHz F) e' in
  stats e' = stats e ++ [StatFrame (fpsEMA e') (speed e) z]
  /\ 0 < fps <= 10000
  /\ Rmin (fpsEMA e) fps <= fpsEMA e' <= Rmax (fpsEMA e) fps
  /\ Rabs (z - zoom e) <= zoomAmp F * Rabs (zoom e)
  /\ (zoomAuto e = false -> z = zoom e).
Proof.
  intros Hr Hs Ha. cbn zeta.
  pose proof (instant_fps_range _ (frame_dt_floor now e)) as Hf.
  pose proof (smoothing_between (fpsEMA e) (1 / frame_dt now e)) as Hm.
  rewrite (loop_running F now e Hr).
  unfold PointField.integrate. engine_simpl.
  set (e1 := breathe _ _).
  assert (K : zoom e1 = zoom e /\ zoomAuto e1 = zoomAuto e
              /\ onStats e1 = true /\ stats e1 = stats e
              /\ speed e1 = speed e
              /\ fpsEMA e1 = fpsEMA e * 0.9 + 1 / frame_dt now e * 0.1).
  { unfold e1, breathe. engine_simpl.
    destruct (zoomAuto e) eqn:Hz; engine_simpl; rewrite ?Hz;
      repeat split; assumption. }
  destruct K as (Kz & Ka & Ko & Ks & Kv & Kf).
  rewrite Ko, Ks, Kv, Kf.
  unfold emit at 1 2 3. unfold request_frame at 1 2. engine_simpl.
  rewrite Ko, Ks.
  destruct (breathing_range (zoomAmp F) (zoomHz F) e1 Ha) as [B1 B2].
  rewrite Kz in B1. rewrite Kz, Ka in B2.
  repeat split; try lra; try assumption.
Qed.

Lemma frame_report_is_smoothed_and_bounded_witness :
  let e := play 0 blank_template in
  let e' := PointField.loop templateField 16 e in
  let fps := 1 / frame_dt 16 e in
  let z := effective_zoom (zoomAmp templateField) (zoomHz templateField) e' in
  stats e' = stats e ++ [StatFrame (fpsEMA e') (speed e) z]
  /\ 0 < fps <= 10000
  /\ Rmin (fpsEMA e) fps <= fpsEMA e' <= Rmax (fpsEMA e) fps
  /\ Rabs (z - zoom e) <= zoomAmp templateField * Rabs (zoom e)
  /\ (zoomAuto e = false -> z = zoom e).
Proof.
  apply (frame_report_is_smoothed_and_bounded templateField 16
           (play 0 blank_template)).
  - reflexivity.
  - reflexivity.
  - cbn [zoomAmp templateField]. lra.
Defined.

(** A frame of a running orbit engine reports the base [zoom], also under
    auto-zoom, where the frame itself is drawn with the breathing zoom of
    the phase advanced by the frame time. *)
Lemma orbit_loop_report (now : R) (e : Orbit.state) :
  running e = true -> onStats e = true ->
  let e' := Orbit.loop now e in
  stats e' = stats e ++ [StatFrame (fpsEMA e') (speed e) (zoom e)]
  /\ onStats e' = true /\ zoom e' = zoom e /\ zoomAuto e' = zoomAuto e
  /\ zoomPhase e'
     = (if zoomAuto e then zoomPhase e + frame_dt now e else zoomPhase e).
Proof.
  intros Hr Hs. cbn zeta. rewrite (orbit_loop_running now e Hr).
  unfold Orbit.integrate, breathe. engine_simpl.
  destruct (zoomAuto e) eqn:Hz; engine_simpl; rewrite ?Hz, ?Hs;
    repeat split; reflexivity.
Qed.

(** X7. However many frames a running orbit engine draws, each of them
    makes one report and every report carries the base [zoom] the run began
    with, while under auto-zoom the phase has advanced by at least 0.0001 s
    per frame and the last frame was drawn with the breathing zoom
    [zoom * (1 + 0.06 * sin(2 * PI * 0.08 * zoomPhase))]. *)
Theorem orbit_frames_report_base_zoom (nows : list R) (e : Orbit.state) :
  running e = true -> onStats e = true ->
  let e' := run Orbit.loop nows e in
  exists reports : list stat,
    stats e' = stats e ++ reports
    /\ length reports = length nows
    /\ Forall (fun s => exists fps, s = StatFrame fps (speed e) (zoom e))
         reports
    /\ (zoomAuto e = true ->
        zoomPhase e + INR (length nows) * 0.0001 <= zoomPhase e'
        /\ Orbit.zoomNow e'
           = zoom e * (1 + 0.06 * sin (2 * PI * 0.08 * zoomPhase e')))
    /\ (zoomAuto e = false -> Orbit.zoomNow e' = zoom e).
Proof.
  intros Hr Hs. cbn zeta. revert e Hr Hs.
  induction nows as [|now nows IH]; intros e Hr Hs.
  - exists []. cbn [run fold_left length INR]. rewrite app_nil_r.
    split; [reflexivity|]. split; [reflexivity|]. split; [constructor|].
    unfold Orbit.zoomNow, effective_zoom.
    split; intros ->; [split; [lra|reflexivity]|reflexivity].
  - rewrite run_cons.
    destruct (orbit_loop_step now e Hr) as (R1 & S1 & _).
    destruct (orbit_loop_report now e Hr Hs) as (T1 & O1 & Z1 & A1 & P1).
    destruct (IH (Orbit.loop now e) R1 O1) as (rs & E & L & Fa & Hon & Hoff).
    rewrite S1, Z1 in Fa. rewrite Z1, A1 in Hon, Hoff.
    exists (StatFrame (fpsEMA (Orbit.loop now e)) (speed e) (zoom e) :: rs).
    split; [rewrite E, T1, <- app_assoc; reflexivity|].
    split; [cbn [length]; now rewrite L|].
    split; [constructor; [now eexists|exact Fa]|].
    split; [|exact Hoff].
    intros Ha. destruct (Hon Ha) as [Hp Hz]. split; [|exact Hz].
    rewrite P1, Ha in Hp. pose proof (frame_dt_floor now e) as Hd.
    change (length (now :: nows)) with (S (length nows)). rewrite S_INR. lra.
Qed.

Lemma orbit_frames_report_base_zoom_witness :
  let e := play 0 blank_orbit in
  let e' := run Orbit.loop [16; 33; 50] e in
  exists reports : list stat,
    stats e' = stats e ++ reports
    /\ length reports = 3%nat
    /\ Forall (fun s => exists fps, s = StatFrame fps (speed e) (zoom e))
         reports
    /\ (zoomAuto e = true ->
        zoomPhase e + INR 3 * 0.0001 <= zoomPhase e'
        /\ Orbit.zoomNow e'
           = zoom e * (1 + 0.06 * sin (2 * PI * 0.08 * zoomPhase e')))
    /\ (zoomAuto e = false -> Orbit.zoomNow e' = zoom e).
Proof.
  apply (orbit_frames_report_base_zoom [16; 33; 50] (play 0 blank_orbit));
    reflexivity.
Defined.

(** ** Auto-zoom *)

Lemma sin_phase_0 (hz : R) : sin (2 * PI * hz * 0) = 0.
Proof. rewrite Rmult_0_r. apply sin_0. Qed.

Lemma sin_abs_le (x : R) : Rabs (sin x) <= Rabs x.
Proof.
  pose proof (SIN_bound x) as [Hlo Hhi]. pose proof PI_bounds as HPI.
  destruct (Rtotal_order x 0) as [Hn|[->|Hp]].
  - rewrite (Rabs_left x) by exact Hn. apply Rabs_le.
    pose proof (sin_gt_x x Hn). split; [lra|].
    destruct (Rle_dec x (-1)) as [H1|H1]; [lra|].
    pose proof (sin_lt_0_var x ltac:(lra) Hn). lra.
  - rewrite sin_0, Rabs_R0. lra.
  - rewrite (Rabs_right x) by lra. apply Rabs_le.
    pose proof (sin_lt_x x Hp). split; [|lra].
    destruct (Rle_dec 1 x) as [H1|H1]; [lra|].
    pose proof (sin_gt_0 x Hp ltac:(lra)). lra.
Qed.

(** The zoom of the first frame after the phase was cleared. *)
Lemma first_breath {D : Type} (amp hz dt : R) (e : engine D) :
  0 <= amp -> 0 <= hz -> 0 <= dt ->
  zoomAuto e = true -> zoomPhase e = dt ->
  effective_zoom amp hz e = zoom e * (1 + amp * sin (2 * PI * hz * dt))
  /\ Rabs (effective_zoom amp hz e - zoom e)
     <= amp * (2 * PI * hz * dt) * Rabs (zoom e).
Proof.
  intros Ha Hh Hd Hz Hp. unfold effective_zoom. rewrite Hz, Hp.
  split; [reflexivity|].
  set (x := 2 * PI * hz * dt).
  replace (zoom e * (1 + amp * sin x) - zoom e) with (amp * sin x * zoom e)
    by ring.
  rewrite !Rabs_mult, (Rabs_right amp) by lra.
  pose proof (sin_abs_le x) as Hs. pose proof PI_bounds as HPI.
  assert (Hx : 0 <= x).
  { unfold x. assert (0 <= 2 * PI * hz) by nra. nra. }
  rewrite (Rabs_right x) in Hs by lra.
  pose proof (Rabs_pos (zoom e)). pose proof (Rabs_pos (sin x)).
  apply Rmult_le_compat_r; [assumption|]. nra.
Qed.

Lemma stepFire_zoom (steps : nat) (e : Fire.state) :
  zoom (Fire.stepFire steps e) = zoom e
  /\ zoomAuto (Fire.stepFire steps e) = zoomAuto e
  /\ zoomPhase (Fire.stepFire steps e) = zoomPhase e.
Proof.
  unfold Fire.stepFire. destruct (_ =? _)%nat; repeat split.
Qed.

(** X8. Switching auto-zoom off with [setParams] clears the phase, so that
    switching it on again starts the breathing from phase 0: the first
    frame that follows adds its frame time [dt] to the phase and is drawn
    at [zoom * (1 + amp * sin(2 * PI * hz * dt))], which is within
    [amp * 2 * PI * hz * dt * |zoom|] of [zoom].  This holds in the template
    family, in the orbit field (amp 0.06, hz 0.08) and in the fire field
    (amp 0.07, hz 0.07), and the two calls touch neither the field nor the
    statistics. *)
Theorem auto_zoom_restarts_from_base :
  (forall (F : Field) (now : R) (e : PointField.state F),
      running e = true -> 0 <= zoomAmp F -> 0 <= zoomHz F ->
      exists e1 e2,
        PointField.setParams F (Params None None None (Some false)) e
        = Some e1
        /\ PointField.setParams F (Params None None None (Some true)) e1
           = Some e2
        /\ zoomPhase e1 = 0 /\ zoomAuto e1 = false
        /\ zoomPhase e2 = 0 /\ zoomAuto e2 = true
        /\ data e2 = data e /\ stats e2 = stats e
        /\ let e3 := PointField.loop F now e2 in
           let dt := frame_dt now e in
           zoomPhase e3 = dt
           /\ effective_zoom (zoomAmp F) (zoomHz F) e3
              = zoom e * (1 + zoomAmp F * sin (2 * PI * zoomHz F * dt))
           /\ Rabs (effective_zoom (zoomAmp F) (zoomHz F) e3 - zoom e)
              <= zoomAmp F * (2 * PI * zoomHz F * dt) * Rabs (zoom e))
  /\
  (forall (now : R) (e : Orbit.state),
      running e = true ->
      exists e1 e2,
        Orbit.setParams (Params None None None (Some false)) e = Some e1
        /\ Orbit.setParams (Params None None None (Some true)) e1 = Some e2
        /\ zoomPhase e1 = 0 /\ zoomAuto e1 = false
        /\ zoomPhase e2 = 0 /\ zoomAuto e2 = true
        /\ data e2 = data e /\ stats e2 = stats e
        /\ let e3 := Orbit.loop now e2 in
           let dt := frame_dt now e in
           zoomPhase e3 = dt
           /\ Orbit.zoomNow e3
              = zoom e * (1 + 0.06 * sin (2 * PI * 0.08 * dt))
           /\ Rabs (Orbit.zoomNow e3 - zoom e)
              <= 0.06 * (2 * PI * 0.08 * dt) * Rabs (zoom e))
  /\
  (forall (now : R) (e : Fire.state),
      running e = true ->
      let e1 := Fire.setParams (Params None None None (Some false)) e in
      let e2 := Fire.setParams (Params None None None (Some true)) e1 in
      let e3 := Fire.loop now e2 in
      let dt := frame_dt now e in
      zoomPhase e1 = 0 /\ zoomAuto e1 = false
      /\ zoomPhase e2 = 0 /\ zoomAuto e2 = true
      /\ data e2 = data e /\ stats e2 = stats e
      /\ zoomPhase e3 = dt
      /\ effective_zoom 0.07 0.07 e3
         = zoom e * (1 + 0.07 * sin (2 * PI * 0.07 * dt))
      /\ Rabs (effective_zoom 0.07 0.07 e3 - zoom e)
         <= 0.07 * (2 * PI * 0.07 * dt) * Rabs (zoom e)).
Proof.
  split; [|split].
  - intros F now e Hr Ha Hh.
    unfold PointField.setParams.
    cbn [p_speed p_density p_zoom p_zoomAuto]. engine_simpl.
    eexists. eexists. split; [reflexivity|]. split; [reflexivity|].
    engine_simpl. do 6 (split; [reflexivity|]). cbn zeta.
    set (e2 := set_zoomAuto true _).
    assert (Hr2 : running e2 = true) by exact Hr.
    rewrite (loop_running F now e2 Hr2).
    change (frame_dt now e2) with (frame_dt now e).
    pose proof (frame_dt_floor now e) as Hd.
    set (dt := frame_dt now e) in *.
    set (e3 := PointField.integrate F dt (set_last now e2)).
    assert (K : zoomAuto e3 = true /\ zoomPhase e3 = dt /\ zoom e3 = zoom e).
    { unfold e3, PointField.integrate, breathe, e2. engine_simpl.
      repeat split. ring. }
    destruct K as (K1 & K2 & K3).
    split; [exact K2|]. rewrite <- K3.
    apply first_breath; try assumption. lra.
  - intros now e Hr.
    unfold Orbit.setParams.
    cbn [p_speed p_density p_zoom p_zoomAuto]. engine_simpl.
    eexists. eexists. split; [reflexivity|]. split; [reflexivity|].
    engine_simpl. do 6 (split; [reflexivity|]). cbn zeta.
    set (e2 := set_zoomAuto true _).
    assert (Hr2 : running e2 = true) by exact Hr.
    rewrite (orbit_loop_running now e2 Hr2).
    change (frame_dt now e2) with (frame_dt now e).
    pose proof (frame_dt_floor now e) as Hd.
    set (dt := frame_dt now e) in *.
    set (e3 := Orbit.integrate dt (set_last now e2)).
    assert (K : zoomAuto e3 = true /\ zoomPhase e3 = dt /\ zoom e3 = zoom e).
    { unfold e3, Orbit.integrate, breathe, e2. engine_simpl.
      repeat split. ring. }
    destruct K as (K1 & K2 & K3).
    split; [exact K2|]. rewrite <- K3. unfold Orbit.zoomNow.
    apply first_breath; try assumption; lra.
  - intros now e Hr. cbn zeta.
    unfold Fire.setParams.
    cbn [p_speed p_density p_zoom p_zoomAuto]. engine_simpl.
    do 6 (split; [reflexivity|]).
    set (e2 := set_zoomAuto true _).
    assert (Hr2 : running e2 = true) by exact Hr.
    unfold Fire.loop. rewrite Hr2. cbn [negb].
    change (frame_dt now e2) with (frame_dt now e).
    pose proof (frame_dt_floor now e) as Hd.
    set (dt := frame_dt now e) in *.
    set (e3 := Fire.integrate dt (set_last now e2)).
    assert (K : zoomAuto e3 = true /\ zoomPhase e3 = dt /\ zoom e3 = zoom e).
    { unfold e3, Fire.integrate, breathe. engine_simpl.
      match goal with
      | |- context [Fire.stepFire ?n ?x] =>
        destruct (stepFire_zoom n x) as (S1 & S2 & S3);
        set (ef := Fire.stepFire n x) in *
      end.
      cbn [zoom zoomAuto zoomPhase set_fpsEMA set_last] in S1, S2, S3.
      rewrite S2. change (zoomAuto e2) with true. engine_simpl.
      rewrite S3, S1. unfold e2. engine_simpl.
      split; [exact S2|]. split; [ring|reflexivity]. }
    destruct K as (K1 & K2 & K3).
    split; [exact K2|]. rewrite <- K3.
    apply first_breath; try assumption; lra.
Qed.

Lemma auto_zoom_restarts_from_base_witness :
  (exists e1 e2,
      PointField.setParams templateField (Params None None None (Some false))
        (play 0 blank_template) = Some e1
      /\ PointField.setParams templateField
           (Params None None None (Some true)) e1 = Some e2
      /\ zoomPhase (PointField.loop templateField 16 e2) = 0.016
      /\ Rabs (effective_zoom (zoomAmp templateField) (zoomHz templateField)
                 (PointField.loop templateField 16 e2)
               - zoom (play 0 blank_template))
         <= zoomAmp templateField
            * (2 * PI * zoomHz templateField * 0.016)
            * Rabs (zoom (play 0 blank_template)))
  /\
  (exists e1 e2,
      Orbit.setParams (Params None None None (Some false))
        (play 0 blank_orbit) = Some e1
      /\ Orbit.setParams (Params None None None (Some true)) e1 = Some e2
      /\ zoomPhase (Orbit.loop 16 e2) = 0.016
      /\ Rabs (Orbit.zoomNow (Orbit.loop 16 e2) - zoom (play 0 blank_orbit))
         <= 0.06 * (2 * PI * 0.08 * 0.016) * Rabs (zoom (play 0 blank_orbit)))
  /\
  (let e :=
     play 0 (Fire.createAnimation (Params None None None None) false true
               (fun _ => 0.5) 0 0 800 600 1) in
   let e2 :=
     Fire.setParams (Params None None None (Some true))
       (Fire.setParams (Params None None None (Some false)) e) in
   zoomPhase (Fire.loop 16 e2) = frame_dt 16 e
   /\ Rabs (effective_zoom 0.07 0.07 (Fire.loop 16 e2) - zoom e)
      <= 0.07 * (2 * PI * 0.07 * frame_dt 16 e) * Rabs (zoom e)).
Proof.
  destruct auto_zoom_restarts_from_base as (HP & HO & HF).
  assert (Hdt : forall (D : Type) (e : engine D),
             last e = 0 -> frame_dt 16 e = 0.016).
  { intros D e E. unfold frame_dt. rewrite E.
    replace ((16 - 0) / 1000) with 0.016 by lra. apply Rmax_right. lra. }
  split; [|split].
  - destruct (HP templateField 16 (play 0 blank_template))
      as (e1 & e2 & E1 & E2 & _ & _ & _ & _ & _ & _ & H3);
      [reflexivity|cbn; lra|cbn; lra|].
    cbn zeta in H3. rewrite (Hdt _ (play 0 blank_template) eq_refl) in H3.
    destruct H3 as (P3 & _ & B3).
    exists e1, e2. repeat split; assumption.
  - destruct (HO 16 (play 0 blank_orbit))
      as (e1 & e2 & E1 & E2 & _ & _ & _ & _ & _ & _ & H3); [reflexivity|].
    cbn zeta in H3. rewrite (Hdt _ (play 0 blank_orbit) eq_refl) in H3.
    destruct H3 as (P3 & _ & B3).
    exists e1, e2. repeat split; assumption.
  - cbn zeta.
    match goal with
    | |- context [play 0 ?x] =>
      destruct (HF 16 (play 0 x))
        as (_ & _ & _ & _ & _ & _ & P3 & _ & B3);
        [unfold play; destruct (running x) eqn:E; [exact E|reflexivity]|]
    end.
    split; [exact P3|exact B3].
Defined.

(** ** Layouts *)

Lemma nth_filled_cases (len cnt : nat) (f : nat -> R) (j : nat) :
  nth j (filled len cnt f) 0
  = if ((j <? len) && (j <? cnt))%nat then f j else 0.
Proof.
  destruct (j <? len)%nat eqn:Hl; cbn [andb].
  - apply Nat.ltb_lt in Hl. destruct (j <? cnt)%nat eqn:Hc.
    + apply Nat.ltb_lt in Hc. now apply nth_filled.
    + unfold filled.
      set (g := fun i => if (i <? cnt)%nat then f i else 0).
      rewrite (nth_indep _ 0 (g 0%nat)) by now rewrite length_map, length_seq.
      rewrite map_nth, seq_nth by assumption. cbn [Nat.add]. subst g.
      cbn beta. now rewrite Hc.
  - apply Nat.ltb_ge in Hl. apply nth_overflow. now rewrite filled_length.
Qed.

Lemma polar_norm (r theta : R) :
  r * cos theta * (r * cos theta) + r * sin theta * (r * sin theta) = r * r.
Proof.
  pose proof (sin2_cos2 theta) as Hsc. unfold Rsqr in Hsc.
  replace (r * cos theta * (r * cos theta) + r * sin theta * (r * sin theta))
    with (r * r * (sin theta * sin theta + cos theta * cos theta)) by ring.
  rewrite Hsc. ring.
Qed.

(** [Math.pow(x, y)] on a base in (0, 1] with an exponent of at least 1. *)
Lemma Math_pow_unit (x y : R) :
  0 < x <= 1 -> 1 <= y -> 0 < Math_pow x y <= x.
Proof.
  intros [Hx0 Hx1] Hy. unfold Math_pow.
  destruct (Rlt_dec 0 x) as [_|Hn]; [|contradiction].
  unfold Rpower. split; [apply exp_pos|].
  assert (Hl : ln x <= 0).
  { destruct Hx1 as [Hlt| ->]; [|rewrite ln_1; lra].
    left. rewrite <- ln_1. now apply ln_increasing. }
  rewrite <- (exp_ln x Hx0) at 2. apply exp_le. nra.
Qed.

Lemma template_point_norm (u v : R) :
  0 <= u ->
  fst (template_point u v) * fst (template_point u v)
  + snd (template_point u v) * snd (template_point u v) = u.
Proof.
  intros Hu. unfold template_point. cbn [fst snd].
  rewrite polar_norm. now apply sqrt_sqrt.
Qed.

Lemma vortex_point_norm (u v : R) :
  0 <= u < 1 ->
  let r := 1 - Math_pow (1 - u) 1.6 in
  u <= r < 1
  /\ fst (vortex_point u v) * fst (vortex_point u v)
     + snd (vortex_point u v) * snd (vortex_point u v) = r * r.
Proof.
  intros Hu. cbn zeta.
  destruct (Math_pow_unit (1 - u) 1.6) as [P0 P1]; [lra|lra|].
  split; [lra|].
  unfold vortex_point. cbn [fst snd]. apply polar_norm.
Qed.


Lemma template_layout_norm (len cnt : nat) (rnd : nat -> R) (j : nat) :
  unit_draws rnd -> (j < len)%nat -> (j < cnt)%nat ->
  let a := template_layout len cnt rnd in
  nth j (xVals a) 0 * nth j (xVals a) 0
  + nth j (yVals a) 0 * nth j (yVals a) 0 = rnd (2 * j)%nat.
Proof.
  intros Hr Hl Hc. cbn zeta. unfold template_layout. cbn [xVals yVals].
  rewrite !nth_filled by assumption.
  apply template_point_norm. apply Hr.
Qed.

Lemma template_layout_in_disc (len cnt : nat) (rnd : nat -> R) :
  unit_draws rnd -> in_unit_disc (template_layout len cnt rnd).
Proof.
  intros Hr j.
  destruct (j <? len)%nat eqn:Hl, (j <? cnt)%nat eqn:Hc;
    try (unfold template_layout; cbn [xVals yVals];
         rewrite !nth_filled_cases, Hl, Hc; cbn [andb]; lra).
  apply Nat.ltb_lt in Hl, Hc.
  rewrite (template_layout_norm len cnt rnd j Hr Hl Hc). apply Hr.
Qed.

Lemma vortex_layout_norm (len cnt : nat) (rnd : nat -> R) (j : nat) :
  unit_draws rnd -> (j < len)%nat -> (j < cnt)%nat ->
  let a := vortex_layout len cnt rnd in
  let r := 1 - Math_pow (1 - rnd (2 * j)%nat) 1.6 in
  rnd (2 * j)%nat <= r < 1
  /\ nth j (xVals a) 0 * nth j (xVals a) 0
     + nth j (yVals a) 0 * nth j (yVals a) 0 = r * r.
Proof.
  intros Hr Hl Hc. cbn zeta. unfold vortex_layout. cbn [xVals yVals].
  rewrite !nth_filled by assumption.
  apply vortex_point_norm. apply Hr.
Qed.

Lemma vortex_layout_in_disc (len cnt : nat) (rnd : nat -> R) :
  unit_draws rnd -> in_unit_disc (vortex_layout len cnt rnd).
Proof.
  intros Hr j.
  destruct (j <? len)%nat eqn:Hl, (j <? cnt)%nat eqn:Hc;
    try (unfold vortex_layout; cbn [xVals yVals];
         rewrite !nth_filled_cases, Hl, Hc; cbn [andb]; lra).
  apply Nat.ltb_lt in Hl, Hc.
  destruct (vortex_layout_norm len cnt rnd j Hr Hl Hc) as [Hb E].
  cbn zeta in E. rewrite E. pose proof (Hr (2 * j)%nat). nra.
Qed.








(** ** Where the particles are drawn *)

Lemma hypot_polar (ang rad : R) :
  Math_hypot (cos ang * rad) (sin ang * rad) = Rabs rad.
Proof.
  unfold Math_hypot.
  replace (cos ang * rad * (cos ang * rad) + sin ang * rad * (sin ang * rad))
    with (rad * cos ang * (rad * cos ang) + rad * sin ang * (rad * sin ang))
    by ring.
  rewrite polar_norm. fold (Rsqr rad). apply sqrt_Rsqr_abs.
Qed.

Lemma offset_cancel (c a : R) : c + a - c = a.
Proof. ring. Qed.

Lemma hypot_ge (x y : R) : Rabs x <= Math_hypot x y /\ Rabs y <= Math_hypot x y.
Proof.
  unfold Math_hypot. rewrite <- (sqrt_Rsqr_abs x), <- (sqrt_Rsqr_abs y).
  unfold Rsqr. split; apply sqrt_le_1_alt; nra.
Qed.

Lemma hypot_unit (x y : R) : x * x + y * y <= 1 -> 0 <= Math_hypot x y <= 1.
Proof.
  intros Hd. unfold Math_hypot. split; [apply sqrt_pos|].
  rewrite <- sqrt_1. now apply sqrt_le_1_alt.
Qed.

Lemma filter_all {A : Type} (f : A -> bool) (l : list A) :
  (forall x, In x l -> f x = true) -> filter f l = l.
Proof.
  induction l as [|x l IH]; intros Hall; [reflexivity|].
  cbn [filter]. rewrite (Hall x (or_introl eq_refl)).
  f_equal. apply IH. intros y Hy. apply Hall. now right.
Qed.

(** A point closer to the centre than half the smaller side is drawn. *)
Lemma close_to_centre_is_drawn (w h : Z) (p : R * R) :
  Math_hypot (fst p - IZR w * 0.5) (snd p - IZR h * 0.5)
  < Rmin (IZR w) (IZR h) * 0.5 ->
  culled_in w h p = true.
Proof.
  intros Hd.
  destruct (hypot_ge (fst p - IZR w * 0.5) (snd p - IZR h * 0.5)) as [Hx Hy].
  pose proof (Rmin_l (IZR w) (IZR h)) as Hl.
  pose proof (Rmin_r (IZR w) (IZR h)) as Hr.
  destruct (Rabs_def2 (fst p - IZR w * 0.5) (IZR w * 0.5)) as [Bx1 Bx2];
    [lra|].
  destruct (Rabs_def2 (snd p - IZR h * 0.5) (IZR h * 0.5)) as [By1 By2];
    [lra|].
  unfold culled_in.
  destruct (Rle_dec 0 (fst p)); [|lra].
  destruct (Rlt_dec (fst p) (IZR w)); [|lra].
  destruct (Rle_dec 0 (snd p)); [|lra].
  destruct (Rlt_dec (snd p) (IZR h)); [|lra].
  reflexivity.
Qed.

Lemma template_screen_extent (w h : Z) (z t : R) (i : nat) (bx bY : R) :
  bx * bx + bY * bY <= 1 ->
  let p := template_screen w h z t i bx bY in
  Math_hypot (fst p - IZR w * 0.5) (snd p - IZR h * 0.5)
  <= 1.18 * Rabs (disc_radius w h z).
Proof.
  intros Hd. unfold template_screen. cbn [fst snd].
  rewrite !offset_cancel, hypot_polar.
  pose proof (hypot_unit bx bY Hd) as Hr.
  set (r := Math_hypot bx bY) in *.
  pose proof (SIN_bound (t * 0.6 + r * 8.0)) as Hs.
  set (pulse := 1 + 0.18 * sin (t * 0.6 + r * 8.0)).
  assert (Hp : 0 <= pulse <= 1.18) by (unfold pulse; lra).
  rewrite !Rabs_mult, (Rabs_right r), (Rabs_right pulse) by lra.
  pose proof (Rabs_pos (disc_radius w h z)) as Hb.
  assert (Hrp : r * pulse <= 1.18) by nra.
  replace (r * Rabs (disc_radius w h z) * pulse)
    with (r * pulse * Rabs (disc_radius w h z)) by ring.
  apply Rmult_le_compat_r; assumption.
Qed.

Lemma vortex_screen_extent (w h : Z) (z t : R) (i : nat) (bx bY : R) :
  bx * bx + bY * bY <= 1 ->
  let p := vortex_screen w h z t i bx bY in
  Math_hypot (fst p - IZR w * 0.5) (snd p - IZR h * 0.5)
  <= 1.14 * Rabs (disc_radius w h z).
Proof.
  intros Hd. unfold vortex_screen. cbn [fst snd].
  rewrite !offset_cancel, hypot_polar.
  pose proof (hypot_unit bx bY Hd) as Hr.
  set (r := Math_hypot bx bY) in *.
  pose proof (SIN_bound (t * 0.5 + r * 9.0)) as Hs.
  set (pulse := 1 + 0.14 * sin (t * 0.5 + r * 9.0)).
  assert (Hp : 0 <= pulse <= 1.14) by (unfold pulse; lra).
  assert (He : 0 < exp (- r * 4.0) <= 1).
  { split; [apply exp_pos|]. rewrite <- exp_0. apply exp_le. lra. }
  set (fallIn := 0.35 + 0.65 * (1 - exp (- r * 4.0))).
  assert (Hf : 0 <= fallIn <= 1) by (unfold fallIn; lra).
  rewrite !Rabs_mult, (Rabs_right r), (Rabs_right pulse), (Rabs_right fallIn)
    by lra.
  pose proof (Rabs_pos (disc_radius w h z)) as Hb.
  assert (Hrp : r * pulse <= 1.14) by nra.
  assert (Hrpf : r * pulse * fallIn <= 1.14) by nra.
  replace (r * Rabs (disc_radius w h z) * pulse * fallIn)
    with (r * pulse * fallIn * Rabs (disc_radius w h z)) by ring.
  apply Rmult_le_compat_r; assumption.
Qed.

Lemma disc_radius_abs (w h : Z) (z : R) :
  (0 <= w)%Z -> (0 <= h)%Z ->
  Rabs (disc_radius w h z) = Rmin (IZR w) (IZR h) * 0.45 * Rabs z.
Proof.
  intros Hw Hh. unfold disc_radius.
  apply IZR_le in Hw, Hh.
  assert (0 <= Rmin (IZR w) (IZR h)) by (apply Rmin_glb; assumption).
  rewrite !Rabs_mult, (Rabs_right (Rmin _ _)), (Rabs_right 0.5),
    (Rabs_right 0.9) by lra.
  lra.
Qed.

(** *** The layout kept through the events *)

Section LayoutInvariant.
Variable F : Field.
Variable P : attrs F -> Prop.
Hypothesis layout_P :
  forall len cnt rnd, unit_draws rnd -> P (layout F len cnt rnd).
Implicit Type e : PointField.state F.

Lemma rebuild_layout e e' :
  unit_draws (random e) -> P (arrays (data e)) ->
  PointField.rebuildPointField F e = Some e' ->
  unit_draws (random e') /\ P (arrays (data e')).
Proof.
  intros Hr Hp. unfold PointField.rebuildPointField, PointField.regenerate.
  destruct (_ && _).
  - intros [= <-]. engine_simpl. now split.
  - destruct (Float32Array_length _); [|discriminate].
    intros [= <-]. engine_simpl. split; [intros i; apply Hr|].
    now apply layout_P.
Qed.

Lemma setParams_layout (p : params number) e e' :
  unit_draws (random e) -> P (arrays (data e)) ->
  PointField.setParams F p e = Some e' ->
  unit_draws (random e') /\ P (arrays (data e')).
Proof.
  intros Hr Hp. unfold PointField.setParams.
  set (e1 := match p_speed p with
             | Some s => emit (StatSpeed s) (set_speed s e)
             | None => e
             end).
  assert (K1 : unit_draws (random e1) /\ P (arrays (data e1))).
  { unfold e1. destruct (p_speed p); engine_simpl; now split. }
  assert (K2 : forall e2 e3,
             unit_draws (random e2) /\ P (arrays (data e2)) ->
             Some
               match p_zoomAuto p with
               | Some b =>
                 if negb
                      (zoomAuto
                         (set_zoomAuto b
                            match p_zoom p with
                            | Some z => emit (StatZoom z) (set_zoom z e2)
                            | None => e2
                            end))
                 then
                   set_zoomPhase 0
                     (set_zoomAuto b
                        match p_zoom p with
                        | Some z => emit (StatZoom z) (set_zoom z e2)
                        | None => e2
                        end)
                 else
                   set_zoomAuto b
                     match p_zoom p with
                     | Some z => emit (StatZoom z) (set_zoom z e2)
                     | None => e2
                     end
               | None =>
                 match p_zoom p with
                 | Some z => emit (StatZoom z) (set_zoom z e2)
                 | None => e2
                 end
               end = Some e3 ->
             unit_draws (random e3) /\ P (arrays (data e3))).
  { intros e2 e3 K [= <-].
    destruct (p_zoom p), (p_zoomAuto p) as [[|]|]; engine_simpl; exact K. }
  destruct (p_density p) as [d|].
  - destruct (PointField.rebuildPointField F
                (PointField.set_baseDensity F d e1)) as [e2|] eqn:E2;
      [|discriminate].
    apply rebuild_layout in E2; [|apply K1|apply K1].
    now apply K2.
  - now apply K2.
Qed.

Lemma loop_layout (now : R) e :
  random (PointField.loop F now e) = random e
  /\ arrays (data (PointField.loop F now e)) = arrays (data e).
Proof.
  unfold PointField.loop. destruct (negb (running e)); [now split|].
  unfold PointField.integrate, breathe. engine_simpl.
  destruct (zoomAuto e); now split.
Qed.

Lemma serve_layout (now : R) (ids : list nat) e :
  random (Page.serve F now ids e) = random e
  /\ arrays (data (Page.serve F now ids e)) = arrays (data e).
Proof.
  unfold Page.serve. revert e.
  induction ids as [|id ids IH]; intros e; [now split|].
  cbn [fold_left]. destruct (IH (PointField.loop F now e)) as [-> ->].
  apply loop_layout.
Qed.

Lemma dispatch_layout (ev : Page.event) (m m' : Page.mounted F) :
  unit_draws (random (Page.engine_of F m)) ->
  P (arrays (data (Page.engine_of F m))) ->
  Page.dispatch F ev m = Some m' ->
  unit_draws (random (Page.engine_of F m'))
  /\ P (arrays (data (Page.engine_of F m'))).
Proof.
  destruct m as [e ids l]. cbn [Page.engine_of]. intros Hr Hp.
  destruct ev as [w h dpr|now|now| | |p|];
    unfold Page.dispatch; cbn [Page.engine_of Page.pending Page.listening].
  - destruct l; [|intros [= <-]; now split].
    unfold PointField.fitCanvas.
    destruct (PointField.rebuildPointField F (measure w h dpr e))
      as [e1|] eqn:E1; [|discriminate].
    intros [= <-]. cbn [Page.engine_of].
    now apply (rebuild_layout (measure w h dpr e)).
  - intros [= <-]. cbn [Page.engine_of].
    destruct (serve_layout now ids e) as [-> ->]. now split.
  - intros [= <-]. cbn [Page.engine_of].
    unfold play. destruct (running e); engine_simpl; now split.
  - intros [= <-]. cbn [Page.engine_of].
    unfold pause. engine_simpl. destruct (rafId e); now split.
  - intros [= <-]. cbn [Page.engine_of]. now split.
  - destruct (PointField.setParams F p e) as [e1|] eqn:E1; [|discriminate].
    intros [= <-]. cbn [Page.engine_of].
    now apply (setParams_layout p e).
  - intros [= <-]. cbn [Page.engine_of].
    unfold PointField.destroy, pause. engine_simpl.
    destruct (rafId e); now split.
Qed.

Lemma dispatch_all_layout (evs : list Page.event) (m m' : Page.mounted F) :
  unit_draws (random (Page.engine_of F m)) ->
  P (arrays (data (Page.engine_of F m))) ->
  Page.dispatch_all F evs m = Some m' ->
  unit_draws (random (Page.engine_of F m'))
  /\ P (arrays (data (Page.engine_of F m'))).
Proof.
  revert m. induction evs as [|ev evs IH]; intros m Hr Hp.
  - intros [= <-]. now split.
  - cbn [Page.dispatch_all].
    destruct (Page.dispatch F ev m) as [m1|] eqn:E1; [|discriminate].
    destruct (dispatch_layout ev m m1 Hr Hp E1) as [Hr1 Hp1].
    now apply IH.
Qed.

Lemma mount_layout (ini : params number) (start callback : bool)
    (rnd : nat -> R) (now0 now1 w h dpr : R) (m : Page.mounted F) :
  unit_draws rnd ->
  Page.mount F ini start callback rnd now0 now1 w h dpr = Some m ->
  unit_draws (random (Page.engine_of F m))
  /\ P (arrays (data (Page.engine_of F m))).
Proof.
  intros Hr. unfold Page.mount, PointField.createAnimation.
  unfold PointField.fitCanvas.
  match goal with
  | |- context [PointField.rebuildPointField F ?e0] =>
    destruct (PointField.rebuildPointField F e0) as [e1|] eqn:E1;
      [|discriminate]
  end.
  apply rebuild_layout in E1; [|exact Hr|now apply layout_P].
  destruct (PointField.setParams F ini e1) as [e2|] eqn:E2; [|discriminate].
  apply setParams_layout in E2; [|apply E1|apply E1].
  intros [= <-]. cbn [Page.engine_of].
  destruct start; [|exact E2].
  unfold play. destruct (running e2); engine_simpl; exact E2.
Qed.

(** An engine created with draws in [0, 1) keeps its layout property
    through every sequence of events. *)
Lemma mounted_layout (ini : params number) (start callback : bool)
    (rnd : nat -> R) (now0 now1 w h dpr : R) (evs : list Page.event) :
  unit_draws rnd ->
  exists m m',
    Page.mount F ini start callback rnd now0 now1 w h dpr = Some m
    /\ Page.dispatch_all F evs m = Some m'
    /\ P (arrays (data (Page.engine_of F m'))).
Proof.
  intros Hr.
  destruct (mount_steady F ini start callback rnd now0 now1 w h dpr)
    as (m & E & Hm & _).
  destruct (dispatch_all_steady F evs m Hm) as (m' & E' & _).
  exists m, m'. split; [exact E|]. split; [exact E'|].
  destruct (mount_layout _ _ _ _ _ _ _ _ _ m Hr E) as [Hr1 Hp1].
  now destruct (dispatch_all_layout evs m m' Hr1 Hp1 E').
Qed.

End LayoutInvariant.

Lemma template_mapped_extent (e : PointField.state templateField)
    (p : R * R) :
  in_unit_disc (arrays (data e)) -> In p (template_mapped e) ->
  Math_hypot (fst p - IZR (W e) * 0.5) (snd p - IZR (H e) * 0.5)
  <= 1.18 * Rabs (disc_radius (W e) (H e) (effective_zoom 0.08 0.09 e)).
Proof.
  intros Hd Hp. unfold template_mapped in Hp.
  apply in_map_iff in Hp. destruct Hp as (i & <- & _).
  apply template_screen_extent. left. apply (Hd i).
Qed.

Lemma vortex_mapped_extent (e : PointField.state vortex3) (p : R * R) :
  in_unit_disc (arrays (data e)) -> In p (vortex_mapped e) ->
  Math_hypot (fst p - IZR (W e) * 0.5) (snd p - IZR (H e) * 0.5)
  <= 1.14 * Rabs (disc_radius (W e) (H e) (effective_zoom 0.08 0.09 e)).
Proof.
  intros Hd Hp. unfold vortex_mapped in Hp.
  apply in_map_iff in Hp. destruct Hp as (i & <- & _).
  apply vortex_screen_extent. left. apply (Hd i).
Qed.

(** X12. Every frame of templateField.js, after any sequence of events on
    an engine created with draws of [Math.random()] in [0, 1), computes its
    particles within 1.18 times the base radius of the screen centre, that
    is within [0.531 * min(W, H) * |z|] for the frame's zoom [z]. *)
Theorem template_frame_stays_in_disc (ini : params number)
    (start callback : bool) (rnd : nat -> R) (now0 now1 w h dpr : R)
    (evs : list Page.event) :
  unit_draws rnd ->
  exists m m',
    Page.mount templateField ini start callback rnd now0 now1 w h dpr = Some m
    /\ Page.dispatch_all templateField evs m = Some m'
    /\ let e := Page.engine_of templateField m' in
       let z := effective_zoom 0.08 0.09 e in
       forall p, In p (template_mapped e) ->
         Math_hypot (fst p - IZR (W e) * 0.5) (snd p - IZR (H e) * 0.5)
         <= 1.18 * Rabs (disc_radius (W e) (H e) z).
Proof.
  intros Hr.
  destruct (mounted_layout templateField in_unit_disc
              template_layout_in_disc ini start callback rnd now0 now1
              w h dpr evs Hr) as (m & m' & E & E' & Hd).
  exists m, m'. split; [exact E|]. split; [exact E'|].
  cbn zeta. intros p Hp.
  now apply (template_mapped_extent (Page.engine_of templateField m')).
Qed.

Lemma template_frame_stays_in_disc_witness :
  exists m m',
    Page.mount templateField (Params None None None None) true true
      (fun _ => 0.5) 0 0 800 600 1 = Some m
    /\ Page.dispatch_all templateField
         [Page.AnimationFrame 16; Page.CallSetParams (only_density (Fin 0.01))]
         m = Some m'
    /\ let e := Page.engine_of templateField m' in
       let z := effective_zoom 0.08 0.09 e in
       forall p, In p (template_mapped e) ->
         Math_hypot (fst p - IZR (W e) * 0.5) (snd p - IZR (H e) * 0.5)
         <= 1.18 * Rabs (disc_radius (W e) (H e) z).
Proof.
  apply (template_frame_stays_in_disc (Params None None None None) true true
           (fun _ => 0.5) 0 0 800 600 1
           [Page.AnimationFrame 16;
            Page.CallSetParams (only_density (Fin 0.01))]).
  intros i. lra.
Defined.

(** X13. Every frame of vortex3.js, under the same conditions, computes
    its particles within 1.14 times the base radius of the screen centre,
    that is within [0.513 * min(W, H) * |z|] for the frame's zoom [z]. *)
Theorem vortex_frame_stays_in_disc (ini : params number)
    (start callback : bool) (rnd : nat -> R) (now0 now1 w h dpr : R)
    (evs : list Page.event) :
  unit_draws rnd ->
  exists m m',
    Page.mount vortex3 ini start callback rnd now0 now1 w h dpr = Some m
    /\ Page.dispatch_all vortex3 evs m = Some m'
    /\ let e := Page.engine_of vortex3 m' in
       let z := effective_zoom 0.08 0.09 e in
       forall p, In p (vortex_mapped e) ->
         Math_hypot (fst p - IZR (W e) * 0.5) (snd p - IZR (H e) * 0.5)
         <= 1.14 * Rabs (disc_radius (W e) (H e) z).
Proof.
  intros Hr.
  destruct (mounted_layout vortex3 in_unit_disc
              vortex_layout_in_disc ini start callback rnd now0 now1
              w h dpr evs Hr) as (m & m' & E & E' & Hd).
  exists m, m'. split; [exact E|]. split; [exact E'|].
  cbn zeta. intros p Hp.
  now apply (vortex_mapped_extent (Page.engine_of vortex3 m')).
Qed.

Lemma vortex_frame_stays_in_disc_witness :
  exists m m',
    Page.mount vortex3 (Params None None None None) true true
      (fun _ => 0.5) 0 0 800 600 1 = Some m
    /\ Page.dispatch_all vortex3
         [Page.AnimationFrame 16; Page.Resize 1024 768 2] m = Some m'
    /\ let e := Page.engine_of vortex3 m' in
       let z := effective_zoom 0.08 0.09 e in
       forall p, In p (vortex_mapped e) ->
         Math_hypot (fst p - IZR (W e) * 0.5) (snd p - IZR (H e) * 0.5)
         <= 1.14 * Rabs (disc_radius (W e) (H e) z).
Proof.
  apply (vortex_frame_stays_in_disc (Params None None None None) true true
           (fun _ => 0.5) 0 0 800 600 1
           [Page.AnimationFrame 16; Page.Resize 1024 768 2]).
  intros i. lra.
Defined.

(** X14. At a small zoom nothing is culled: when the base points lie in the
    unit disc and the frame's zoom [z] satisfies [1.062 * z < 1]
    (templateField.js) or [1.026 * z < 1] (vortex3.js), every particle of
    the frame passes the culling test and is drawn. *)
Theorem small_zoom_culls_nothing :
  (forall e : PointField.state templateField,
      in_unit_disc (arrays (data e)) -> (0 < W e)%Z -> (0 < H e)%Z ->
      0 <= effective_zoom 0.08 0.09 e ->
      1.062 * effective_zoom 0.08 0.09 e < 1 ->
      template_drawn e = template_mapped e)
  /\
  (forall e : PointField.state vortex3,
      in_unit_disc (arrays (data e)) -> (0 < W e)%Z -> (0 < H e)%Z ->
      0 <= effective_zoom 0.08 0.09 e ->
      1.026 * effective_zoom 0.08 0.09 e < 1 ->
      vortex_drawn e = vortex_mapped e).
Proof.
  split; intros e Hd HW HH Hz0 Hz1.
  - unfold template_drawn. apply filter_all.
    intros p Hp. apply close_to_centre_is_drawn.
    apply Rle_lt_trans with (1 := template_mapped_extent e p Hd Hp).
    rewrite disc_radius_abs by lia. rewrite (Rabs_right _ (Rle_ge _ _ Hz0)).
    apply IZR_lt in HW, HH.
    assert (0 < Rmin (IZR (W e)) (IZR (H e)))
      by (apply Rmin_glb_lt; assumption).
    nra.
  - unfold vortex_drawn. apply filter_all.
    intros p Hp. apply close_to_centre_is_drawn.
    apply Rle_lt_trans with (1 := vortex_mapped_extent e p Hd Hp).
    rewrite disc_radius_abs by lia. rewrite (Rabs_right _ (Rle_ge _ _ Hz0)).
    apply IZR_lt in HW, HH.
    assert (0 < Rmin (IZR (W e)) (IZR (H e)))
      by (apply Rmin_glb_lt; assumption).
    nra.
Qed.

Lemma small_zoom_culls_nothing_witness :
  template_drawn
    (set_zoom 0.5
       (PointField.set_field templateField (of_nat 3)
          (template_layout 3 3 (fun _ => 0.5)) blank_template))
  = template_mapped
      (set_zoom 0.5
         (PointField.set_field templateField (of_nat 3)
            (template_layout 3 3 (fun _ => 0.5)) blank_template))
  /\
  vortex_drawn
    (set_zoom 0.5
       (PointField.set_field vortex3 (of_nat 3)
          (vortex_layout 3 3 (fun _ => 0.5))
          (blank (XY [] []) (Fin 0.005) 0.5)))
  = vortex_mapped
      (set_zoom 0.5
         (PointField.set_field vortex3 (of_nat 3)
            (vortex_layout 3 3 (fun _ => 0.5))
            (blank (XY [] []) (Fin 0.005) 0.5))).
Proof.
  assert (Hr : unit_draws (fun _ => 0.5)) by (intros i; lra).
  split.
  - apply (proj1 small_zoom_culls_nothing).
    + exact (template_layout_in_disc 3 3 (fun _ => 0.5) Hr).
    + reflexivity.
    + reflexivity.
    + unfold effective_zoom, blank_template, blank. engine_simpl. lra.
    + unfold effective_zoom, blank_template, blank. engine_simpl. lra.
  - apply (proj2 small_zoom_culls_nothing).
    + exact (vortex_layout_in_disc 3 3 (fun _ => 0.5) Hr).
    + reflexivity.
    + reflexivity.
    + unfold effective_zoom, blank. engine_simpl. lra.
    + unfold effective_zoom, blank. engine_simpl. lra.
Defined.






(** ** The fire grid and its density *)

Lemma density01_range (e : Fire.state) : 0 <= Fire.density01 e <= 1.
Proof.
  unfold Fire.density01. split; [apply Rmax_l|].
  apply Rmax_lub; [lra|apply Rmin_l].
Qed.

Lemma density01_mono (e : Fire.state) (d1 d2 : R) :
  d1 <= d2 ->
  Fire.density01 (Fire.set_baseDensity d1 e)
  <= Fire.density01 (Fire.set_baseDensity d2 e).
Proof.
  intros Hd. unfold Fire.density01. engine_simpl.
  apply Rmax_lub; [apply Rmax_l|].
  eapply Rle_trans; [|apply Rmax_r].
  apply Rmin_glb; [apply Rmin_l|].
  eapply Rle_trans; [apply Rmin_r|exact Hd].
Qed.

Lemma cellSize_exact (d : R) :
  0 <= d <= 1 -> Rmax 14 (28 - d * 10) = 28 - d * 10.
Proof. intros Hd. apply Rmax_right. lra. Qed.

Lemma quotient_mono (side c1 c2 : R) :
  0 <= side -> 0 < c2 <= c1 -> side / c1 <= side / c2.
Proof.
  intros Hs Hc. unfold Rdiv. apply Rmult_le_compat_l; [exact Hs|].
  apply Rinv_le_contravar; lra.
Qed.

Lemma INR_to_nat_max (lo z : Z) :
  (0 <= lo)%Z -> INR (Z.to_nat (Z.max lo z)) = Rmax (IZR lo) (IZR z).
Proof.
  intros Hlo. rewrite INR_IZR_INZ, Z2Nat.id by lia. now rewrite Rmax_IZR.
Qed.

(** X16. [rebuildGrid] makes a grid of at least 24 x 18 cells that is
    finer, in both directions, the larger the density is, and never has
    more than [max(24, W / 18)] columns and [max(18, H / 14.4)] rows. *)
Theorem fire_grid_grows_with_density (e : Fire.state) (d1 d2 : R) :
  (0 <= W e)%Z -> (0 <= H e)%Z -> d1 <= d2 ->
  let g1 := data (Fire.rebuildGrid (Fire.set_baseDensity d1 e)) in
  let g2 := data (Fire.rebuildGrid (Fire.set_baseDensity d2 e)) in
  (24 <= Fire.gridW g1 <= Fire.gridW g2)%nat
  /\ (18 <= Fire.gridH g1 <= Fire.gridH g2)%nat
  /\ (Fire.gridSize g1 <= Fire.gridSize g2)%nat
  /\ INR (Fire.gridW g2) <= Rmax 24 (IZR (W e) / 18)
  /\ INR (Fire.gridH g2) <= Rmax 18 (IZR (H e) / 14.4).
Proof.
  intros HW HH Hd. apply IZR_le in HW, HH. cbn zeta.
  pose proof (density01_range (Fire.set_baseDensity d1 e)) as R1.
  pose proof (density01_range (Fire.set_baseDensity d2 e)) as R2.
  pose proof (density01_mono e d1 d2 Hd) as Hm.
  unfold Fire.rebuildGrid. engine_simpl.
  set (c1 := Fire.density01 (Fire.set_baseDensity d1 e)) in *.
  set (c2 := Fire.density01 (Fire.set_baseDensity d2 e)) in *.
  rewrite !(cellSize_exact c1 R1), !(cellSize_exact c2 R2).
  assert (Qw : IZR (W e) / (28 - c1 * 10) <= IZR (W e) / (28 - c2 * 10)).
  { apply quotient_mono; lra. }
  assert (Qh : IZR (H e) / ((28 - c1 * 10) * 0.8)
               <= IZR (H e) / ((28 - c2 * 10) * 0.8)).
  { apply quotient_mono; lra. }
  apply Int_part_le in Qw, Qh.
  assert (Uw : IZR (W e) / (28 - c2 * 10) <= IZR (W e) / 18).
  { apply quotient_mono; lra. }
  assert (Uh : IZR (H e) / ((28 - c2 * 10) * 0.8) <= IZR (H e) / 14.4).
  { apply quotient_mono; lra. }
  split; [lia|]. split; [lia|]. split; [nia|].
  rewrite !INR_to_nat_max by lia.
  destruct (base_Int_part (IZR (W e) / (28 - c2 * 10))) as [Iw _].
  destruct (base_Int_part (IZR (H e) / ((28 - c2 * 10) * 0.8))) as [Ih _].
  split; apply Rmax_lub;
    try apply Rmax_l;
    (eapply Rle_trans; [|apply Rmax_r]); lra.
Qed.

Lemma fire_grid_grows_with_density_witness :
  let e : Fire.state :=
    Engine 800%Z 600%Z 1 0.2 1 false 0 false None 0 60
      (Fire.Grid 0.3 0 0 0 []) (fun _ => 0.5) 0%nat true [] in
  let g1 := data (Fire.rebuildGrid (Fire.set_baseDensity 0.3 e)) in
  let g2 := data (Fire.rebuildGrid (Fire.set_baseDensity 0.9 e)) in
  (24 <= Fire.gridW g1 <= Fire.gridW g2)%nat
  /\ (18 <= Fire.gridH g1 <= Fire.gridH g2)%nat
  /\ (Fire.gridSize g1 <= Fire.gridSize g2)%nat
  /\ INR (Fire.gridW g2) <= Rmax 24 (IZR 800 / 18)
  /\ INR (Fire.gridH g2) <= Rmax 18 (IZR 600 / 14.4).
Proof.
  apply (fire_grid_grows_with_density
           (Engine 800%Z 600%Z 1 0.2 1 false 0 false None 0 60
              (Fire.Grid 0.3 0 0 0 []) (fun _ => 0.5) 0%nat true [])
           0.3 0.9).
  - cbn [W]. lia.
  - cbn [H]. lia.
  - lra.
Defined.

(** ** Seeding *)



(** ** The fire engine through its calls *)

Lemma rebuildGrid_steady (e : Fire.state) :
  unit_draws (random e) -> fire_steady (Fire.rebuildGrid e).
Proof.
  intros Hr. destruct (rebuildGrid_ok e) as [Hg Hw].
  unfold fire_steady. split; [exact Hg|].
  split; [unfold Fire.rebuildGrid; engine_simpl; lia|].
  split; [unfold Fire.rebuildGrid; engine_simpl; lia|].
  split; [exact Hw|exact Hr].
Qed.

Lemma stepFire_steady (steps : nat) (e : Fire.state) :
  fire_steady e -> fire_steady (Fire.stepFire steps e).
Proof.
  intros (Hg & Hw24 & Hh18 & Hw & Hr).
  destruct (stepFire_within steps e Hg Hr Hw) as [Hg' Hw'].
  unfold fire_steady. split; [exact Hg'|].
  unfold Fire.stepFire in *.
  destruct (Fire.gridSize (data e) =? 0)%nat.
  - repeat split; try assumption; apply Hw || apply Hr.
  - engine_simpl. split; [exact Hw24|]. split; [exact Hh18|].
    split; [exact Hw'|]. intros i. apply Hr.
Qed.

Lemma fire_loop_steady (now : R) (e : Fire.state) :
  fire_steady e -> fire_steady (Fire.loop now e).
Proof.
  intros He. unfold Fire.loop. destruct (negb (running e)); [exact He|].
  unfold Fire.integrate.
  set (e1 := set_fpsEMA _ (set_last now e)).
  assert (H1 : fire_steady e1) by exact He.
  pose proof (stepFire_steady (Fire.steps_per_frame e1) e1 H1) as H2.
  set (e2 := Fire.stepFire (Fire.steps_per_frame e1) e1) in *.
  unfold fire_steady, breathe in *. engine_simpl.
  destruct (zoomAuto e2); exact H2.
Qed.

Lemma fire_reset_data (e : Fire.state) :
  data (Fire.reset e)
  = Fire.Grid (Fire.baseDensity (data e)) (Fire.gridW (data e))
      (Fire.gridH (data e)) (Fire.gridSize (data e))
      (map (fun _ => 0) (Fire.buffer (data e)))
  /\ random (Fire.reset e) = random e.
Proof.
  destruct e as [? ? ? ? ? ? ? ? ? ? ? g ? ? ? ?].
  destruct g as [d gw gh gs buf]. unfold Fire.reset. engine_simpl.
  destruct buf; split; reflexivity.
Qed.

Lemma fire_reset_steady (e : Fire.state) :
  fire_steady e -> fire_steady (Fire.reset e).
Proof.
  intros ((G1 & G2 & G3 & G4) & Hw24 & Hh18 & Hw & Hr).
  destruct (fire_reset_data e) as [Ed Er].
  unfold fire_steady, grid_ok. rewrite Ed, Er. engine_simpl.
  split; [repeat split; try assumption; now rewrite length_map|].
  split; [exact Hw24|]. split; [exact Hh18|]. split; [|exact Hr].
  split; intros j; [|intros _]; rewrite nth_map_zero; lra.
Qed.

Lemma fire_setParams_steady (p : params R) (e : Fire.state) :
  fire_steady e -> fire_steady (Fire.setParams p e).
Proof.
  intros He. unfold Fire.setParams.
  set (e1 := match p_speed p with
             | Some s => emit (StatSpeed s) (set_speed s e)
             | None => e
             end).
  assert (H1 : fire_steady e1) by (unfold e1; destruct (p_speed p); exact He).
  set (e2 := match p_density p with
             | Some d => Fire.rebuildGrid (Fire.set_baseDensity d e1)
             | None => e1
             end).
  assert (H2 : fire_steady e2).
  { unfold e2. destruct (p_density p) as [d|]; [|exact H1].
    apply rebuildGrid_steady. apply H1. }
  destruct (p_zoom p), (p_zoomAuto p) as [[|]|]; exact H2.
Qed.

Lemma fire_apply_steady (c : fire_call) (e : Fire.state) :
  fire_steady e -> fire_steady (fire_apply c e).
Proof.
  intros He. destruct c as [w h dpr|now|now| | |p|]; cbn [fire_apply].
  - unfold Fire.fitCanvas. apply rebuildGrid_steady. apply He.
  - now apply fire_loop_steady.
  - unfold play. destruct (running e); exact He.
  - unfold pause. engine_simpl. destruct (rafId e); exact He.
  - now apply fire_reset_steady.
  - now apply fire_setParams_steady.
  - unfold Fire.destroy, pause. engine_simpl. destruct (rafId e); exact He.
Qed.

Lemma fire_created_steady (ini : params R) (start callback : bool)
    (rnd : nat -> R) (now0 now1 w h dpr : R) :
  unit_draws rnd ->
  fire_steady (Fire.createAnimation ini start callback rnd now0 now1 w h dpr).
Proof.
  intros Hr. unfold Fire.createAnimation.
  match goal with
  | |- context [Fire.fitCanvas w h dpr ?e0] =>
    assert (H1 : fire_steady (Fire.fitCanvas w h dpr e0))
      by (unfold Fire.fitCanvas; apply rebuildGrid_steady; exact Hr);
    set (e1 := Fire.fitCanvas w h dpr e0) in *
  end.
  pose proof (fire_setParams_steady ini e1 H1) as H2.
  set (e2 := Fire.setParams ini e1) in *.
  destruct start; [|exact H2].
  unfold play. destruct (running e2); exact H2.
Qed.

(** X18. A fire engine created with draws of [Math.random()] in [0, 1)
    keeps, through every sequence of calls of its functions (frames with
    their seeding, resizes, parameter updates, resets), a well-formed grid
    of at least 24 x 18 cells whose intensities all lie in [0, 65] and whose
    padding cells are zero. *)
Theorem fire_cells_stay_in_range (ini : params R) (start callback : bool)
    (rnd : nat -> R) (now0 now1 w h dpr : R) (calls : list fire_call) :
  unit_draws rnd ->
  let e :=
    run fire_apply calls
      (Fire.createAnimation ini start callback rnd now0 now1 w h dpr) in
  let g := data e in
  (24 <= Fire.gridW g)%nat /\ (18 <= Fire.gridH g)%nat
  /\ Fire.gridSize g = (Fire.gridW g * Fire.gridH g)%nat
  /\ length (Fire.buffer g) = (Fire.gridSize g + Fire.gridW g + 1)%nat
  /\ (forall j, 0 <= nth j (Fire.buffer g) 0 <= 65)
  /\ (forall j, (Fire.gridSize g <= j)%nat -> nth j (Fire.buffer g) 0 = 0).
Proof.
  intros Hr. cbn zeta.
  pose proof (fire_created_steady ini start callback rnd now0 now1 w h dpr Hr)
    as H0.
  set (e0 := Fire.createAnimation ini start callback rnd now0 now1 w h dpr)
    in *.
  clearbody e0.
  assert (K : fire_steady (run fire_apply calls e0)).
  { revert e0 H0. induction calls as [|c calls IH]; intros e0 H0; [exact H0|].
    rewrite run_cons. apply IH. now apply fire_apply_steady. }
  destruct K as ((_ & _ & G3 & G4) & Hw24 & Hh18 & [W1 W2] & _).
  repeat split; try assumption; apply W1.
Qed.

Lemma fire_cells_stay_in_range_witness :
  let e :=
    run fire_apply
      [FireLoop 16; FireSetParams (Params None (Some 0.8) None None);
       FireLoop 33; FireReset; FireLoop 50]
      (Fire.createAnimation (Params None None None None) true true
         (fun _ => 0.5) 0 0 800 600 1) in
  let g := data e in
  (24 <= Fire.gridW g)%nat /\ (18 <= Fire.gridH g)%nat
  /\ Fire.gridSize g = (Fire.gridW g * Fire.gridH g)%nat
  /\ length (Fire.buffer g) = (Fire.gridSize g + Fire.gridW g + 1)%nat
  /\ (forall j, 0 <= nth j (Fire.buffer g) 0 <= 65)
  /\ (forall j, (Fire.gridSize g <= j)%nat -> nth j (Fire.buffer g) 0 = 0).
Proof.
  apply (fire_cells_stay_in_range (Params None None None None) true true
           (fun _ => 0.5) 0 0 800 600 1
           [FireLoop 16; FireSetParams (Params None (Some 0.8) None None);
            FireLoop 33; FireReset; FireLoop 50]).
  intros i. lra.
Defined.

(** ** Colours of the fire *)

Lemma heat_range (v : R) : 0 <= Rmax 0 (Rmin 1 (v / 45)) <= 1.
Proof.
  split; [apply Rmax_l|]. apply Rmax_lub; [lra|apply Rmin_l].
Qed.

Lemma heat_mono (v v' : R) :
  v <= v' -> Rmax 0 (Rmin 1 (v / 45)) <= Rmax 0 (Rmin 1 (v' / 45)).
Proof.
  intros Hv. apply Rmax_lub; [apply Rmax_l|].
  eapply Rle_trans; [|apply Rmax_r].
  apply Rmin_glb; [apply Rmin_l|].
  eapply Rle_trans; [apply Rmin_r|lra].
Qed.

Lemma Int_part_between (lo hi : Z) (x : R) :
  IZR lo <= x <= IZR hi -> (lo <= Int_part x <= hi)%Z.
Proof.
  intros [H1 H2]. apply Int_part_le in H1, H2.
  rewrite Int_part_IZR in H1, H2. lia.
Qed.

Lemma toFixed3_mono (x y : R) : x <= y -> toFixed3 x <= toFixed3 y.
Proof.
  intros Hxy. unfold toFixed3.
  assert (H1 : (Int_part (x * 1000 + 0.5) <= Int_part (y * 1000 + 0.5))%Z)
    by (apply Int_part_le; lra).
  apply IZR_le in H1. lra.
Qed.

Lemma toFixed3_exact (n : Z) : toFixed3 (IZR n / 1000) = IZR n / 1000.
Proof.
  unfold toFixed3. rewrite (Int_part_eq n); [reflexivity|]. lra.
Qed.

(** X20. [intensityToRGBA] maps every intensity to a colour between the
    dark ember [rgba(30, 10, 45, 0.15)], taken at 0 and below, and the
    bright flame [rgba(255, 180, 5, 0.95)], taken at 45 and above; red,
    green and alpha never decrease and blue never increases with the
    intensity. *)
Theorem intensity_colour_is_monotone (v v' : R) :
  let c := intensityToRGBA v in
  let c' := intensityToRGBA v' in
  (30 <= red c <= 255)%Z /\ (10 <= green c <= 180)%Z
  /\ (5 <= blue c <= 45)%Z /\ 0.15 <= alpha c <= 0.95
  /\ (v <= 0 -> c = RGBA 30 10 45 0.15)
  /\ (45 <= v -> c = RGBA 255 180 5 0.95)
  /\ (v <= v' ->
      (red c <= red c')%Z /\ (green c <= green c')%Z
      /\ (blue c' <= blue c)%Z /\ alpha c <= alpha c').
Proof.
  cbn zeta. unfold intensityToRGBA. cbn [red green blue alpha].
  pose proof (heat_range v) as Ht.
  set (h := Rmax 0 (Rmin 1 (v / 45))) in *.
  split; [apply Int_part_between; lra|].
  split; [apply Int_part_between; nra|].
  split; [apply Int_part_between; lra|].
  split.
  { split.
    - apply Rle_trans with (toFixed3 (IZR 150 / 1000));
        [rewrite toFixed3_exact; lra|apply toFixed3_mono; lra].
    - apply Rle_trans with (toFixed3 (IZR 950 / 1000));
        [apply toFixed3_mono; lra|rewrite toFixed3_exact; lra]. }
  split.
  { intros Hv. assert (E : h = 0).
    { unfold h. apply Rmax_left.
      eapply Rle_trans; [apply Rmin_r|lra]. }
    rewrite E.
    replace (30 + 225 * 0) with (IZR 30) by lra.
    replace (10 + 170 * (0 * 0)) with (IZR 10) by lra.
    replace (5 + 40 * (1 - 0)) with (IZR 45) by lra.
    replace (0.15 + 0.8 * 0) with (IZR 150 / 1000) by lra.
    rewrite !Int_part_IZR, toFixed3_exact. f_equal. lra. }
  split.
  { intros Hv. assert (E : h = 1).
    { unfold h. rewrite Rmin_left by lra. apply Rmax_right. lra. }
    rewrite E.
    replace (30 + 225 * 1) with (IZR 255) by lra.
    replace (10 + 170 * (1 * 1)) with (IZR 180) by lra.
    replace (5 + 40 * (1 - 1)) with (IZR 5) by lra.
    replace (0.15 + 0.8 * 1) with (IZR 950 / 1000) by lra.
    rewrite !Int_part_IZR, toFixed3_exact. f_equal. lra. }
  intros Hv. pose proof (heat_mono v v' Hv) as Hm. fold h in Hm.
  pose proof (heat_range v') as Ht'.
  set (h' := Rmax 0 (Rmin 1 (v' / 45))) in *.
  split; [apply Int_part_le; lra|].
  split; [apply Int_part_le; nra|].
  split; [apply Int_part_le; lra|].
  apply toFixed3_mono. lra.
Qed.

Lemma intensity_colour_is_monotone_witness :
  let c := intensityToRGBA 0 in
  let c' := intensityToRGBA 60 in
  (30 <= red c <= 255)%Z /\ (10 <= green c <= 180)%Z
  /\ (5 <= blue c <= 45)%Z /\ 0.15 <= alpha c <= 0.95
  /\ c = RGBA 30 10 45 0.15
  /\ c' = RGBA 255 180 5 0.95
  /\ (red c <= red c')%Z /\ (green c <= green c')%Z
  /\ (blue c' <= blue c)%Z /\ alpha c <= alpha c'.
Proof.
  destruct (intensity_colour_is_monotone 0 60)
    as (A1 & A2 & A3 & A4 & A5 & _ & A7).
  destruct (intensity_colour_is_monotone 60 60)
    as (_ & _ & _ & _ & _ & B6 & _).
  split; [exact A1|]. split; [exact A2|]. split; [exact A3|].
  split; [exact A4|]. split; [apply A5; lra|]. split; [apply B6; lra|].
  apply A7. lra.
Defined.

(** ** A frame of the fire *)

(** X21. A frame of a running fire engine always simulates: at least one
    step, each with at least one seed, whatever the speed (exactly one step
    below speed 0.375, zero and negative speeds included), and the draws of
    [Math.random()] it consumes are two per seed. *)
Theorem fire_frame_always_steps (now : R) (e : Fire.state) :
  running e = true -> Fire.gridSize (data e) <> 0%nat ->
  let e' := Fire.loop now e in
  let n := Fire.steps_per_frame e in
  let g := data e in
  (1 <= n)%nat /\ (1 <= Fire.seedCount e)%nat
  /\ (speed e < 0.375 -> n = 1%nat)
  /\ Fire.buffer (data e')
     = fst (Fire.simulate n (Fire.gridW g) (Fire.gridH g) (Fire.gridSize g)
              (Fire.seedCount e) (random e) (Fire.buffer g))
  /\ (forall i,
        random e' i = random e (n * (2 * Fire.seedCount e) + i)%nat)
  /\ Fire.gridW (data e') = Fire.gridW g
  /\ Fire.gridH (data e') = Fire.gridH g.
Proof.
  intros Hr Hg. cbn zeta.
  split; [unfold Fire.steps_per_frame; lia|].
  split; [apply seedCount_positive|].
  split.
  { intros Hs. unfold Fire.steps_per_frame.
    destruct (base_Int_part (speed e * 4 + 0.5)) as [H1 _].
    assert (H2 : IZR (Int_part (speed e * 4 + 0.5)) < IZR 2) by lra.
    apply lt_IZR in H2. lia. }
  unfold Fire.loop. rewrite Hr. cbn [negb].
  unfold Fire.integrate, Fire.stepFire. engine_simpl.
  apply Nat.eqb_neq in Hg. rewrite Hg.
  unfold breathe. engine_simpl.
  destruct (zoomAuto e); engine_simpl; repeat split.
Qed.

Lemma fire_frame_always_steps_witness :
  let e0 := Fire.createAnimation (Params None None None None) true true
              (fun _ => 0.5) 0 0 800 600 1 in
  let e' := Fire.loop 16 e0 in
  let n := Fire.steps_per_frame e0 in
  let g := data e0 in
  (1 <= n)%nat /\ (1 <= Fire.seedCount e0)%nat
  /\ (speed e0 < 0.375 -> n = 1%nat)
  /\ Fire.buffer (data e')
     = fst (Fire.simulate n (Fire.gridW g) (Fire.gridH g) (Fire.gridSize g)
              (Fire.seedCount e0) (random e0) (Fire.buffer g))
  /\ (forall i,
        random e' i = random e0 (n * (2 * Fire.seedCount e0) + i)%nat)
  /\ Fire.gridW (data e') = Fire.gridW g
  /\ Fire.gridH (data e') = Fire.gridH g.
Proof.
  apply (fire_frame_always_steps 16
           (Fire.createAnimation (Params None None None None) true true
              (fun _ => 0.5) 0 0 800 600 1)).
  - reflexivity.
  - destruct (fire_created_steady (Params None None None None) true true
                (fun _ => 0.5) 0 0 800 600 1)
      as ((_ & _ & G3 & _) & H24 & H18 & _); [intros i; lra|].
    rewrite G3. nia.
Defined.

(** X22. The fire frame draws only lit cells: every rectangle it fills
    belongs to a cell of the grid whose intensity is at least 1.5, is
    filled with the colour of that intensity (so with a red of at least 37
    and an alpha of at least 0.177), and lies, with its gap, inside the
    column band of its cell. *)
Theorem fire_draws_only_lit_cells (e : Fire.state) :
  let g := data e in
  let cellW := IZR (W e) / INR (Fire.gridW g) in
  Forall
    (fun c =>
       let v := nth (row c * Fire.gridW g + col c) (Fire.buffer g) 0 in
       (col c < Fire.gridW g)%nat /\ (row c < Fire.gridH g)%nat
       /\ 1.5 <= v
       /\ style c = intensityToRGBA v
       /\ (37 <= red (style c))%Z /\ 0.177 <= alpha (style c)
       /\ INR (col c) * cellW + 0.4 <= rx c
       /\ rx c + rw c <= (INR (col c) + 1) * cellW - 0.4)
    (fire_drawn e).
Proof.
  cbn zeta. apply Forall_forall. intros c Hc. unfold fire_drawn in Hc.
  destruct (Fire.gridSize (data e) =? 0)%nat; [contradiction|].
  apply in_flat_map in Hc. destruct Hc as (y & Hy & Hc).
  apply in_seq in Hy.
  destruct (Rlt_dec _ _); [contradiction|].
  destruct (Rlt_dec _ _); [contradiction|].
  apply in_flat_map in Hc. destruct Hc as (x & Hx & Hc).
  apply in_seq in Hx.
  destruct (Rlt_dec _ 1.5) as [|Hv]; [contradiction|].
  destruct Hc as [<-|[]]. cbn [col row rx rw style].
  apply Rnot_lt_le in Hv.
  set (v := nth (y * Fire.gridW (data e) + x) (Fire.buffer (data e)) 0) in *.
  set (cellW := IZR (W e) / INR (Fire.gridW (data e))).
  pose proof (Rmax_l 0.4 (cellW * 0.08)) as Hgap.
  split; [lia|]. split; [lia|]. split; [exact Hv|]. split; [reflexivity|].
  unfold intensityToRGBA. cbn [red alpha].
  assert (Hh : 1 / 30 <= Rmax 0 (Rmin 1 (v / 45))).
  { eapply Rle_trans; [|apply Rmax_r]. apply Rmin_glb; lra. }
  set (h := Rmax 0 (Rmin 1 (v / 45))) in *.
  split.
  { assert (H1 : (Int_part (IZR 37) <= Int_part (30 + 225 * h))%Z)
      by (apply Int_part_le; lra).
    now rewrite Int_part_IZR in H1. }
  split.
  { unfold toFixed3.
    assert (H1 : (Int_part (IZR 177)
                  <= Int_part ((0.15 + 0.8 * h) * 1000 + 0.5))%Z)
      by (apply Int_part_le; lra).
    rewrite Int_part_IZR in H1. apply IZR_le in H1. lra. }
  split; lra.
Qed.

(** ** The page and its animation *)

Lemma knobs_play {D : Type} (density : D -> number) (now : R)
    (e : engine D) :
  Host.knobs density (play now e)
  = (speed e, density (data e), zoom e, zoomAuto e, true).
Proof.
  unfold play, Host.knobs. destruct (running e) eqn:Hr; engine_simpl;
    rewrite ?Hr; reflexivity.
Qed.

Lemma knobs_pause {D : Type} (density : D -> number) (e : engine D) :
  Host.knobs density (pause e)
  = (speed e, density (data e), zoom e, zoomAuto e, false).
Proof.
  unfold pause, Host.knobs. engine_simpl. destruct (rafId e); reflexivity.
Qed.

Section TemplateKnobs.
Variable F : Field.
Implicit Type e : PointField.state F.

Lemma rebuild_knobs e e' :
  PointField.rebuildPointField F e = Some e' ->
  Host.knobs baseDensity e' = Host.knobs baseDensity e.
Proof.
  intros E.
  destruct (rebuild_frame F e e' E) as (A & _ & _ & _ & B & C & D0 & _).
  destruct (rebuild_keeps_inputs F e e' E) as (_ & _ & G & _).
  unfold Host.knobs. now rewrite A, B, C, D0, G.
Qed.

Lemma setParams_knobs (p : params number) e e' :
  PointField.setParams F p e = Some e' ->
  Host.knobs baseDensity e' = Host.tuned p (Host.knobs baseDensity e).
Proof.
  unfold PointField.setParams.
  set (e1 := match p_speed p with
             | Some s => emit (StatSpeed s) (set_speed s e)
             | None => e
             end).
  assert (K1 : speed e1 = match p_speed p with Some v => v | None => speed e end
               /\ baseDensity (data e1) = baseDensity (data e)
               /\ zoom e1 = zoom e /\ zoomAuto e1 = zoomAuto e
               /\ running e1 = running e).
  { unfold e1. destruct (p_speed p); repeat split. }
  destruct K1 as (S1 & D1 & Z1 & A1 & R1).
  destruct (match p_density p with
            | Some d =>
              PointField.rebuildPointField F
                (PointField.set_baseDensity F d e1)
            | None => Some e1
            end) as [e2|] eqn:E2; [|discriminate].
  assert (K2 : speed e2 = match p_speed p with Some v => v | None => speed e end
               /\ baseDensity (data e2)
                  = match p_density p with
                    | Some v => v
                    | None => baseDensity (data e)
                    end
               /\ zoom e2 = zoom e /\ zoomAuto e2 = zoomAuto e
               /\ running e2 = running e).
  { destruct (p_density p) as [d|].
    - pose proof (rebuild_knobs _ _ E2) as K. unfold Host.knobs in K.
      engine_simpl. injection K as K_1 K_2 K_3 K_4 K_5.
      repeat split; congruence.
    - injection E2 as <-. repeat split; assumption. }
  destruct K2 as (S2 & D2 & Z2 & A2 & R2).
  intros [= <-]. unfold Host.knobs, Host.tuned.
  destruct (p_zoom p), (p_zoomAuto p) as [[|]|]; engine_simpl;
    rewrite S2, D2, ?Z2, ?A2, R2; reflexivity.
Qed.

Lemma setParams_total (p : params number) e :
  exists e', PointField.setParams F p e = Some e'.
Proof.
  destruct (setParams_frame F e p) as (e' & E & _). now exists e'.
Qed.

Lemma fitCanvas_knobs (w h dpr : R) e :
  exists e',
    PointField.fitCanvas F w h dpr e = Some e'
    /\ Host.knobs baseDensity e' = Host.knobs baseDensity e.
Proof.
  unfold PointField.fitCanvas.
  destruct (rebuild_total F (measure w h dpr e)) as [e' E].
  exists e'. split; [exact E|]. now rewrite (rebuild_knobs _ _ E).
Qed.

Lemma loop_knobs (now : R) e :
  Host.knobs baseDensity (PointField.loop F now e)
  = Host.knobs baseDensity e.
Proof.
  unfold PointField.loop. destruct (running e) eqn:Hr; [|reflexivity].
  cbn [negb]. unfold PointField.integrate, breathe, Host.knobs.
  engine_simpl. destruct (zoomAuto e) eqn:Hz; engine_simpl;
    rewrite ?Hz, ?Hr; reflexivity.
Qed.

Lemma created_knobs (s d z : R) (a start : bool) (rnd : nat -> R)
    (now0 now1 w h dpr : R) :
  exists e,
    PointField.createAnimation F
      (Params (Some s) (Some (Fin d)) (Some z) (Some a)) start true rnd
      now0 now1 w h dpr = Some e
    /\ Host.knobs baseDensity e = (s, Fin d, z, a, start).
Proof.
  unfold PointField.createAnimation.
  cbn [p_speed p_density p_zoom p_zoomAuto].
  match goal with
  | |- context [PointField.fitCanvas F w h dpr ?e0] =>
    destruct (fitCanvas_knobs w h dpr e0) as (e1 & E1 & K1)
  end.
  rewrite E1.
  destruct (setParams_total (Params (Some s) (Some (Fin d)) (Some z) (Some a))
              e1) as [e2 E2].
  rewrite E2. pose proof (setParams_knobs _ _ _ E2) as K2.
  rewrite K1 in K2. unfold Host.knobs at 2 in K2. engine_simpl.
  cbn [Host.tuned p_speed p_density p_zoom p_zoomAuto] in K2.
  eexists. split; [reflexivity|].
  unfold Host.knobs in K2. injection K2 as K_1 K_2 K_3 K_4 K_5.
  destruct start.
  - rewrite knobs_play. congruence.
  - unfold Host.knobs. congruence.
Qed.

End TemplateKnobs.

Lemma orbit_rebuild_knobs (e e' : Orbit.state) :
  Orbit.rebuildPointField e = Some e' ->
  Host.knobs baseDensity e' = Host.knobs baseDensity e.
Proof.
  unfold Orbit.rebuildPointField.
  destruct (strict_eqb _ _); [now intros [= <-]|].
  destruct (Float32Array_length _); [|discriminate].
  now intros [= <-].
Qed.

Lemma orbit_setParams_knobs (p : params number) (e e' : Orbit.state) :
  Orbit.setParams p e = Some e' ->
  Host.knobs baseDensity e' = Host.tuned p (Host.knobs baseDensity e).
Proof.
  unfold Orbit.setParams.
  set (e1 := match p_speed p with
             | Some s => emit (StatSpeed s) (set_speed s e)
             | None => e
             end).
  assert (K1 : speed e1 = match p_speed p with Some v => v | None => speed e end
               /\ baseDensity (data e1) = baseDensity (data e)
               /\ zoom e1 = zoom e /\ zoomAuto e1 = zoomAuto e
               /\ running e1 = running e).
  { unfold e1. destruct (p_speed p); repeat split. }
  destruct K1 as (S1 & D1 & Z1 & A1 & R1).
  destruct (match p_density p with
            | Some d => Orbit.rebuildPointField (Orbit.set_baseDensity d e1)
            | None => Some e1
            end) as [e2|] eqn:E2; [|discriminate].
  assert (K2 : speed e2 = match p_speed p with Some v => v | None => speed e end
               /\ baseDensity (data e2)
                  = match p_density p with
                    | Some v => v
                    | None => baseDensity (data e)
                    end
               /\ zoom e2 = zoom e /\ zoomAuto e2 = zoomAuto e
               /\ running e2 = running e).
  { destruct (p_density p) as [d|].
    - pose proof (orbit_rebuild_knobs _ _ E2) as K. unfold Host.knobs in K.
      engine_simpl. injection K as K_1 K_2 K_3 K_4 K_5.
      repeat split; congruence.
    - injection E2 as <-. repeat split; assumption. }
  destruct K2 as (S2 & D2 & Z2 & A2 & R2).
  intros [= <-]. unfold Host.knobs, Host.tuned.
  destruct (p_zoom p), (p_zoomAuto p) as [[|]|]; engine_simpl;
    rewrite S2, D2, ?Z2, ?A2, R2; reflexivity.
Qed.

Lemma orbit_setParams_total (p : params number) (e : Orbit.state) :
  exists e', Orbit.setParams p e = Some e'.
Proof.
  unfold Orbit.setParams.
  destruct (p_density p) as [d|]; [|eexists; reflexivity].
  match goal with
  | |- context [Orbit.rebuildPointField ?e1] =>
    destruct (orbit_rebuild_total e1) as [e2 E2]
  end.
  rewrite E2. eexists. reflexivity.
Qed.

Lemma orbit_fitCanvas_knobs (w h dpr : R) (e : Orbit.state) :
  exists e',
    Orbit.fitCanvas w h dpr e = Some e'
    /\ Host.knobs baseDensity e' = Host.knobs baseDensity e.
Proof.
  unfold Orbit.fitCanvas.
  destruct (orbit_rebuild_total (measure w h dpr e)) as [e' E].
  exists e'. split; [exact E|]. now rewrite (orbit_rebuild_knobs _ _ E).
Qed.

Lemma orbit_loop_knobs (now : R) (e : Orbit.state) :
  Host.knobs baseDensity (Orbit.loop now e) = Host.knobs baseDensity e.
Proof.
  unfold Orbit.loop. destruct (running e) eqn:Hr; [|reflexivity].
  cbn [negb]. unfold Orbit.integrate, breathe, Host.knobs.
  engine_simpl. destruct (zoomAuto e) eqn:Hz; engine_simpl;
    rewrite ?Hz, ?Hr; reflexivity.
Qed.

Lemma orbit_created_knobs (s d z : R) (a start : bool) (rnd : nat -> R)
    (now0 now1 w h dpr : R) :
  exists e,
    Orbit.createAnimation
      (Params (Some s) (Some (Fin d)) (Some z) (Some a)) start true rnd
      now0 now1 w h dpr = Some e
    /\ Host.knobs baseDensity e = (s, Fin d, z, a, start).
Proof.
  unfold Orbit.createAnimation.
  cbn [p_speed p_density p_zoom p_zoomAuto].
  match goal with
  | |- context [Orbit.fitCanvas w h dpr ?e0] =>
    destruct (orbit_fitCanvas_knobs w h dpr e0) as (e1 & E1 & K1)
  end.
  rewrite E1.
  destruct (orbit_setParams_total
              (Params (Some s) (Some (Fin d)) (Some z) (Some a)) e1)
    as [e2 E2].
  rewrite E2. pose proof (orbit_setParams_knobs _ _ _ E2) as K2.
  rewrite K1 in K2. unfold Host.knobs at 2 in K2. engine_simpl.
  cbn [Host.tuned p_speed p_density p_zoom p_zoomAuto] in K2.
  eexists. split; [reflexivity|].
  unfold Host.knobs in K2. injection K2 as K_1 K_2 K_3 K_4 K_5.
  destruct start.
  - rewrite knobs_play. congruence.
  - unfold Host.knobs. congruence.
Qed.

Lemma fire_rebuildGrid_knobs (e : Fire.state) :
  Host.knobs (fun g => Fin (Fire.baseDensity g)) (Fire.rebuildGrid e)
  = Host.knobs (fun g => Fin (Fire.baseDensity g)) e.
Proof. reflexivity. Qed.

Lemma fire_setParams_knobs (p : params R) (e : Fire.state) :
  Host.knobs (fun g => Fin (Fire.baseDensity g)) (Fire.setParams p e)
  = Host.tuned (Host.to_number p)
      (Host.knobs (fun g => Fin (Fire.baseDensity g)) e).
Proof.
  destruct p as [[s|] [d|] [z|] [[|]|]]; reflexivity.
Qed.

Lemma fire_loop_knobs (now : R) (e : Fire.state) :
  Host.knobs (fun g => Fin (Fire.baseDensity g)) (Fire.loop now e)
  = Host.knobs (fun g => Fin (Fire.baseDensity g)) e.
Proof.
  unfold Fire.loop. destruct (running e) eqn:Hr; [|reflexivity].
  cbn [negb]. unfold Fire.integrate, Fire.stepFire, breathe, Host.knobs.
  engine_simpl.
  destruct (Fire.gridSize (data e) =? 0)%nat; engine_simpl;
    destruct (zoomAuto e) eqn:Hz; engine_simpl; rewrite ?Hz, ?Hr;
    reflexivity.
Qed.

Lemma fire_reset_knobs (e : Fire.state) :
  Host.knobs (fun g => Fin (Fire.baseDensity g)) (Fire.reset e)
  = Host.knobs (fun g => Fin (Fire.baseDensity g)) e.
Proof.
  destruct (fire_reset_data e) as [Ed _].
  unfold Host.knobs. rewrite Ed. unfold Fire.reset.
  destruct (Fire.buffer (data e)); reflexivity.
Qed.

Lemma fire_created_knobs (s d z : R) (a start : bool) (rnd : nat -> R)
    (now0 now1 w h dpr : R) :
  Host.knobs (fun g => Fin (Fire.baseDensity g))
    (Fire.createAnimation (Params (Some s) (Some d) (Some z) (Some a))
       start true rnd now0 now1 w h dpr)
  = (s, Fin d, z, a, start).
Proof.
  unfold Fire.createAnimation, Fire.setParams, Fire.fitCanvas, play.
  cbn [p_speed p_density p_zoom p_zoomAuto].
  destruct start, a; reflexivity.
Qed.

Lemma a_setParams_knobs (p : params R) (a : Host.animation) :
  exists a',
    Host.a_setParams p a = Some a'
    /\ Host.a_knobs a' = Host.tuned (Host.to_number p) (Host.a_knobs a).
Proof.
  destruct a as [e|e|e|e]; cbn [Host.a_setParams Host.a_knobs].
  - destruct (orbit_setParams_total (Host.to_number p) e) as [e' E].
    rewrite E. eexists. split; [reflexivity|].
    now apply orbit_setParams_knobs.
  - destruct (setParams_total swirlField (Host.to_number p) e) as [e' E].
    rewrite E. eexists. split; [reflexivity|].
    now apply (setParams_knobs swirlField).
  - destruct (setParams_total templateField (Host.to_number p) e) as [e' E].
    rewrite E. eexists. split; [reflexivity|].
    now apply (setParams_knobs templateField).
  - eexists. split; [reflexivity|]. apply fire_setParams_knobs.
Qed.

Lemma a_fitCanvas_knobs (w h dpr : R) (a : Host.animation) :
  exists a',
    Host.a_fitCanvas w h dpr a = Some a'
    /\ Host.a_knobs a' = Host.a_knobs a.
Proof.
  destruct a as [e|e|e|e]; cbn [Host.a_fitCanvas Host.a_knobs].
  - destruct (orbit_fitCanvas_knobs w h dpr e) as (e' & E & K).
    rewrite E. eexists. split; [reflexivity|exact K].
  - destruct (fitCanvas_knobs swirlField w h dpr e) as (e' & E & K).
    rewrite E. eexists. split; [reflexivity|exact K].
  - destruct (fitCanvas_knobs templateField w h dpr e) as (e' & E & K).
    rewrite E. eexists. split; [reflexivity|exact K].
  - eexists. split; reflexivity.
Qed.

Lemma a_loop_knobs (now : R) (a : Host.animation) :
  Host.a_knobs (Host.a_loop now a) = Host.a_knobs a.
Proof.
  destruct a as [e|e|e|e]; cbn [Host.a_loop Host.a_knobs].
  - apply orbit_loop_knobs.
  - apply loop_knobs.
  - apply loop_knobs.
  - apply fire_loop_knobs.
Qed.

Lemma a_reset_knobs (a : Host.animation) :
  Host.a_knobs (Host.a_reset a) = Host.a_knobs a.
Proof.
  destruct a as [e|e|e|e]; cbn [Host.a_reset Host.a_knobs];
    try reflexivity.
  apply fire_reset_knobs.
Qed.

Lemma a_play_knobs (now : R) (a : Host.animation) :
  Host.a_knobs (Host.a_play now a) = (fst (Host.a_knobs a), true).
Proof.
  destruct a as [e|e|e|e]; cbn [Host.a_play Host.a_knobs];
    apply knobs_play.
Qed.

Lemma a_pause_knobs (a : Host.animation) :
  Host.a_knobs (Host.a_pause a) = (fst (Host.a_knobs a), false).
Proof.
  destruct a as [e|e|e|e]; cbn [Host.a_pause Host.a_knobs];
    apply knobs_pause.
Qed.

Lemma a_destroy_stopped (a : Host.animation) :
  Host.stopped (Host.a_destroy (Host.a_pause a)).
Proof.
  unfold Host.stopped.
  destruct a as [e|e|e|e];
    cbn [Host.a_destroy Host.a_pause Host.a_knobs Host.a_rafId];
    unfold Orbit.destroy, PointField.destroy, Fire.destroy;
    rewrite knobs_pause, pause_rafId; split; reflexivity.
Qed.

Lemma factory_knobs (id : Host.anim_id) (s : Host.ui) (rnd : nat -> R)
    (now0 now1 w h dpr : R) :
  exists a,
    Host.factory id s rnd now0 now1 w h dpr = Some a
    /\ Host.a_knobs a = Host.ui_knobs s.
Proof.
  destruct s as [sp de zo au ru].
  unfold Host.factory, Host.ui_knobs, Host.to_number, Host.all_params.
  cbn [Host.ui_speed Host.ui_density Host.ui_zoom Host.ui_zoomAuto
       Host.ui_running p_speed p_density p_zoom p_zoomAuto].
  destruct id.
  - destruct (orbit_created_knobs sp de zo au ru rnd now0 now1 w h dpr)
      as (e & E & K).
    rewrite E. eexists. split; [reflexivity|exact K].
  - destruct (created_knobs swirlField sp de zo au ru rnd now0 now1 w h dpr)
      as (e & E & K).
    rewrite E. eexists. split; [reflexivity|exact K].
  - destruct (created_knobs templateField sp de zo au ru rnd now0 now1
                w h dpr) as (e & E & K).
    rewrite E. eexists. split; [reflexivity|exact K].
  - eexists. split; [reflexivity|]. apply fire_created_knobs.
Qed.

Lemma on_current_sync (f : Host.animation -> option Host.animation)
    (s s' : Host.ui) (c : option Host.animation) (l : bool)
    (i : option Host.anim_id) (d : Host.drawers)
    (r : list Host.animation) :
  Host.in_sync (Host.MkPage s c l i d r) ->
  (forall a, Host.a_knobs a = Host.ui_knobs s ->
             exists a', f a = Some a' /\ Host.a_knobs a' = Host.ui_knobs s') ->
  exists c',
    Host.on_current f (Host.MkPage s' c l i d r)
    = Some (Host.MkPage s' c' l i d r)
    /\ Host.in_sync (Host.MkPage s' c' l i d r).
Proof.
  unfold Host.in_sync, Host.on_current.
  cbn [Host.state Host.currentAnimation Host.isLoadingAnimation
       Host.importing Host.panels Host.retired].
  intros (H1 & H2 & H3) Hf. destruct c as [a|].
  - destruct (Hf a H3) as (a' & E & K). rewrite E.
    exists (Some a'). split; [reflexivity|].
    split; [exact H1|]. split; [|exact K].
    intros Hl. specialize (H2 Hl). discriminate.
  - exists None. split; [reflexivity|]. split; [exact H1|]. now split.
Qed.

Lemma push_sync (p : params R) (s s' : Host.ui)
    (c : option Host.animation) (l : bool) (i : option Host.anim_id)
    (d : Host.drawers) (r : list Host.animation) :
  Host.tuned (Host.to_number p) (Host.ui_knobs s) = Host.ui_knobs s' ->
  Host.in_sync (Host.MkPage s c l i d r) ->
  exists c',
    Host.on_current (Host.a_setParams p) (Host.MkPage s' c l i d r)
    = Some (Host.MkPage s' c' l i d r)
    /\ Host.in_sync (Host.MkPage s' c' l i d r).
Proof.
  intros Ht Hs. apply (on_current_sync _ s s' c l i d r Hs).
  intros a Ha. destruct (a_setParams_knobs p a) as (a' & E & K).
  exists a'. split; [exact E|]. now rewrite K, Ha.
Qed.

(** Every listener runs to its end and leaves the page and its animation
    in agreement, with every replaced animation stopped. *)
Lemma handle_sync (ev : Host.event) (pg : Host.page) :
  Host.in_sync pg -> Forall Host.stopped (Host.retired pg) ->
  exists pg',
    Host.handle ev pg = Some pg'
    /\ Host.in_sync pg' /\ Forall Host.stopped (Host.retired pg').
Proof.
  destruct pg as [s c l i d r].
  cbn [Host.retired]. intros Hs Hr.
  assert (Keep : forall s' c',
             Host.in_sync (Host.MkPage s' c' l i d r) ->
             Host.in_sync (Host.MkPage s' c' l i d r)
             /\ Forall Host.stopped
                  (Host.retired (Host.MkPage s' c' l i d r)))
    by (intros; split; assumption).
  destruct ev as [id|rnd now0 now1 now2 w h dpr| |v|v|v|b|now| |sh dy|k
                 | | | |w h dpr|now];
    cbn [Host.handle].
  - (* select *)
    eexists. split; [reflexivity|].
    unfold Host.loadAnimation. cbn [Host.isLoadingAnimation].
    destruct l; [now split|].
    cbn [Host.state Host.currentAnimation Host.panels Host.retired].
    split.
    + unfold Host.in_sync.
      cbn [Host.state Host.currentAnimation Host.isLoadingAnimation
           Host.importing].
      split; [split; [discriminate|reflexivity]|]. now split.
    + apply Forall_app. split; [|exact Hr].
      destruct c as [a|]; [|constructor].
      constructor; [apply a_destroy_stopped|constructor].
  - (* the import resolves *)
    eexists. split; [reflexivity|].
    unfold Host.finish_load. cbn [Host.importing Host.state Host.panels
                                  Host.retired].
    destruct i as [id|]; [|now split].
    cbn [Host.retired]. split; [|exact Hr].
    unfold Host.in_sync.
    cbn [Host.state Host.currentAnimation Host.isLoadingAnimation
         Host.importing].
    split; [split; [discriminate|congruence]|].
    split; [discriminate|].
    destruct (factory_knobs id s rnd now0 now1 w h dpr) as (a & E & K).
    rewrite E.
    destruct (a_setParams_knobs (Host.all_params s) a) as (a' & E' & K').
    rewrite E'. rewrite K in K'.
    assert (K2 : Host.a_knobs a' = Host.ui_knobs s).
    { rewrite K'. destruct s. reflexivity. }
    destruct (Host.ui_running s) eqn:Hrun; [|exact K2].
    rewrite a_play_knobs, K2. destruct s. cbn in Hrun. subst. reflexivity.
  - (* the import is rejected *)
    eexists. split; [reflexivity|].
    unfold Host.fail_load. cbn [Host.importing Host.state Host.panels
                                Host.retired].
    destruct i as [id|]; [|now split].
    cbn [Host.retired]. split; [|exact Hr].
    unfold Host.in_sync.
    cbn [Host.state Host.currentAnimation Host.isLoadingAnimation
         Host.importing].
    split; [split; [discriminate|congruence]|]. now split.
  - (* speed slider *)
    unfold Host.push_speed, Host.set_state.
    cbn [Host.state Host.currentAnimation Host.isLoadingAnimation
         Host.importing Host.panels Host.retired].
    destruct (push_sync (Params (Some v) None None None) s
                (Host.with_speed v s) c l i d r) as (c' & E & K);
      [destruct s; reflexivity|exact Hs|].
    rewrite E. eexists. split; [reflexivity|]. now apply Keep.
  - (* density slider *)
    unfold Host.push_density, Host.set_state.
    cbn [Host.state Host.currentAnimation Host.isLoadingAnimation
         Host.importing Host.panels Host.retired].
    destruct (push_sync (Params None (Some v) None None) s
                (Host.with_density v s) c l i d r) as (c' & E & K);
      [destruct s; reflexivity|exact Hs|].
    rewrite E. eexists. split; [reflexivity|]. now apply Keep.
  - (* zoom slider *)
    unfold Host.push_zoom, Host.set_state.
    cbn [Host.state Host.currentAnimation Host.isLoadingAnimation
         Host.importing Host.panels Host.retired].
    destruct (push_sync (Params None None (Some v) None) s
                (Host.with_zoom v s) c l i d r) as (c' & E & K);
      [destruct s; reflexivity|exact Hs|].
    rewrite E. eexists. split; [reflexivity|]. now apply Keep.
  - (* auto-zoom box *)
    unfold Host.push_zoomAuto, Host.set_state.
    cbn [Host.state Host.currentAnimation Host.isLoadingAnimation
         Host.importing Host.panels Host.retired].
    destruct (push_sync (Params None None None (Some b)) s
                (Host.with_zoomAuto b s) c l i d r) as (c' & E & K);
      [destruct s; reflexivity|exact Hs|].
    rewrite E. eexists. split; [reflexivity|]. now apply Keep.
  - (* toggle *)
    unfold Host.set_state.
    cbn [Host.state Host.currentAnimation Host.isLoadingAnimation
         Host.importing Host.panels Host.retired].
    destruct (on_current_sync
                (fun a => Some (if negb (Host.ui_running s)
                                then Host.a_play now a
                                else Host.a_pause a))
                s (Host.with_running (negb (Host.ui_running s)) s)
                c l i d r Hs) as (c' & E & K).
    { intros a Ha. eexists. split; [reflexivity|].
      destruct s as [sp de zo au ru]. cbn [Host.ui_running].
      destruct ru; cbn [negb]; rewrite ?a_play_knobs, ?a_pause_knobs, Ha;
        reflexivity. }
    rewrite E. eexists. split; [reflexivity|]. now apply Keep.
  - (* reset *)
    destruct (on_current_sync (fun a => Some (Host.a_reset a))
                s s c l i d r Hs) as (c' & E & K).
    { intros a Ha. eexists. split; [reflexivity|].
      now rewrite a_reset_knobs. }
    rewrite E. eexists. split; [reflexivity|]. now apply Keep.
  - (* wheel *)
    destruct sh.
    + unfold Host.push_zoom, Host.set_state.
      cbn [Host.state Host.currentAnimation Host.isLoadingAnimation
           Host.importing Host.panels Host.retired].
      match goal with
      | |- context [Host.with_zoom ?v s] =>
        destruct (push_sync (Params None None (Some v) None) s
                    (Host.with_zoom v s) c l i d r) as (c' & E & K);
          [destruct s; reflexivity|exact Hs|]
      end.
      rewrite E. eexists. split; [reflexivity|]. now apply Keep.
    + unfold Host.push_speed, Host.set_state.
      cbn [Host.state Host.currentAnimation Host.isLoadingAnimation
           Host.importing Host.panels Host.retired].
      match goal with
      | |- context [Host.with_speed ?v s] =>
        destruct (push_sync (Params (Some v) None None None) s
                    (Host.with_speed v s) c l i d r) as (c' & E & K);
          [destruct s; reflexivity|exact Hs|]
      end.
      rewrite E. eexists. split; [reflexivity|]. now apply Keep.
  - (* keys *)
    destruct k.
    + unfold Host.push_zoom, Host.set_state.
      cbn [Host.state Host.currentAnimation Host.isLoadingAnimation
           Host.importing Host.panels Host.retired].
      match goal with
      | |- context [Host.with_zoom ?v s] =>
        destruct (push_sync (Params None None (Some v) None) s
                    (Host.with_zoom v s) c l i d r) as (c' & E & K);
          [destruct s; reflexivity|exact Hs|]
      end.
      rewrite E. eexists. split; [reflexivity|]. now apply Keep.
    + unfold Host.push_zoom, Host.set_state.
      cbn [Host.state Host.currentAnimation Host.isLoadingAnimation
           Host.importing Host.panels Host.retired].
      match goal with
      | |- context [Host.with_zoom ?v s] =>
        destruct (push_sync (Params None None (Some v) None) s
                    (Host.with_zoom v s) c l i d r) as (c' & E & K);
          [destruct s; reflexivity|exact Hs|]
      end.
      rewrite E. eexists. split; [reflexivity|]. now apply Keep.
    + eexists. split; [reflexivity|].
      destruct (Host.anyOpen _); now split.
    + eexists. split; [reflexivity|]. now split.
  - eexists. split; [reflexivity|]. now split.
  - eexists. split; [reflexivity|]. now split.
  - eexists. split; [reflexivity|]. now split.
  - (* resize *)
    destruct (on_current_sync (Host.a_fitCanvas w h dpr)
                s s c l i d r Hs) as (c' & E & K).
    { intros a Ha. destruct (a_fitCanvas_knobs w h dpr a) as (a' & E & K).
      exists a'. split; [exact E|]. now rewrite K. }
    rewrite E. eexists. split; [reflexivity|]. now apply Keep.
  - (* frame *)
    destruct (on_current_sync (fun a => Some (Host.a_loop now a))
                s s c l i d r Hs) as (c' & E & K).
    { intros a Ha. eexists. split; [reflexivity|].
      now rewrite a_loop_knobs. }
    rewrite E. eexists. split; [reflexivity|]. now apply Keep.
Qed.

Lemma handle_all_sync (evs : list Host.event) (pg : Host.page) :
  Host.in_sync pg -> Forall Host.stopped (Host.retired pg) ->
  exists pg',
    Host.handle_all evs pg = Some pg'
    /\ Host.in_sync pg' /\ Forall Host.stopped (Host.retired pg').
Proof.
  revert pg. induction evs as [|ev evs IH]; intros pg Hs Hr.
  - exists pg. now split.
  - destruct (handle_sync ev pg Hs Hr) as (pg1 & E1 & Hs1 & Hr1).
    cbn [Host.handle_all]. rewrite E1. now apply IH.
Qed.

Lemma init_sync (speed0 density0 zoom0 : R) (zoomAuto0 : bool)
    (d0 : Host.drawers) :
  Host.in_sync (Host.init speed0 density0 zoom0 zoomAuto0 d0)
  /\ Forall Host.stopped
       (Host.retired (Host.init speed0 density0 zoom0 zoomAuto0 d0)).
Proof.
  unfold Host.init, Host.loadAnimation, Host.in_sync.
  cbn [Host.state Host.currentAnimation Host.isLoadingAnimation
       Host.importing Host.retired app].
  split; [|constructor].
  split; [split; [discriminate|reflexivity]|]. now split.
Qed.

(** X23. Whatever the user and the browser do (selecting animations,
    moving the sliders, wheel and keys, pause and resume, reset, resizes,
    frames, imports that resolve or fail), no listener of main.js throws,
    and the current animation always holds the page's own speed, density,
    zoom, auto-zoom flag and running flag; while an import is awaited
    there is no current animation. *)
Theorem page_and_animation_stay_in_sync (speed0 density0 zoom0 : R)
    (zoomAuto0 : bool) (d0 : Host.drawers) (evs : list Host.event) :
  exists pg,
    Host.handle_all evs (Host.init speed0 density0 zoom0 zoomAuto0 d0)
    = Some pg
    /\ Host.in_sync pg.
Proof.
  destruct (init_sync speed0 density0 zoom0 zoomAuto0 d0) as [Hs Hr].
  destruct (handle_all_sync evs _ Hs Hr) as (pg & E & Hs' & _).
  exists pg. now split.
Qed.

(** X24. [loadAnimation] stops what it replaces: every animation that was
    once current and has been replaced is paused and has no frame request
    left, so at most one animation, the current one, is running. *)
Theorem replaced_animations_are_stopped (speed0 density0 zoom0 : R)
    (zoomAuto0 : bool) (d0 : Host.drawers) (evs : list Host.event) :
  exists pg,
    Host.handle_all evs (Host.init speed0 density0 zoom0 zoomAuto0 d0)
    = Some pg
    /\ Forall Host.stopped (Host.retired pg).
Proof.
  destruct (init_sync speed0 density0 zoom0 zoomAuto0 d0) as [Hs Hr].
  destruct (handle_all_sync evs _ Hs Hr) as (pg & E & _ & Hr').
  exists pg. now split.
Qed.

(** ** Drawers *)

Lemma on_current_keeps (f : Host.animation -> option Host.animation)
    (pg pg' : Host.page) :
  Host.on_current f pg = Some pg' ->
  Host.state pg' = Host.state pg /\ Host.panels pg' = Host.panels pg
  /\ Host.retired pg' = Host.retired pg.
Proof.
  unfold Host.on_current. destruct (Host.currentAnimation pg) as [a|].
  - destruct (f a); [|discriminate]. intros [= <-]. now repeat split.
  - intros [= <-]. now repeat split.
Qed.

Lemma tidy_controls (open : bool) (d : Host.drawers) :
  Host.tidy d ->
  Host.tidy (if open
             then Host.setDrawer_info false (Host.setDrawer_controls open d)
             else Host.setDrawer_controls open d).
Proof.
  destruct d as [c i s]. unfold Host.tidy, Host.anyOpen. cbn.
  intros [H1 H2]. destruct open, c, i; cbn in *; split; congruence.
Qed.

Lemma tidy_info (open : bool) (d : Host.drawers) :
  Host.tidy d ->
  Host.tidy (if open
             then Host.setDrawer_controls false (Host.setDrawer_info open d)
             else Host.setDrawer_info open d).
Proof.
  destruct d as [c i s]. unfold Host.tidy, Host.anyOpen. cbn.
  intros [H1 H2]. destruct open, c, i; cbn in *; split; congruence.
Qed.

Lemma tidy_close_both (d : Host.drawers) :
  Host.tidy (Host.close_both d)
  /\ Host.controls_open (Host.close_both d) = false
  /\ Host.info_open (Host.close_both d) = false
  /\ Host.scrim_on (Host.close_both d) = false.
Proof. destruct d as [c i s]. unfold Host.tidy. cbn. repeat split. Qed.

Lemma handle_panels (ev : Host.event) (pg pg' : Host.page) :
  Host.handle ev pg = Some pg' ->
  Host.tidy (Host.panels pg) -> Host.tidy (Host.panels pg').
Proof.
  intros E Ht.
  assert (Keep : forall f pg0,
             Host.panels pg0 = Host.panels pg ->
             Host.on_current f pg0 = Some pg' ->
             Host.tidy (Host.panels pg')).
  { intros f pg0 E0 E1. apply on_current_keeps in E1.
    destruct E1 as (_ & -> & _). now rewrite E0. }
  destruct ev as [id|rnd now0 now1 now2 w h dpr| |v|v|v|b|now| |sh dy|k
                 | | | |w h dpr|now];
    cbn [Host.handle] in E.
  - injection E as <-. unfold Host.loadAnimation.
    destruct (Host.isLoadingAnimation pg); exact Ht.
  - injection E as <-. unfold Host.finish_load.
    destruct (Host.importing pg); exact Ht.
  - injection E as <-. unfold Host.fail_load.
    destruct (Host.importing pg); exact Ht.
  - now apply Keep in E.
  - now apply Keep in E.
  - now apply Keep in E.
  - now apply Keep in E.
  - now apply Keep in E.
  - now apply Keep in E.
  - destruct sh; now apply Keep in E.
  - destruct k; try (now apply Keep in E).
    + injection E as <-. destruct (Host.anyOpen (Host.panels pg));
        [|exact Ht].
      cbn [Host.panels Host.set_panels]. apply tidy_close_both.
    + injection E as <-. exact Ht.
  - injection E as <-. cbn [Host.panels Host.set_panels].
    now apply tidy_controls.
  - injection E as <-. cbn [Host.panels Host.set_panels].
    now apply tidy_info.
  - injection E as <-. cbn [Host.panels Host.set_panels].
    apply tidy_close_both.
  - now apply Keep in E.
  - now apply Keep in E.
Qed.

Lemma handle_all_panels (evs : list Host.event) (pg pg' : Host.page) :
  Host.handle_all evs pg = Some pg' ->
  Host.tidy (Host.panels pg) -> Host.tidy (Host.panels pg').
Proof.
  revert pg. induction evs as [|ev evs IH]; intros pg E Ht.
  - injection E as <-. exact Ht.
  - cbn [Host.handle_all] in E.
    destruct (Host.handle ev pg) as [pg1|] eqn:E1; [|discriminate].
    apply (IH pg1 E). now apply (handle_panels ev pg).
Qed.

(** X25. The two drawers of the page exclude each other: after any
    sequence of events at most one of the controls and info drawers is
    open, and the scrim is on exactly when one of them is; a click on the
    scrim and the Escape key leave both closed and the scrim off. *)
Theorem drawers_exclude_each_other (speed0 density0 zoom0 : R)
    (zoomAuto0 : bool) (d0 : Host.drawers) (evs : list Host.event) :
  exists pg,
    Host.handle_all evs (Host.init speed0 density0 zoom0 zoomAuto0 d0)
    = Some pg
    /\ Host.controls_open (Host.panels pg) && Host.info_open (Host.panels pg)
       = false
    /\ Host.scrim_on (Host.panels pg)
       = Host.controls_open (Host.panels pg) || Host.info_open (Host.panels pg)
    /\ (exists pg1,
          Host.handle Host.ScrimClick pg = Some pg1
          /\ Host.panels pg1 = Host.Drawers false false false)
    /\ (exists pg2,
          Host.handle (Host.KeyDown Host.KeyEscape) pg = Some pg2
          /\ Host.panels pg2 = Host.Drawers false false false).
Proof.
  destruct (init_sync speed0 density0 zoom0 zoomAuto0 d0) as [Hs Hr].
  destruct (handle_all_sync evs _ Hs Hr) as (pg & E & _ & _).
  exists pg. split; [exact E|].
  assert (Ht : Host.tidy (Host.panels pg)).
  { apply (handle_all_panels evs _ pg E).
    unfold Host.init, Host.loadAnimation. cbn [Host.isLoadingAnimation
                                               Host.panels].
    apply tidy_close_both. }
  destruct Ht as [T1 T2]. split; [exact T1|]. split; [exact T2|].
  assert (Hc : Host.close_both (Host.panels pg)
               = Host.Drawers false false false)
    by (destruct (Host.panels pg); reflexivity).
  split.
  - eexists. split; [reflexivity|]. exact Hc.
  - cbn [Host.handle]. eexists. split; [reflexivity|].
    destruct (Host.anyOpen (Host.panels pg)) eqn:Ha; [exact Hc|].
    destruct (Host.panels pg) as [c i sc].
    cbn [Host.scrim_on Host.controls_open Host.info_open] in *.
    unfold Host.anyOpen in Ha. cbn [Host.controls_open Host.info_open] in Ha.
    apply orb_false_elim in Ha. destruct Ha as [-> ->]. now rewrite T2.
Qed.

(** ** Wheel and keys *)

Lemma push_total (p : params R) (s' : Host.ui) (pg : Host.page) :
  exists pg',
    Host.on_current (Host.a_setParams p) (Host.set_state s' pg) = Some pg'
    /\ Host.state pg' = s'.
Proof.
  unfold Host.on_current, Host.set_state. cbn [Host.currentAnimation].
  destruct (Host.currentAnimation pg) as [a|].
  - destruct (a_setParams_knobs p a) as (a' & E & _). rewrite E.
    eexists. split; reflexivity.
  - eexists. split; reflexivity.
Qed.

Lemma wheel_or_key_state (ev : Host.event) (pg : Host.page) :
  Host.wheel_or_key ev = true ->
  0.5 <= Host.ui_zoom (Host.state pg) <= 4 ->
  0.05 <= Host.ui_speed (Host.state pg) <= 5 ->
  exists pg',
    Host.handle ev pg = Some pg'
    /\ 0.5 <= Host.ui_zoom (Host.state pg') <= 4
    /\ 0.05 <= Host.ui_speed (Host.state pg') <= 5
    /\ Host.ui_density (Host.state pg') = Host.ui_density (Host.state pg)
    /\ Host.ui_zoomAuto (Host.state pg') = Host.ui_zoomAuto (Host.state pg)
    /\ Host.ui_running (Host.state pg') = Host.ui_running (Host.state pg).
Proof.
  intros Hev Hz Hs.
  destruct ev as [id|rnd now0 now1 now2 w h dpr| |v|v|v|b|now| |sh dy|k
                 | | | |w h dpr|now]; try discriminate Hev;
    cbn [Host.handle].
  - destruct sh.
    + unfold Host.push_zoom.
      match goal with
      | |- context [Host.with_zoom ?v ?s] =>
        destruct (push_total (Params None None (Some v) None)
                    (Host.with_zoom v s) pg) as (pg' & E & Es);
          pose proof (Rmin_l 4 (Rmax 0.5 (Host.ui_zoom (Host.state pg)
                                          * Math_pow 1.1 (- dy / 100))));
          pose proof (Rmax_l 0.5 (Host.ui_zoom (Host.state pg)
                                  * Math_pow 1.1 (- dy / 100)))
      end.
      exists pg'. split; [exact E|]. rewrite Es.
      cbn [Host.with_zoom Host.ui_zoom
        Host.ui_speed Host.ui_density Host.ui_zoomAuto Host.ui_running].
      split; [split; [apply Rmin_glb; lra|assumption]|].
      repeat split; apply Hs.
    + unfold Host.push_speed.
      match goal with
      | |- context [Host.with_speed ?v ?s] =>
        destruct (push_total (Params (Some v) None None None)
                    (Host.with_speed v s) pg) as (pg' & E & Es);
          pose proof (Rmax_l 0.05 (Rmin 5 (Host.ui_speed (Host.state pg)
                                           * Math_pow 1.1 (- dy / 100))));
          pose proof (Rmin_l 5 (Host.ui_speed (Host.state pg)
                                * Math_pow 1.1 (- dy / 100)))
      end.
      exists pg'. split; [exact E|]. rewrite Es.
      cbn [Host.with_speed Host.ui_zoom
        Host.ui_speed Host.ui_density Host.ui_zoomAuto Host.ui_running].
      split; [exact Hz|].
      split; [split; [assumption|apply Rmax_lub; lra]|].
      repeat split.
  - destruct k.
    + unfold Host.push_zoom.
      match goal with
      | |- context [Host.with_zoom ?v ?s] =>
        destruct (push_total (Params None None (Some v) None)
                    (Host.with_zoom v s) pg) as (pg' & E & Es)
      end.
      exists pg'. split; [exact E|]. rewrite Es.
      cbn [Host.with_zoom Host.ui_zoom
        Host.ui_speed Host.ui_density Host.ui_zoomAuto Host.ui_running].
      split; [split; [apply Rmin_glb; lra|apply Rmin_l]|].
      repeat split; apply Hs.
    + unfold Host.push_zoom.
      match goal with
      | |- context [Host.with_zoom ?v ?s] =>
        destruct (push_total (Params None None (Some v) None)
                    (Host.with_zoom v s) pg) as (pg' & E & Es)
      end.
      exists pg'. split; [exact E|]. rewrite Es.
      cbn [Host.with_zoom Host.ui_zoom
        Host.ui_speed Host.ui_density Host.ui_zoomAuto Host.ui_running].
      split; [split; [apply Rmax_l|apply Rmax_lub; lra]|].
      repeat split; apply Hs.
    + eexists. split; [reflexivity|].
      destruct (Host.anyOpen _); cbn [Host.state Host.set_panels];
        repeat split; try apply Hz; apply Hs.
    + eexists. split; [reflexivity|].
      repeat split; try apply Hz; apply Hs.
Qed.

(** X26. The wheel and the keyboard keep the page's zoom within [0.5, 4]
    and its speed within [0.05, 5], and touch nothing else of [state]:
    from a page within these ranges, every sequence of wheel and key events
    runs without throwing and ends within them. *)
Theorem wheel_and_keys_stay_in_range (evs : list Host.event)
    (pg : Host.page) :
  forallb Host.wheel_or_key evs = true ->
  0.5 <= Host.ui_zoom (Host.state pg) <= 4 ->
  0.05 <= Host.ui_speed (Host.state pg) <= 5 ->
  exists pg',
    Host.handle_all evs pg = Some pg'
    /\ 0.5 <= Host.ui_zoom (Host.state pg') <= 4
    /\ 0.05 <= Host.ui_speed (Host.state pg') <= 5
    /\ Host.ui_density (Host.state pg') = Host.ui_density (Host.state pg)
    /\ Host.ui_zoomAuto (Host.state pg') = Host.ui_zoomAuto (Host.state pg)
    /\ Host.ui_running (Host.state pg') = Host.ui_running (Host.state pg).
Proof.
  revert pg. induction evs as [|ev evs IH]; intros pg Hev Hz Hs.
  - exists pg. repeat split; try apply Hz; apply Hs.
  - cbn [forallb] in Hev. apply andb_prop in Hev. destruct Hev as [H1 H2].
    destruct (wheel_or_key_state ev pg H1 Hz Hs)
      as (pg1 & E1 & Hz1 & Hs1 & D1 & A1 & R1).
    destruct (IH pg1 H2 Hz1 Hs1) as (pg' & E' & Hz' & Hs' & D' & A' & R').
    exists pg'. cbn [Host.handle_all]. rewrite E1.
    split; [exact E'|]. split; [exact Hz'|]. split; [exact Hs'|].
    repeat split; congruence.
Qed.

Lemma wheel_and_keys_stay_in_range_witness :
  exists pg',
    Host.handle_all
      [Host.Wheel true (-300); Host.KeyDown Host.KeyPlus;
       Host.Wheel false 5000; Host.KeyDown Host.KeyMinus]
      (Host.init 0.5 0.005 1 false (Host.Drawers false false false))
    = Some pg'
    /\ 0.5 <= Host.ui_zoom (Host.state pg') <= 4
    /\ 0.05 <= Host.ui_speed (Host.state pg') <= 5
    /\ Host.ui_density (Host.state pg') = 0.005
    /\ Host.ui_zoomAuto (Host.state pg') = false
    /\ Host.ui_running (Host.state pg') = true.
Proof.
  apply (wheel_and_keys_stay_in_range
           [Host.Wheel true (-300); Host.KeyDown Host.KeyPlus;
            Host.Wheel false 5000; Host.KeyDown Host.KeyMinus]
           (Host.init 0.5 0.005 1 false (Host.Drawers false false false))).
  - reflexivity.
  - unfold Host.init, Host.loadAnimation.
    cbn [Host.isLoadingAnimation Host.state Host.ui_zoom]. lra.
  - unfold Host.init, Host.loadAnimation.
    cbn [Host.isLoadingAnimation Host.state Host.ui_speed]. lra.
Defined.

Lemma pow_one_notch : Math_pow 1.1 (- (-100) / 100) = 1.1.
Proof.
  unfold Math_pow. destruct (Rlt_dec 0 1.1) as [H|H]; [|lra].
  replace (- (-100) / 100) with 1 by lra. now apply Rpower_1.
Qed.

Lemma pow_minus_one_notch : Math_pow 1.1 (Ropp 100 / 100) = / 1.1.
Proof.
  unfold Math_pow. destruct (Rlt_dec 0 1.1) as [H|H]; [|lra].
  replace (Ropp 100 / 100) with (Ropp 1) by lra.
  rewrite Rpower_Ropp, Rpower_1 by exact H. reflexivity.
Qed.

(** X27. One notch of the wheel is one key step: with the zoom within
    [0.5, 4], a shift-wheel event of -100 does exactly what the [+] key
    does (zoom times 1.1, capped at 4), and one of +100 what the [-] key
    does (zoom divided by 1.1, floored at 0.5). *)
Theorem wheel_notch_is_a_key_step (pg : Host.page) :
  0.5 <= Host.ui_zoom (Host.state pg) <= 4 ->
  Host.handle (Host.Wheel true (-100)) pg
  = Host.handle (Host.KeyDown Host.KeyPlus) pg
  /\ Host.handle (Host.Wheel true 100) pg
     = Host.handle (Host.KeyDown Host.KeyMinus) pg.
Proof.
  intros Hz. cbn [Host.handle].
  rewrite pow_one_notch, pow_minus_one_notch.
  fold (Host.ui_zoom (Host.state pg) / 1.1).
  rewrite (Rmax_right 0.5 (Host.ui_zoom (Host.state pg) * 1.1)) by lra.
  rewrite (Rmin_right 4 (Rmax 0.5 (Host.ui_zoom (Host.state pg) / 1.1))).
  - split; reflexivity.
  - apply Rmax_lub; lra.
Qed.

Lemma wheel_notch_is_a_key_step_witness :
  Host.handle (Host.Wheel true (-100))
    (Host.init 0.5 0.005 1 false (Host.Drawers false false false))
  = Host.handle (Host.KeyDown Host.KeyPlus)
      (Host.init 0.5 0.005 1 false (Host.Drawers false false false))
  /\ Host.handle (Host.Wheel true 100)
       (Host.init 0.5 0.005 1 false (Host.Drawers false false false))
     = Host.handle (Host.KeyDown Host.KeyMinus)
         (Host.init 0.5 0.005 1 false (Host.Drawers false false false)).
Proof.
  apply (wheel_notch_is_a_key_step
           (Host.init 0.5 0.005 1 false (Host.Drawers false false false))).
  unfold Host.init, Host.loadAnimation.
  cbn [Host.isLoadingAnimation Host.state Host.ui_zoom]. lra.
Defined.
